(** * plugin-cache: a file-backed cache with TTL, stale-while-revalidate
      and LRU eviction

    Shallow embedding of the cache engine (cache.ts), its type
    declarations (types.ts) and the eviction module (cleanup.ts).

    Conventions of the model.
    - Timestamps are the millisecond counts behind the ISO strings the code
      stores ([new Date(s).getTime()]), which [toISOString] writes for valid
      dates only; a date the code builds from a sum ([expiresAt + swr],
      [now + ttl]) is an Invalid Date once the sum leaves the range of
      8.64e15 ms either side of the epoch ([JsDate]).  Sizes are integers.
    - A cached value is represented by its JSON text, a byte string; its size
      is the length of that text ([Buffer.byteLength(JSON.stringify(data))]).
    - [manifest.entries] is a JavaScript object: an insertion-ordered list of
      (path, row) pairs, because [Object.values]/[Object.entries] and the
      stable [Array.prototype.sort] observe that order.
    - The disk is one cache root: the entry files by path, the manifest file,
      and the temporary files of [saveManifest] by process id.  An instance
      files its entries under [cacheDir/namespace/], the namespace being a
      proper directory name, so an entry path never is the manifest path.
      [clearNamespace] takes any string for the namespace: there the
      directory is [path.join(cacheDir, namespace)] of POSIX ([Path]), and
      what [rmSync] takes away is decided on normalised paths.
    - The products [maxSize * 0.9] and [maxSize * 0.7] are binary64 numbers
      ([Double]); sizes are integers a double holds exactly.  The target
      [maxSize * 0.7] is computed as the code rounds it.  The trigger test
      [totalSize < maxSize * 0.9] is written over the integers, [10 * x]
      against [9 * maxSize]: for budgets up to 2^49 bytes the two tests are
      the same ([threshold_product_is_exact]).
    - Entry files are read, written and unlinked reliably.  What happens to
      the bytes of a manifest write is a parameter, [WriteFate].
    - Every instance and every cleanup call addresses the one cache root the
      disk stands for; the [cacheDir] strings only build paths.  Keys are
      ASCII, one character per UTF-16 code unit.
    - The caller's producer is given by what a call of it does; it does not
      touch the cache directory itself.
    - The clock is read once per operation; [getOrFetch] reads it again after
      the producer has settled. *)

From Stdlib Require Import ZArith List String Ascii Bool Lia Permutation Sorted
  DecimalString.
From stdpp Require Import gmap strings.
Import ListNotations.

Open Scope string_scope.
Open Scope Z_scope.

(** ** JavaScript objects used as maps *)

Module JsObject.

Definition t (V : Type) : Type := list (string * V).

Fixpoint get {V} (k : string) (o : t V) : option V :=
  match o with
  | [] => None
  | (k', v) :: rest => if String.eqb k k' then Some v else get k rest
  end.

(** [o[k] = v]: an existing property keeps its place, a new one goes last. *)
Fixpoint set {V} (k : string) (v : V) (o : t V) : t V :=
  match o with
  | [] => [(k, v)]
  | (k', v') :: rest =>
      if String.eqb k k' then (k', v) :: rest else (k', v') :: set k v rest
  end.

(** [delete o[k]] *)
Fixpoint delete {V} (k : string) (o : t V) : t V :=
  match o with
  | [] => []
  | (k', v') :: rest =>
      if String.eqb k k' then delete k rest else (k', v') :: delete k rest
  end.

Definition keys {V} (o : t V) : list string := List.map fst o.
Definition values {V} (o : t V) : list V := List.map snd o.

End JsObject.

(** ** types.ts *)

Module CacheEntry.
Record t : Type := mk {
  data : string;
  createdAt : Z;
  lastAccessedAt : Z;
  expiresAt : Z;
  etag : option string;
  lastModified : option string;
  version : option string;
  size : Z
}.

Definition touch (now : Z) (e : t) : t :=
  mk (data e) (createdAt e) now (expiresAt e) (etag e) (lastModified e)
     (version e) (size e).
End CacheEntry.

Module ManifestEntry.
Record t : Type := mk {
  filePath : string;
  namespace : string;
  key : string;
  size : Z;
  lastAccessedAt : Z;
  expiresAt : Z
}.

Definition touch (now : Z) (e : t) : t :=
  mk (filePath e) (namespace e) (key e) (size e) now (expiresAt e).
End ManifestEntry.

Module CacheManifest.
Record t : Type := mk {
  version : Z;
  totalSize : Z;
  maxSize : Z;
  entries : JsObject.t ManifestEntry.t;
  lastCleanup : option Z
}.

Definition withEntries (es : JsObject.t ManifestEntry.t) (m : t) : t :=
  mk (version m) (totalSize m) (maxSize m) es (lastCleanup m).

Definition withTotalSize (n : Z) (m : t) : t :=
  mk (version m) n (maxSize m) (entries m) (lastCleanup m).

Definition withLastCleanup (now : Z) (m : t) : t :=
  mk (version m) (totalSize m) (maxSize m) (entries m) (Some now).
End CacheManifest.

Record CacheConfig : Type := {
  cfg_namespace : string;
  cfg_defaultTTL : option Z;
  cfg_defaultStaleWhileRevalidate : option Z;
  cfg_maxEntrySize : option Z;
  cfg_cacheDir : option string;
  cfg_disabled : option bool
}.

Record GetOptions : Type := {
  get_ttl : option Z;
  get_staleWhileRevalidate : option Z
}.

Record SetOptions : Type := {
  set_ttl : option Z;
  set_etag : option string;
  set_lastModified : option string;
  set_version : option string
}.

Record GetOrFetchOptions : Type := {
  setOptions : SetOptions;
  bypassCache : option bool;
  staleWhileRevalidate : option Z
}.

Record CacheResult : Type := {
  res_data : option string;
  hit : bool;
  stale : bool;
  needsRevalidation : bool;
  res_entry : option CacheEntry.t
}.

Record CleanupResult : Type := {
  entriesRemoved : Z;
  bytesFreed : Z;
  newTotalSize : Z
}.

Record CacheValidator : Type := {
  val_etag : option string;
  val_lastModified : option string
}.

Record CacheStats : Type := {
  stats_namespace : string;
  entryCount : Z;
  stats_totalSize : Z;
  oldestEntry : option Z;
  newestEntry : option Z;
  expiredCount : Z;
  staleCount : Z
}.

(** ** The disk and the effects of the code *)

Inductive EntryFile : Type :=
| EntryJson (e : CacheEntry.t)
| EntryGarbage.

Inductive ManifestFile : Type :=
| ManifestJson (m : CacheManifest.t)
| ManifestGarbage.

Record Disk : Type := {
  files : gmap string EntryFile;
  manifestFile : option ManifestFile;
  tempFiles : gmap Z ManifestFile
}.

Definition emptyDisk : Disk :=
  {| files := ∅; manifestFile := None; tempFiles := ∅ |}.

Definition withFiles (fs : gmap string EntryFile) (d : Disk) : Disk :=
  {| files := fs; manifestFile := manifestFile d; tempFiles := tempFiles d |}.

Definition withManifestFile (mf : option ManifestFile) (d : Disk) : Disk :=
  {| files := files d; manifestFile := mf; tempFiles := tempFiles d |}.

Definition withTempFiles (ts : gmap Z ManifestFile) (d : Disk) : Disk :=
  {| files := files d; manifestFile := manifestFile d; tempFiles := ts |}.

Inductive Exn : Type :=
| SyntaxError
| RangeError
| IOError
| ProducerError (reason : string).

Inductive Completion (A : Type) : Type :=
| Normal (a : A)
| Throw (e : Exn).
Arguments Normal {A} a.
Arguments Throw {A} e.

(** A computation on the disk that returns or throws. *)
Definition Eff (A : Type) : Type := Disk -> Completion A * Disk.

Definition ret {A} (a : A) : Eff A := fun d => (Normal a, d).

Definition throw {A} (e : Exn) : Eff A := fun d => (Throw e, d).

Definition bind {A B} (m : Eff A) (k : A -> Eff B) : Eff B :=
  fun d =>
    match m d with
    | (Normal a, d') => k a d'
    | (Throw e, d') => (Throw e, d')
    end.

(** [try { body } catch (error) { handler }] *)
Definition tryCatch {A} (body : Eff A) (handler : Exn -> Eff A) : Eff A :=
  fun d =>
    match body d with
    | (Normal a, d') => (Normal a, d')
    | (Throw e, d') => handler e d'
    end.

Definition modify (f : Disk -> Disk) : Eff unit := fun d => (Normal tt, f d).

Declare Scope eff_scope.
Delimit Scope eff_scope with eff.
Notation "x <- m ;; k" := (bind m (fun x => k))
  (at level 100, m at next level, right associativity) : eff_scope.
Notation "m ;;; k" := (bind m (fun _ => k))
  (at level 100, right associativity) : eff_scope.

(** What happens to the bytes of a manifest write. *)
Inductive WriteFate : Type :=
| Completes
| FailsOnOpen      (* nothing is created or changed *)
| FailsMidWrite    (* the target is left truncated *)
| FailsOnRename.   (* the write completes, a following rename fails *)

(** [fs.writeFileSync(manifestPath, JSON.stringify(manifest))] *)
Definition writeManifestFile (fate : WriteFate) (m : CacheManifest.t) : Eff unit :=
  match fate with
  | FailsOnOpen => throw IOError
  | FailsMidWrite =>
      (modify (withManifestFile (Some ManifestGarbage)) ;;; throw IOError)%eff
  | Completes | FailsOnRename =>
      modify (withManifestFile (Some (ManifestJson m)))
  end.

(** [fs.writeFileSync(tempPath, JSON.stringify(manifest))] with
    [tempPath = manifestPath.tmp.<pid>] *)
Definition writeTempFile (fate : WriteFate) (pid : Z) (m : CacheManifest.t) : Eff unit :=
  match fate with
  | FailsOnOpen => throw IOError
  | FailsMidWrite =>
      (modify (fun d => withTempFiles (<[pid := ManifestGarbage]> (tempFiles d)) d) ;;;
       throw IOError)%eff
  | Completes | FailsOnRename =>
      modify (fun d => withTempFiles (<[pid := ManifestJson m]> (tempFiles d)) d)
  end.

(** [fs.renameSync(tempPath, manifestPath)] *)
Definition renameTempFile (fate : WriteFate) (pid : Z) : Eff unit :=
  match fate with
  | FailsOnRename => throw IOError
  | _ =>
      fun d =>
        match tempFiles d !! pid with
        | Some content =>
            (Normal tt,
             withTempFiles (base.delete pid (tempFiles d))
               (withManifestFile (Some content) d))
        | None => (Throw IOError, d)
        end
  end.

(** [if (fs.existsSync(tempPath)) fs.unlinkSync(tempPath)] *)
Definition unlinkTempFile (pid : Z) : Eff unit :=
  modify (fun d => withTempFiles (base.delete pid (tempFiles d)) d).

(** ** Dates *)

Module JsDate.

(** The largest time value of a [Date]: 8.64e15 ms either side of the epoch.
    [new Date(t)] beyond it is an Invalid Date, whose time value is NaN. *)
Definition MAX_TIME : Z := 8640000000000000.

(** [!isNaN(new Date(t).getTime())] *)
Definition isValid (t : Z) : bool := (- MAX_TIME <=? t) && (t <=? MAX_TIME).

(** [now <= new Date(t)] and [now > new Date(t)] for the clock [now]: a
    comparison with an Invalid Date is false. *)
Definition notAfter (now t : Z) : bool := isValid t && (now <=? t).
Definition after (now t : Z) : bool := isValid t && (t <? now).

End JsDate.

(** ** How the products round *)

Module Double.

(** A finite double, [mant * 2 ^ expo]. *)
Record t : Type := mk { mant : Z; expo : Z }.

Definition precision : Z := 53.

(** [n * 2 ^ e] for [0 <= n], rounded to 53 significant bits: to nearest,
    ties to even. *)
Definition roundPos (n e : Z) : t :=
  let excess := Z.log2 n + 1 - precision in
  if excess <=? 0 then mk n e
  else
    let q := n / 2 ^ excess in
    let r := n mod 2 ^ excess in
    let half := 2 ^ (excess - 1) in
    let up := (half <? r) || ((r =? half) && Z.odd q) in
    mk (if up then q + 1 else q) (e + excess).

Definition round (n e : Z) : t :=
  if n <? 0 then let r := roundPos (- n) e in mk (- mant r) (expo r) else roundPos n e.

(** [x * c] for an integer [x] that a double holds exactly. *)
Definition timesInt (x : Z) (c : t) : t := round (x * mant c) (expo c).

(** [n <= x] and [n < x] for an integer [n]. *)
Definition leInt (n : Z) (x : t) : bool :=
  n * 2 ^ Z.max 0 (- expo x) <=? mant x * 2 ^ Z.max 0 (expo x).

Definition ltInt (n : Z) (x : t) : bool :=
  n * 2 ^ Z.max 0 (- expo x) <? mant x * 2 ^ Z.max 0 (expo x).

End Double.

(** ** Paths: [path.join] and [path.normalize] of POSIX *)

Module Path.

(** [s.split("/")] *)
Fixpoint segments (s : string) : list string :=
  match s with
  | EmptyString => [""]
  | String a rest =>
      if Ascii.eqb a "/" then "" :: segments rest
      else
        match segments rest with
        | head :: tail => String a head :: tail
        | [] => [String a ""]
        end
  end.

Fixpoint joinSegments (parts : list string) : string :=
  match parts with
  | [] => ""
  | [part] => part
  | part :: rest => (part ++ "/" ++ joinSegments rest)%string
  end.

(** [normalizeString]: an empty segment and [.] are dropped; [..] takes the
    last segment away, unless there is none or it is [..] itself, where it is
    kept if the path is relative.  [done] is the result so far, last segment
    first. *)
Fixpoint normalizeSegments (allowAboveRoot : bool) (todo done : list string)
  : list string :=
  match todo with
  | [] => rev done
  | segment :: rest =>
      if String.eqb segment "" || String.eqb segment "." then
        normalizeSegments allowAboveRoot rest done
      else if String.eqb segment ".." then
        match done with
        | last :: before =>
            if String.eqb last ".." then
              normalizeSegments allowAboveRoot rest
                (if allowAboveRoot then ".." :: done else done)
            else normalizeSegments allowAboveRoot rest before
        | [] =>
            normalizeSegments allowAboveRoot rest
              (if allowAboveRoot then [".."] else [])
        end
      else normalizeSegments allowAboveRoot rest (segment :: done)
  end.

Definition isAbsolute (p : string) : bool :=
  match p with
  | String a _ => Ascii.eqb a "/"
  | EmptyString => false
  end.

Fixpoint endsWithSeparator (p : string) : bool :=
  match p with
  | EmptyString => false
  | String a EmptyString => Ascii.eqb a "/"
  | String _ rest => endsWithSeparator rest
  end.

Definition normalize (p : string) : string :=
  match p with
  | EmptyString => "."
  | _ =>
      let absolute := isAbsolute p in
      let trailingSeparator := endsWithSeparator p in
      match joinSegments (normalizeSegments (negb absolute) (segments p) []) with
      | EmptyString => if absolute then "/" else if trailingSeparator then "./" else "."
      | body =>
          let body := if trailingSeparator then (body ++ "/")%string else body in
          if absolute then ("/" ++ body)%string else body
      end
  end.

(** [path.join(...parts)] *)
Definition join (parts : list string) : string :=
  match List.filter (fun part => negb (String.eqb part "")) parts with
  | [] => "."
  | nonEmpty => normalize (joinSegments nonEmpty)
  end.

Fixpoint isPrefix (l1 l2 : list string) : bool :=
  match l1, l2 with
  | [], _ => true
  | x :: xs, y :: ys => String.eqb x y && isPrefix xs ys
  | _ :: _, [] => false
  end.

Fixpoint leadingUps (l : list string) : nat :=
  match l with
  | ".." :: rest => S (leadingUps rest)
  | _ => O
  end.

(** [p] is [target] or lies inside it, for two paths that are both absolute
    or both relative to the working directory.  When [target] is the root, the
    working directory or an ancestor of it, these are the paths that do not
    climb higher than [target]; otherwise they are the paths whose segments
    begin with those of [target].  (Whether a relative [target] that climbs
    and then descends comes back to the working directory depends on the name
    of that directory; such a [target] holds the paths spelled through it
    only.) *)
Definition contains (target p : string) : bool :=
  let targetSegments := normalizeSegments (negb (isAbsolute target)) (segments target) [] in
  let pSegments := normalizeSegments (negb (isAbsolute p)) (segments p) [] in
  Bool.eqb (isAbsolute target) (isAbsolute p) &&
  (if forallb (String.eqb "..") targetSegments
   then (leadingUps pSegments <=? List.length targetSegments)%nat
   else isPrefix targetSegments pSegments).

End Path.

(** ** cleanup.ts: LRU eviction and purges *)

Module Cleanup.

Definition DEFAULT_MAX_SIZE : Z := 500 * 1024 * 1024.

(** [manifest.maxSize || DEFAULT_MAX_SIZE] *)
Definition effectiveMaxSize (m : CacheManifest.t) : Z :=
  if CacheManifest.maxSize m =? 0 then DEFAULT_MAX_SIZE else CacheManifest.maxSize m.

(** The literals [0.9] and [0.7] as the doubles they denote,
    [0x1.ccccccccccccdp-1] and [0x1.6666666666666p-1]. *)
Definition CLEANUP_THRESHOLD : Double.t := Double.mk 8106479329266893 (-53).
Definition CLEANUP_TARGET : Double.t := Double.mk 3152519739159347 (-52).

(** [totalSize < maxSize * CLEANUP_THRESHOLD], over the integers. *)
Definition belowThreshold (maxSize totalSize : Z) : bool :=
  10 * totalSize <? 9 * maxSize.

(** [currentSize <= maxSize * CLEANUP_TARGET], the product as a double. *)
Definition reachedTarget (maxSize currentSize : Z) : bool :=
  Double.leInt currentSize (Double.timesInt maxSize CLEANUP_TARGET).

(** [JSON.parse(fs.readFileSync(manifestPath))] behind the [existsSync] test:
    [None] when there is no manifest file; a corrupt one throws. *)
Definition readManifest : Eff (option CacheManifest.t) :=
  fun d =>
    match manifestFile d with
    | None => (Normal None, d)
    | Some (ManifestJson m) => (Normal (Some m), d)
    | Some ManifestGarbage => (Throw SyntaxError, d)
    end.

(** [entries.sort((a, b) => aTime - bTime)]: ascending by last access; the
    sort is stable, so rows with equal times keep their order. *)
Fixpoint insertByAccess (x : ManifestEntry.t) (l : list ManifestEntry.t)
  : list ManifestEntry.t :=
  match l with
  | [] => [x]
  | y :: ys =>
      if ManifestEntry.lastAccessedAt x <=? ManifestEntry.lastAccessedAt y
      then x :: y :: ys
      else y :: insertByAccess x ys
  end.

Definition sortByAccess (l : list ManifestEntry.t) : list ManifestEntry.t :=
  fold_right insertByAccess [] l.

(** The mutable variables of the eviction loop. *)
Record Eviction : Type := {
  ev_entries : JsObject.t ManifestEntry.t;
  ev_files : gmap string EntryFile;
  currentSize : Z;
  ev_removed : Z;
  ev_freed : Z
}.

(** One pass of the loop body: unlink the file, drop the row, account. *)
Definition evictOne (entry : ManifestEntry.t) (s : Eviction) : Eviction :=
  {| ev_entries := JsObject.delete (ManifestEntry.filePath entry) (ev_entries s);
     ev_files := base.delete (ManifestEntry.filePath entry) (ev_files s);
     currentSize := currentSize s - ManifestEntry.size entry;
     ev_removed := ev_removed s + 1;
     ev_freed := ev_freed s + ManifestEntry.size entry |}.

(** [for (const entry of entries) { if (currentSize <= targetSize) break; ... }] *)
Fixpoint evict (maxSize : Z) (sorted : list ManifestEntry.t) (s : Eviction) : Eviction :=
  match sorted with
  | [] => s
  | entry :: rest =>
      if reachedTarget maxSize (currentSize s) then s
      else evict maxSize rest (evictOne entry s)
  end.

Definition noCleanup : CleanupResult :=
  {| entriesRemoved := 0; bytesFreed := 0; newTotalSize := 0 |}.

Definition performCleanupOn (fate : WriteFate) (now : Z) (manifest : CacheManifest.t)
  : Eff CleanupResult :=
  fun d =>
    let maxSize := effectiveMaxSize manifest in
    let entries := sortByAccess (JsObject.values (CacheManifest.entries manifest)) in
    let s := evict maxSize entries
               {| ev_entries := CacheManifest.entries manifest;
                  ev_files := files d;
                  currentSize := CacheManifest.totalSize manifest;
                  ev_removed := 0;
                  ev_freed := 0 |} in
    let manifest' :=
      CacheManifest.withLastCleanup now
        (CacheManifest.withTotalSize (currentSize s)
           (CacheManifest.withEntries (ev_entries s) manifest)) in
    (writeManifestFile fate manifest' ;;;
     ret {| entriesRemoved := ev_removed s;
            bytesFreed := ev_freed s;
            newTotalSize := currentSize s |})%eff
      (withFiles (ev_files s) d).

Definition performCleanup (fate : WriteFate) (cacheDir : string) (now : Z)
    (manifest : option CacheManifest.t) : Eff CleanupResult :=
  match manifest with
  | Some m => performCleanupOn fate now m
  | None =>
      (onDisk <- readManifest ;;
       match onDisk with
       | None => ret noCleanup
       | Some m => performCleanupOn fate now m
       end)%eff
  end.

Definition cleanupIfNeeded (fate : WriteFate) (cacheDir : string) (now : Z)
  : Eff (option CleanupResult) :=
  (onDisk <- readManifest ;;
   match onDisk with
   | None => ret None
   | Some manifest =>
       let maxSize := effectiveMaxSize manifest in
       if belowThreshold maxSize (CacheManifest.totalSize manifest) then ret None
       else (r <- performCleanup fate cacheDir now (Some manifest) ;; ret (Some r))
   end)%eff.

(** The loop shared by [purgeExpired], [clearNamespace] and
    [PluginCache.clear]: over a snapshot of [Object.entries], every selected
    row has its file unlinked, its size added and its row deleted. *)
Record Sweep : Type := {
  sw_entries : JsObject.t ManifestEntry.t;
  sw_files : gmap string EntryFile;
  sw_removed : Z;
  sw_freed : Z
}.

Definition sweepOne (sel : ManifestEntry.t -> bool)
    (s : Sweep) (row : string * ManifestEntry.t) : Sweep :=
  let '(filePath, entry) := row in
  if sel entry then
    {| sw_entries := JsObject.delete filePath (sw_entries s);
       sw_files := base.delete filePath (sw_files s);
       sw_removed := sw_removed s + 1;
       sw_freed := sw_freed s + ManifestEntry.size entry |}
  else s.

Definition sweep (sel : ManifestEntry.t -> bool)
    (entries : JsObject.t ManifestEntry.t) (fs : gmap string EntryFile) : Sweep :=
  fold_left (sweepOne sel) entries
    {| sw_entries := entries; sw_files := fs; sw_removed := 0; sw_freed := 0 |}.

(** [now > swrExpiresAt] with
    [swrExpiresAt = new Date(expiresAt.getTime() + defaultSWR)] *)
Definition fullyExpired (defaultSWR now : Z) (entry : ManifestEntry.t) : bool :=
  JsDate.after now (ManifestEntry.expiresAt entry + defaultSWR).

Definition purgeExpired (fate : WriteFate) (cacheDir : string) (defaultSWR : Z) (now : Z)
  : Eff CleanupResult :=
  (onDisk <- readManifest ;;
   match onDisk with
   | None => ret noCleanup
   | Some manifest =>
       fun d =>
         let s := sweep (fullyExpired defaultSWR now)
                    (CacheManifest.entries manifest) (files d) in
         let total := CacheManifest.totalSize manifest - sw_freed s in
         let manifest' :=
           CacheManifest.withLastCleanup now
             (CacheManifest.withTotalSize total
                (CacheManifest.withEntries (sw_entries s) manifest)) in
         (writeManifestFile fate manifest' ;;;
          ret {| entriesRemoved := sw_removed s;
                 bytesFreed := sw_freed s;
                 newTotalSize := total |})
           (withFiles (sw_files s) d)
   end)%eff.

(** [fs.rmSync(target, { recursive: true, force: true })] on the entry
    files: [target] goes with all that lies inside it. *)
Definition rmDir (target : string) (fs : gmap string EntryFile) : gmap string EntryFile :=
  filter (fun row => Path.contains target (fst row) = false) fs.

(** [manifestPath + ".tmp." + process.pid] *)
Definition tempPath (manifestPath : string) (pid : Z) : string :=
  (manifestPath ++ ".tmp." ++ NilZero.string_of_int (Z.to_int pid))%string.

(** The same on the whole cache root: the manifest and the temporary files
    of [saveManifest] go too when they lie inside [target]. *)
Definition rmSync (cacheDir target : string) (d : Disk) : Disk :=
  let manifestPath := Path.join [cacheDir; "manifest.json"] in
  {| files := rmDir target (files d);
     manifestFile :=
       if Path.contains target manifestPath then None else manifestFile d;
     tempFiles :=
       filter (fun row => Path.contains target (tempPath manifestPath (fst row)) = false)
         (tempFiles d) |}.

Definition clearAll (fate : WriteFate) (cacheDir : string) (now : Z) : Eff CleanupResult :=
  (onDisk <- readManifest ;;
   match onDisk with
   | None => ret noCleanup
   | Some manifest =>
       let rows := JsObject.values (CacheManifest.entries manifest) in
       let newManifest :=
         CacheManifest.mk (CacheManifest.version manifest) 0
           (CacheManifest.maxSize manifest) [] (Some now) in
       (modify (fun d =>
                  withFiles
                    (fold_left (fun fs filePath => base.delete filePath fs)
                       (JsObject.keys (CacheManifest.entries manifest)) (files d)) d) ;;;
        writeManifestFile fate newManifest ;;;
        modify (withFiles ∅) ;;;
        ret {| entriesRemoved := Z.of_nat (length rows);
               bytesFreed := fold_left (fun n e => n + ManifestEntry.size e) rows 0;
               newTotalSize := 0 |})
   end)%eff.

Definition clearNamespace (fate : WriteFate) (cacheDir : string) (namespace : string)
  : Eff CleanupResult :=
  (onDisk <- readManifest ;;
   match onDisk with
   | None => ret noCleanup
   | Some manifest =>
       fun d =>
         let s := sweep (fun e => String.eqb (ManifestEntry.namespace e) namespace)
                    (CacheManifest.entries manifest) (files d) in
         let total := CacheManifest.totalSize manifest - sw_freed s in
         let manifest' :=
           CacheManifest.withTotalSize total
             (CacheManifest.withEntries (sw_entries s) manifest) in
         (writeManifestFile fate manifest' ;;;
          modify (rmSync cacheDir (Path.join [cacheDir; namespace])) ;;;
          ret {| entriesRemoved := sw_removed s;
                 bytesFreed := sw_freed s;
                 newTotalSize := total |})
           (withFiles (sw_files s) d)
   end)%eff.

End Cleanup.

(** ** cache.ts: the per-namespace cache *)

Module PluginCache.

Definition DEFAULT_CACHE_DIR : string := "~/.cache/plugin-cache".
Definition DEFAULT_MAX_SIZE : Z := 500 * 1024 * 1024.
Definition DEFAULT_MAX_ENTRY_SIZE : Z := 10 * 1024 * 1024.
Definition DEFAULT_TTL : Z := 300000.
Definition DEFAULT_STALE_WHILE_REVALIDATE : Z := 86400000.
Definition MANIFEST_VERSION : Z := 1.

(** [o ?? dflt] *)
Definition orElse {A} (o : option A) (dflt : A) : A :=
  match o with
  | Some a => a
  | None => dflt
  end.

(** [options?.etag && { etag }]: an empty string is falsy and is dropped. *)
Definition truthy (o : option string) : option string :=
  match o with
  | Some "" => None
  | other => other
  end.

(** The fields of an instance; [pid] is [process.pid] of the process that
    holds it. *)
Record t : Type := {
  namespace : string;
  cacheDir : string;
  defaultTTL : Z;
  defaultSWR : Z;
  maxEntrySize : Z;
  disabled : bool;
  pid : Z
}.

Definition new (processPid : Z) (config : CacheConfig) : t :=
  {| namespace := cfg_namespace config;
     cacheDir := orElse (truthy (cfg_cacheDir config)) DEFAULT_CACHE_DIR;
     defaultTTL := orElse (cfg_defaultTTL config) DEFAULT_TTL;
     defaultSWR := orElse (cfg_defaultStaleWhileRevalidate config)
                     DEFAULT_STALE_WHILE_REVALIDATE;
     maxEntrySize := orElse (cfg_maxEntrySize config) DEFAULT_MAX_ENTRY_SIZE;
     disabled := orElse (cfg_disabled config) false;
     pid := processPid |}.

Definition withDisabled (b : bool) (c : t) : t :=
  {| namespace := namespace c; cacheDir := cacheDir c; defaultTTL := defaultTTL c;
     defaultSWR := defaultSWR c; maxEntrySize := maxEntrySize c; disabled := b;
     pid := pid c |}.

Definition disable (c : t) : t := withDisabled true c.
Definition enable (c : t) : t := withDisabled false c.
Definition isDisabled (c : t) : bool := disabled c.

Definition freshManifest : CacheManifest.t :=
  CacheManifest.mk MANIFEST_VERSION 0 DEFAULT_MAX_SIZE [] None.

Definition getManifest (d : Disk) : CacheManifest.t :=
  match manifestFile d with
  | None => freshManifest
  | Some (ManifestJson m) => m
  | Some ManifestGarbage => freshManifest
  end.

(** Write to [manifestPath.tmp.<pid>], rename into place; on an error unlink
    the temporary file and rethrow. *)
Definition saveManifest (fate : WriteFate) (c : t) (manifest : CacheManifest.t) : Eff unit :=
  tryCatch
    (writeTempFile fate (pid c) manifest ;;; renameTempFile fate (pid c))%eff
    (fun error => (unlinkTempFile (pid c) ;;; throw error)%eff).

(** The class [[^a-zA-Z0-9_-]] of [getFilePath], negated. *)
Definition isSafeChar (a : ascii) : bool :=
  let n := N_of_ascii a in
  ((97 <=? n) && (n <=? 122) || (65 <=? n) && (n <=? 90) ||
   (48 <=? n) && (n <=? 57) || (n =? 95) || (n =? 45))%N.

Fixpoint sanitize (key : string) : string :=
  match key with
  | EmptyString => EmptyString
  | String a rest => String (if isSafeChar a then a else "_"%char) (sanitize rest)
  end.

Definition getFilePath (c : t) (key : string) : string :=
  (cacheDir c ++ "/" ++ namespace c ++ "/" ++ sanitize key ++ ".json")%string.

Definition miss : CacheResult :=
  {| res_data := None; hit := false; stale := false; needsRevalidation := true;
     res_entry := None |}.

Definition invalidate (fate : WriteFate) (c : t) (key : string) (d : Disk) : bool * Disk :=
  if disabled c then (false, d)
  else
    let filePath := getFilePath c key in
    match files d !! filePath with
    | None => (false, d)
    | Some EntryGarbage => (false, d)
    | Some (EntryJson entry) =>
        let d1 := withFiles (base.delete filePath (files d)) d in
        let manifest := getManifest d1 in
        match JsObject.get filePath (CacheManifest.entries manifest) with
        | Some _ =>
            let manifest' :=
              CacheManifest.withEntries
                (JsObject.delete filePath (CacheManifest.entries manifest))
                (CacheManifest.withTotalSize
                   (CacheManifest.totalSize manifest - CacheEntry.size entry) manifest) in
            match saveManifest fate c manifest' d1 with
            | (Normal _, d2) => (true, d2)
            | (Throw _, d2) => (false, d2)
            end
        | None => (true, d1)
        end
    end.

Definition get (fate : WriteFate) (c : t) (key : string) (options : GetOptions)
    (now : Z) (d : Disk) : CacheResult * Disk :=
  if disabled c then (miss, d)
  else
    let filePath := getFilePath c key in
    match files d !! filePath with
    | None => (miss, d)
    | Some EntryGarbage => (miss, d)
    | Some (EntryJson stored) =>
        let expiresAt := CacheEntry.expiresAt stored in
        let ttl := orElse (get_ttl options) (defaultTTL c) in
        let swr := orElse (get_staleWhileRevalidate options) (defaultSWR c) in
        let entry := CacheEntry.touch now stored in
        let d1 := withFiles (<[filePath := EntryJson entry]> (files d)) d in
        let manifest := getManifest d1 in
        let refreshed :=
          match JsObject.get filePath (CacheManifest.entries manifest) with
          | Some row =>
              saveManifest fate c
                (CacheManifest.withEntries
                   (JsObject.set filePath (ManifestEntry.touch now row)
                      (CacheManifest.entries manifest)) manifest) d1
          | None => (Normal tt, d1)
          end in
        match refreshed with
        | (Throw _, d2) => (miss, d2)
        | (Normal _, d2) =>
            let isExpired := expiresAt <? now in
            let isWithinSWR := JsDate.notAfter now (expiresAt + swr) in
            if isExpired && negb isWithinSWR
            then (miss, snd (invalidate fate c key d2))
            else ({| res_data := Some (CacheEntry.data entry);
                     hit := true;
                     stale := isExpired;
                     needsRevalidation := isExpired;
                     res_entry := Some entry |}, d2)
        end
    end.

(** The row and the manifest [set] builds before saving. *)
Definition newRow (c : t) (key : string) (size now expiresAt : Z) : ManifestEntry.t :=
  ManifestEntry.mk (getFilePath c key) (namespace c) key size now expiresAt.

Definition recordEntry (c : t) (key : string) (size now expiresAt : Z)
    (manifest : CacheManifest.t) : CacheManifest.t :=
  let filePath := getFilePath c key in
  let oldSize :=
    match JsObject.get filePath (CacheManifest.entries manifest) with
    | Some oldEntry => ManifestEntry.size oldEntry
    | None => 0
    end in
  CacheManifest.withTotalSize (CacheManifest.totalSize manifest - oldSize + size)
    (CacheManifest.withEntries
       (JsObject.set filePath (newRow c key size now expiresAt)
          (CacheManifest.entries manifest)) manifest).

Definition set (fate : WriteFate) (c : t) (key : string) (data : string)
    (options : SetOptions) (now : Z) : Eff unit :=
  if disabled c then ret tt
  else
    let size := Z.of_nat (String.length data) in
    if maxEntrySize c <? size then ret tt
    else
      let ttl := orElse (set_ttl options) (defaultTTL c) in
      let expiresAt := now + ttl in
      (* [expiresAt.toISOString()] in the entry literal *)
      if negb (JsDate.isValid expiresAt) then throw RangeError
      else
      let entry :=
        CacheEntry.mk data now now expiresAt (truthy (set_etag options))
          (truthy (set_lastModified options)) (truthy (set_version options)) size in
      let filePath := getFilePath c key in
      (fun d =>
         (saveManifest fate c (recordEntry c key size now expiresAt (getManifest d)) ;;;
          modify (fun d' => withFiles (<[filePath := EntryJson entry]> (files d')) d') ;;;
          _ <- Cleanup.cleanupIfNeeded fate (cacheDir c) now ;;
          ret tt)%eff d).

(** The caller's producer, by what one call of it does. *)
Inductive Producer : Type :=
| Resolves (data : string)
| Rejects (error : Exn).

(** What [getOrFetch] hands back, with the number of producer calls made. *)
Record Fetched : Type := {
  outcome : Completion string;
  producerCalls : nat
}.

(** [const data = await fetcher(); await this.set(key, data, options); return data] *)
Definition fetchAndStore (fate : WriteFate) (c : t) (key : string) (fetcher : Producer)
    (options : GetOrFetchOptions) (store : bool) (now : Z) (d : Disk) : Fetched * Disk :=
  match fetcher with
  | Rejects error => ({| outcome := Throw error; producerCalls := 1 |}, d)
  | Resolves data =>
      if store then
        match set fate c key data (setOptions options) now d with
        | (Normal _, d') => ({| outcome := Normal data; producerCalls := 1 |}, d')
        | (Throw e, d') => ({| outcome := Throw e; producerCalls := 1 |}, d')
        end
      else ({| outcome := Normal data; producerCalls := 1 |}, d)
  end.

(** [now] is the clock at the lookup, [later] the clock once the producer has
    settled. *)
Definition getOrFetch (fate : WriteFate) (c : t) (key : string) (fetcher : Producer)
    (options : GetOrFetchOptions) (now later : Z) (d : Disk) : Fetched * Disk :=
  if disabled c || orElse (bypassCache options) false then
    fetchAndStore fate c key fetcher options (negb (disabled c)) later d
  else
    let '(cached, d1) :=
      get fate c key
        {| get_ttl := set_ttl (setOptions options);
           get_staleWhileRevalidate := staleWhileRevalidate options |} now d in
    if hit cached && negb (stale cached) then
      ({| outcome := Normal (orElse (res_data cached) ""%string); producerCalls := 0 |}, d1)
    else if hit cached && stale cached then
      fetchAndStore fate c key fetcher options true later d1
    else
      fetchAndStore fate c key fetcher options true later d1.

Definition invalidatePattern (fate : WriteFate) (c : t) (test : string -> bool)
    (d : Disk) : Z * Disk :=
  if disabled c then (0, d)
  else
    fold_left
      (fun (acc : Z * Disk) (row : string * ManifestEntry.t) =>
         let '(count, d') := acc in
         let entry := snd row in
         if String.eqb (ManifestEntry.namespace entry) (namespace c)
            && test (ManifestEntry.key entry)
         then
           match invalidate fate c (ManifestEntry.key entry) d' with
           | (true, d'') => (count + 1, d'')
           | (false, d'') => (count, d'')
           end
         else acc)
      (CacheManifest.entries (getManifest d)) (0, d).

Definition clear (fate : WriteFate) (c : t) : Eff Z :=
  if disabled c then ret 0
  else
    fun d =>
      let manifest := getManifest d in
      let s := Cleanup.sweep
                 (fun e => String.eqb (ManifestEntry.namespace e) (namespace c))
                 (CacheManifest.entries manifest) (files d) in
      let manifest' :=
        CacheManifest.withTotalSize
          (CacheManifest.totalSize manifest - Cleanup.sw_freed s)
          (CacheManifest.withEntries (Cleanup.sw_entries s) manifest) in
      (saveManifest fate c manifest' ;;; ret (Cleanup.sw_removed s))%eff
        (withFiles (Cleanup.sw_files s) d).

Definition has (c : t) (key : string) (d : Disk) : bool :=
  if disabled c then false
  else match files d !! getFilePath c key with Some _ => true | None => false end.

Definition getValidator (c : t) (key : string) (d : Disk) : option CacheValidator :=
  if disabled c then None
  else
    match files d !! getFilePath c key with
    | None => None
    | Some EntryGarbage => None
    | Some (EntryJson entry) =>
        match truthy (CacheEntry.etag entry), truthy (CacheEntry.lastModified entry) with
        | None, None => None
        | etag, lastModified =>
            Some {| val_etag := etag; val_lastModified := lastModified |}
        end
    end.

Definition noStats (c : t) : CacheStats :=
  {| stats_namespace := namespace c; entryCount := 0; stats_totalSize := 0;
     oldestEntry := None; newestEntry := None; expiredCount := 0; staleCount := 0 |}.

(** One pass of the loop of [getStats].  The ISO strings of the rows are
    compared as the times they denote. *)
Definition statsStep (c : t) (now : Z) (s : CacheStats) (entry : ManifestEntry.t)
  : CacheStats :=
  if negb (String.eqb (ManifestEntry.namespace entry) (namespace c)) then s
  else
    let expiresAt := ManifestEntry.expiresAt entry in
    let swrExpiresAt := expiresAt + defaultSWR c in
    let accessed := ManifestEntry.lastAccessedAt entry in
    {| stats_namespace := stats_namespace s;
       entryCount := entryCount s + 1;
       stats_totalSize := stats_totalSize s + ManifestEntry.size entry;
       oldestEntry :=
         match oldestEntry s with
         | None => Some accessed
         | Some oldest => if accessed <? oldest then Some accessed else Some oldest
         end;
       newestEntry :=
         match newestEntry s with
         | None => Some accessed
         | Some newest => if newest <? accessed then Some accessed else Some newest
         end;
       expiredCount :=
         if JsDate.after now swrExpiresAt then expiredCount s + 1 else expiredCount s;
       staleCount :=
         if JsDate.after now swrExpiresAt then staleCount s
         else if expiresAt <? now then staleCount s + 1 else staleCount s |}.

Definition getStats (c : t) (now : Z) (d : Disk) : CacheStats :=
  if disabled c then noStats c
  else
    fold_left (statsStep c now)
      (JsObject.values (CacheManifest.entries (getManifest d))) (noStats c).

Definition keys (c : t) (d : Disk) : list string :=
  if disabled c then []
  else
    List.map ManifestEntry.key
      (List.filter (fun e => String.eqb (ManifestEntry.namespace e) (namespace c))
         (JsObject.values (CacheManifest.entries (getManifest d)))).

End PluginCache.

(** ** validation.ts: conditional requests and cache keys *)

Module Validation.

(** [a || b] on strings that may be missing. *)
Definition orJs (a b : option string) : option string :=
  match PluginCache.truthy a with
  | Some x => Some x
  | None => b
  end.

Definition buildConditionalHeaders (validator : option CacheValidator)
  : JsObject.t string :=
  match validator with
  | None => []
  | Some v =>
      let headers := [] in
      let headers :=
        match PluginCache.truthy (val_etag v) with
        | Some etag => JsObject.set "If-None-Match" etag headers
        | None => headers
        end in
      match PluginCache.truthy (val_lastModified v) with
      | Some lastModified => JsObject.set "If-Modified-Since" lastModified headers
      | None => headers
      end
  end.

(** The three containers [extractValidator] accepts; a [Headers] object and
    a [Map] are used through their [get] method only. *)
Inductive HeaderBag : Type :=
| FetchHeaders (get : string -> option string)
| MapHeaders (get : string -> option string)
| PlainHeaders (o : JsObject.t string).

Definition extractValidator (headers : HeaderBag) : CacheValidator :=
  let '(etag, lastModified) :=
    match headers with
    | FetchHeaders get =>
        (orJs (get "etag") (get "ETag"),
         orJs (get "last-modified") (get "Last-Modified"))
    | MapHeaders get =>
        (orJs (orJs (get "etag") (get "ETag")) None,
         orJs (orJs (get "last-modified") (get "Last-Modified")) None)
    | PlainHeaders o =>
        (orJs (orJs (JsObject.get "etag" o) (JsObject.get "ETag" o)) None,
         orJs (orJs (JsObject.get "last-modified" o) (JsObject.get "Last-Modified" o)) None)
    end in
  {| val_etag := PluginCache.truthy etag;
     val_lastModified := PluginCache.truthy lastModified |}.

Definition isNotModified (status : Z) : bool := status =? 304.

Record Response : Type := {
  status : Z;
  resp_data : string;
  resp_headers : HeaderBag
}.

Record ConditionalResult : Type := {
  cr_data : string;
  notModified : bool;
  newValidator : CacheValidator
}.

(** The caller's fetcher, by what it does with the headers it is handed. *)
Definition conditionalFetch (url : string) (validator : option CacheValidator)
    (fetcher : JsObject.t string -> Completion Response)
    (cachedData : option string) : Completion ConditionalResult :=
  let conditionalHeaders := buildConditionalHeaders validator in
  match fetcher conditionalHeaders with
  | Throw e => Throw e
  | Normal response =>
      match isNotModified (status response), cachedData with
      | true, Some cached =>
          Normal {| cr_data := cached;
                    notModified := true;
                    newValidator :=
                      match validator with
                      | Some v => v
                      | None => {| val_etag := None; val_lastModified := None |}
                      end |}
      | _, _ =>
          Normal {| cr_data := resp_data response;
                    notModified := false;
                    newValidator := extractValidator (resp_headers response) |}
      end
  end.

(** [parts.join(sep)] *)
Fixpoint join (sep : string) (parts : list string) : string :=
  match parts with
  | [] => ""
  | [part] => part
  | part :: rest => (part ++ sep ++ join sep rest)%string
  end.

(** [s.split(sep)] for a separator of one character. *)
Fixpoint split (sep : ascii) (s : string) : list string :=
  match s with
  | EmptyString => [""]
  | String a rest =>
      if Ascii.eqb a sep then "" :: split sep rest
      else
        match split sep rest with
        | head :: tail => String a head :: tail
        | [] => [String a ""]
        end
  end.

Section CacheKeys.

(** [a.localeCompare(b)], which depends on the host's collation. *)
Variable localeCompare : string -> string -> Z.

(** The stable sort of the entries by [localeCompare] on their names. *)
Fixpoint insertByName (x : string * string) (l : list (string * string))
  : list (string * string) :=
  match l with
  | [] => [x]
  | y :: ys =>
      if localeCompare (fst x) (fst y) <=? 0 then x :: y :: ys
      else y :: insertByName x ys
  end.

Definition sortByName (l : list (string * string)) : list (string * string) :=
  fold_right insertByName [] l.

(** [Object.entries(params).filter(([_, v]) => v !== undefined)]; [params]
    lists the properties in the order [Object.entries] gives them, a value is
    given by its string conversion, [None] standing for [undefined]. *)
Fixpoint definedParams (params : JsObject.t (option string)) : list (string * string) :=
  match params with
  | [] => []
  | (k, Some v) :: rest => (k, v) :: definedParams rest
  | (k, None) :: rest => definedParams rest
  end.

Definition createCacheKey (baseKey : string)
    (params : option (JsObject.t (option string))) : string :=
  match params with
  | None => baseKey
  | Some [] => baseKey
  | Some ps =>
      let sortedParams :=
        join "&"
          (List.map (fun kv => (fst kv ++ "=" ++ snd kv)%string)
             (sortByName (definedParams ps))) in
      match sortedParams with
      | EmptyString => baseKey
      | _ => (baseKey ++ "?" ++ sortedParams)%string
      end
  end.

End CacheKeys.

Record ParsedKey : Type := {
  base : string;
  params : JsObject.t string
}.

(** [params[k] = v] on a plain object: the name [__proto__] reaches the
    prototype setter, which ignores a string. *)
Definition assignParam (k v : string) (o : JsObject.t string) : JsObject.t string :=
  if String.eqb k "__proto__" then o else JsObject.set k v o.

Definition parsePair (o : JsObject.t string) (pair : string) : JsObject.t string :=
  match split "="%char pair with
  | k :: v :: _ =>
      match k with
      | EmptyString => o
      | _ => assignParam k v o
      end
  | _ => o
  end.

Definition parseCacheKey (key : string) : ParsedKey :=
  match split "?"%char key with
  | [] => {| base := ""; params := [] |}
  | [b] => {| base := b; params := [] |}
  | b :: queryString :: _ =>
      {| base := b;
         params :=
           match queryString with
           | EmptyString => []
           | _ => fold_left parsePair (split "&"%char queryString) []
           end |}
  end.

End Validation.

(** ** Notions used by the statements *)

(** Sum of [size] over the rows of [manifest.entries]. *)
Definition sumSizes (o : JsObject.t ManifestEntry.t) : Z :=
  fold_right (fun row acc => ManifestEntry.size (snd row) + acc) 0 o.

Definition sizeOfRows (rows : list ManifestEntry.t) : Z :=
  fold_right (fun row acc => ManifestEntry.size row + acc) 0 rows.

(** The size accounting property of a manifest. *)
Definition accounted (m : CacheManifest.t) : Prop :=
  CacheManifest.totalSize m = sumSizes (CacheManifest.entries m).

(** A manifest as the code writes it: paths are unique and every row carries
    the path it is filed under. *)
Definition wellKeyed (o : JsObject.t ManifestEntry.t) : Prop :=
  List.NoDup (JsObject.keys o) /\
  forall p row, In (p, row) o -> ManifestEntry.filePath row = p.

(** Every row agrees on the size with the entry file at its path. *)
Definition rowsMatchFiles (fs : gmap string EntryFile)
    (o : JsObject.t ManifestEntry.t) : Prop :=
  forall p row e,
    In (p, row) o -> fs !! p = Some (EntryJson e) ->
    CacheEntry.size e = ManifestEntry.size row.

(** The invariant of the disk behind the size accounting. *)
Definition consistent (d : Disk) : Prop :=
  match manifestFile d with
  | None => True
  | Some ManifestGarbage => False
  | Some (ManifestJson m) =>
      wellKeyed (CacheManifest.entries m) /\ accounted m /\
      rowsMatchFiles (files d) (CacheManifest.entries m)
  end.


(** What the loop relies on at each entry of its body. *)
Definition loopReady (todo : list ManifestEntry.t) (s : Cleanup.Eviction) : Prop :=
  wellKeyed (Cleanup.ev_entries s) /\
  List.NoDup (List.map ManifestEntry.filePath todo) /\
  (forall row, In row todo -> In (ManifestEntry.filePath row, row) (Cleanup.ev_entries s)).

(** The entry file [set] writes. *)
Definition newEntry (c : PluginCache.t) (data : string) (options : SetOptions)
    (now : Z) : CacheEntry.t :=
  CacheEntry.mk data now now (now + PluginCache.orElse (set_ttl options) (PluginCache.defaultTTL c))
    (PluginCache.truthy (set_etag options)) (PluginCache.truthy (set_lastModified options))
    (PluginCache.truthy (set_version options)) (Z.of_nat (String.length data)).

(** The disk between the two writes of an accepted [set] and its cleanup
    check, when the manifest write completes. *)
Definition written (c : PluginCache.t) (key data : string) (options : SetOptions)
    (now : Z) (d : Disk) : Disk :=
  {| files := <[PluginCache.getFilePath c key := EntryJson (newEntry c data options now)]> (files d);
     manifestFile :=
       Some (ManifestJson
               (PluginCache.recordEntry c key (Z.of_nat (String.length data)) now
                  (now + PluginCache.orElse (set_ttl options) (PluginCache.defaultTTL c))
                  (PluginCache.getManifest d)));
     tempFiles :=
       base.delete (PluginCache.pid c)
         (<[PluginCache.pid c :=
              ManifestJson
                (PluginCache.recordEntry c key (Z.of_nat (String.length data)) now
                   (now + PluginCache.orElse (set_ttl options) (PluginCache.defaultTTL c))
                   (PluginCache.getManifest d))]> (tempFiles d)) |}.

(** What the purge loop relies on at each entry of its body. *)
Definition sweepReady (todo : JsObject.t ManifestEntry.t) (s : Cleanup.Sweep) : Prop :=
  wellKeyed (Cleanup.sw_entries s) /\
  List.NoDup (JsObject.keys todo) /\
  (forall p row, In (p, row) todo -> In (p, row) (Cleanup.sw_entries s)).

(** The disk after the two writes by which [get] refreshes the access time
    of a stored entry, when the manifest write completes. *)
Definition refreshed (c : PluginCache.t) (key : string) (now : Z)
    (stored : CacheEntry.t) (d : Disk) : Disk :=
  let filePath := PluginCache.getFilePath c key in
  let d1 := withFiles (<[filePath := EntryJson (CacheEntry.touch now stored)]> (files d)) d in
  match JsObject.get filePath (CacheManifest.entries (PluginCache.getManifest d)) with
  | Some row =>
      snd (PluginCache.saveManifest Completes c
             (CacheManifest.withEntries
                (JsObject.set filePath (ManifestEntry.touch now row)
                   (CacheManifest.entries (PluginCache.getManifest d)))
                (PluginCache.getManifest d)) d1)
  | None => d1
  end.

(** The result [get] reports for a stored entry that is not fully expired. *)
Definition hitResult (now : Z) (stored : CacheEntry.t) : CacheResult :=
  {| res_data := Some (CacheEntry.data stored);
     hit := true;
     stale := CacheEntry.expiresAt stored <? now;
     needsRevalidation := CacheEntry.expiresAt stored <? now;
     res_entry := Some (CacheEntry.touch now stored) |}.

(** Evicting a list of rows outright: the loop body without its test. *)
Definition evictAll (rows : list ManifestEntry.t) (s : Cleanup.Eviction) : Cleanup.Eviction :=
  fold_left (fun s' row => Cleanup.evictOne row s') rows s.

Definition dropRows (rows : list ManifestEntry.t) (o : JsObject.t ManifestEntry.t)
  : JsObject.t ManifestEntry.t :=
  fold_left (fun o' row => JsObject.delete (ManifestEntry.filePath row) o') rows o.

Definition unlinkRows (rows : list ManifestEntry.t) (fs : gmap string EntryFile)
  : gmap string EntryFile :=
  fold_left (fun fs' row => base.delete (ManifestEntry.filePath row) fs') rows fs.


(** The operations of one process, all of whose manifest writes complete. *)
Inductive Op : Type :=
| OpSet (c : PluginCache.t) (key data : string) (options : SetOptions) (now : Z)
| OpGet (c : PluginCache.t) (key : string) (options : GetOptions) (now : Z)
| OpGetOrFetch (c : PluginCache.t) (key : string) (fetcher : PluginCache.Producer)
    (options : GetOrFetchOptions) (now later : Z)
| OpInvalidate (c : PluginCache.t) (key : string)
| OpInvalidatePattern (c : PluginCache.t) (test : string -> bool)
| OpClear (c : PluginCache.t)
| OpCleanupIfNeeded (cacheDir : string) (now : Z)
| OpPerformCleanup (cacheDir : string) (now : Z)
| OpPurgeExpired (cacheDir : string) (defaultSWR now : Z)
| OpClearNamespace (cacheDir namespace : string)
| OpClearAll (cacheDir : string) (now : Z).

Definition step (d : Disk) (op : Op) : Disk :=
  match op with
  | OpSet c key data options now => snd (PluginCache.set Completes c key data options now d)
  | OpGet c key options now => snd (PluginCache.get Completes c key options now d)
  | OpGetOrFetch c key fetcher options now later =>
      snd (PluginCache.getOrFetch Completes c key fetcher options now later d)
  | OpInvalidate c key => snd (PluginCache.invalidate Completes c key d)
  | OpInvalidatePattern c test => snd (PluginCache.invalidatePattern Completes c test d)
  | OpClear c => snd (PluginCache.clear Completes c d)
  | OpCleanupIfNeeded dir now => snd (Cleanup.cleanupIfNeeded Completes dir now d)
  | OpPerformCleanup dir now => snd (Cleanup.performCleanup Completes dir now None d)
  | OpPurgeExpired dir swr now => snd (Cleanup.purgeExpired Completes dir swr now d)
  | OpClearNamespace dir ns => snd (Cleanup.clearNamespace Completes dir ns d)
  | OpClearAll dir now => snd (Cleanup.clearAll Completes dir now d)
  end.

Definition run (ops : list Op) (d : Disk) : Disk := fold_left step ops d.

(** A small scenario: a budget of 20 bytes, two namespaces, values of six
    bytes written at times 1000 and 2000. *)
Definition shopCache : PluginCache.t :=
  PluginCache.new 7 {| cfg_namespace := "shop"; cfg_defaultTTL := None;
                       cfg_defaultStaleWhileRevalidate := None;
                       cfg_maxEntrySize := None; cfg_cacheDir := Some "/c";
                       cfg_disabled := None |}.

Definition crmCache : PluginCache.t :=
  PluginCache.new 7 {| cfg_namespace := "crm"; cfg_defaultTTL := None;
                       cfg_defaultStaleWhileRevalidate := None;
                       cfg_maxEntrySize := None; cfg_cacheDir := Some "/c";
                       cfg_disabled := None |}.

Definition plainSet : SetOptions :=
  {| set_ttl := None; set_etag := None; set_lastModified := None; set_version := None |}.

Definition plainGet : GetOptions :=
  {| get_ttl := None; get_staleWhileRevalidate := None |}.

Definition smallBudgetDisk : Disk :=
  withManifestFile (Some (ManifestJson (CacheManifest.mk 1 0 20 [] None))) emptyDisk.

Definition twoEntriesDisk : Disk :=
  run [OpSet shopCache "a" "[1234]" plainSet 1000;
       OpSet crmCache "b" "[1234]" plainSet 2000] smallBudgetDisk.

(** A budget of 1000 bytes and nine values of 100 bytes each, written at
    times 1 to 9 under the keys "1" to "9", alternating between the two
    namespaces. *)
Fixpoint ones (n : nat) : string :=
  match n with
  | O => EmptyString
  | S k => String "1"%char (ones k)
  end.

Definition nineSets : list Op :=
  List.map
    (fun i => OpSet (if Nat.even i then shopCache else crmCache)
                (String (ascii_of_nat (48 + i)) EmptyString) (ones 100) plainSet
                (Z.of_nat i))
    (seq 1 9).

Definition budget1000Disk : Disk :=
  withManifestFile (Some (ManifestJson (CacheManifest.mk 1 0 1000 [] None))) emptyDisk.

(** ** Notions for the purge loops *)

Definition inNamespace (ns : string) (e : ManifestEntry.t) : bool :=
  String.eqb (ManifestEntry.namespace e) ns.

(** The rows a purge selects, the rows it leaves, and the paths it unlinks. *)
Definition selectedRows (sel : ManifestEntry.t -> bool)
    (o : JsObject.t ManifestEntry.t) : JsObject.t ManifestEntry.t :=
  List.filter (fun row => sel (snd row)) o.

Definition keptRows (sel : ManifestEntry.t -> bool)
    (o : JsObject.t ManifestEntry.t) : JsObject.t ManifestEntry.t :=
  List.filter (fun row => negb (sel (snd row))) o.

Definition unlinkPaths (paths : list string) (fs : gmap string EntryFile)
  : gmap string EntryFile :=
  fold_left (fun fs' p => base.delete p fs') paths fs.

(** The rows of an instance's namespace, in manifest order. *)
Definition ownRows (c : PluginCache.t) (d : Disk) : list ManifestEntry.t :=
  List.filter (inNamespace (PluginCache.namespace c))
    (JsObject.values (CacheManifest.entries (PluginCache.getManifest d))).

(** Past its expiry time but not past its window. *)
Definition staleOnly (swr now : Z) (entry : ManifestEntry.t) : bool :=
  negb (Cleanup.fullyExpired swr now entry) && (ManifestEntry.expiresAt entry <? now).

(** [oldest] and [newest] are the least and the greatest last access among
    [rows]; both are missing exactly when there are no rows. *)
Definition accessBounds (oldest newest : option Z) (rows : list ManifestEntry.t) : Prop :=
  match oldest, newest with
  | Some o, Some n =>
      (forall row, In row rows ->
         o <= ManifestEntry.lastAccessedAt row <= n) /\
      (exists row, In row rows /\ ManifestEntry.lastAccessedAt row = o) /\
      (exists row, In row rows /\ ManifestEntry.lastAccessedAt row = n)
  | None, None => rows = []
  | _, _ => False
  end.

(** [s.includes(a)] for one character. *)
Fixpoint occurs (a : ascii) (s : string) : bool :=
  match s with
  | EmptyString => false
  | String b rest => Ascii.eqb b a || occurs a rest
  end.

(** Text without any of the separators of a cache key. *)
Definition plainText (s : string) : bool :=
  negb (occurs "?" s || occurs "&" s || occurs "=" s).

(** The parameter [k] of [params] when it is there and not [undefined]. *)
Definition definedAs (params : JsObject.t (option string)) (k : string) : option string :=
  match JsObject.get k params with
  | Some (Some v) => Some v
  | _ => None
  end.


(** [localeCompare] orders the names: any two compare one way or the other,
    comparisons chain, and only a name itself compares both ways with it. *)
Definition ordersNames (localeCompare : string -> string -> Z) (names : list string) : Prop :=
  (forall a b, In a names -> In b names ->
     localeCompare a b <= 0 \/ localeCompare b a <= 0) /\
  (forall a b c, In a names -> In b names -> In c names ->
     localeCompare a b <= 0 -> localeCompare b c <= 0 -> localeCompare a c <= 0) /\
  (forall a b, In a names -> In b names ->
     localeCompare a b <= 0 -> localeCompare b a <= 0 -> a = b).

(** The order of the entries by name. *)
Definition nameBefore (localeCompare : string -> string -> Z) (x y : string * string) : Prop :=
  localeCompare (fst x) (fst y) <= 0.


(** The rows [invalidatePattern] picks: those of the instance's namespace
    whose key passes the test. *)
Definition matching (c : PluginCache.t) (test : string -> bool) (row : ManifestEntry.t) : bool :=
  inNamespace (PluginCache.namespace c) row && test (ManifestEntry.key row).

(** Every picked row is filed under the path of its key and has a readable
    entry file there. *)
Definition matchesOnFile (c : PluginCache.t) (test : string -> bool) (d : Disk) : Prop :=
  forall p row,
    In (p, row) (CacheManifest.entries (PluginCache.getManifest d)) ->
    matching c test row = true ->
    p = PluginCache.getFilePath c (ManifestEntry.key row) /\
    exists e, files d !! p = Some (EntryJson e).


Arguments Cleanup.performCleanupOn : simpl never.
Arguments Cleanup.cleanupIfNeeded : simpl never.
Arguments PluginCache.saveManifest : simpl never.
Arguments PluginCache.invalidate : simpl never.
Arguments PluginCache.get : simpl never.
Arguments PluginCache.set : simpl never.

(** ** Products in binary64 *)

(** The rounded mantissa, scaled back, is within half a unit in the last
    place of the number rounded. *)
Lemma roundPos_spec n e :
  0 < n ->
  exists s T,
    0 <= s /\ T = 2 ^ s /\
    Double.expo (Double.roundPos n e) = e + s /\
    2 * (Double.mant (Double.roundPos n e) * T) <= 2 * n + T /\
    2 * n - T <= 2 * (Double.mant (Double.roundPos n e) * T) /\
    (s = 0 /\ Double.mant (Double.roundPos n e) = n \/ T * 2 ^ 52 <= n).
Proof.
  intros Hn. unfold Double.roundPos, Double.precision.
  set (excess := Z.log2 n + 1 - 53).
  destruct (Z.leb_spec excess 0) as [Hle|Hgt].
  - exists 0, 1. cbn [Double.mant Double.expo]. rewrite Z.add_0_r.
    repeat split; try lia.
  - exists excess, (2 ^ excess). cbn [Double.mant Double.expo].
    assert (HT : 0 < 2 ^ excess) by (apply Z.pow_pos_nonneg; lia).
    pose proof (Z.div_mod n (2 ^ excess) ltac:(lia)) as Hdm.
    pose proof (Z.mod_pos_bound n (2 ^ excess) HT) as Hr.
    assert (Hhalf : 2 ^ excess = 2 * 2 ^ (excess - 1)).
    { replace excess with (1 + (excess - 1)) at 1 by lia.
      rewrite Z.pow_add_r by lia. reflexivity. }
    assert (Hbig : 2 ^ excess * 2 ^ 52 <= n).
    { rewrite <- Z.pow_add_r by lia. replace (excess + 52) with (Z.log2 n) by (unfold excess; lia).
      apply Z.log2_spec. exact Hn. }
    set (q := n / 2 ^ excess) in *. set (r := n mod 2 ^ excess) in *.
    set (half := 2 ^ (excess - 1)) in *.
    split; [lia|]. split; [reflexivity|]. split; [reflexivity|].
    destruct (Z.ltb_spec half r) as [Hup|Hdown]; cbn [orb];
      [|destruct (Z.eqb_spec r half) as [Heq|Hne]; cbn [andb]; [destruct (Z.odd q)|]].
    all: split; [nia|]. all: split; [nia|]. all: right; exact Hbig.
Qed.

Lemma leInt_scaled c q k a b :
  0 <= a -> 0 <= b -> k = b - a ->
  Double.leInt c (Double.mk q k) = true <-> c * 2 ^ a <= q * 2 ^ b.
Proof.
  intros Ha Hb ->. unfold Double.leInt. cbn [Double.mant Double.expo].
  rewrite Z.leb_le.
  destruct (Z.le_gt_cases a b) as [Hab|Hab].
  - rewrite (Z.max_l 0 (- (b - a))) by lia. rewrite (Z.max_r 0 (b - a)) by lia.
    rewrite Z.pow_0_r, Z.mul_1_r.
    replace b with ((b - a) + a) at 2 by lia. rewrite Z.pow_add_r by lia.
    assert (0 < 2 ^ a) by (apply Z.pow_pos_nonneg; lia).
    rewrite Z.mul_assoc. split; intros H'; nia.
  - rewrite (Z.max_r 0 (- (b - a))) by lia. rewrite (Z.max_l 0 (b - a)) by lia.
    rewrite Z.pow_0_r, Z.mul_1_r.
    replace a with ((- (b - a)) + b) at 2 by lia. rewrite Z.pow_add_r by lia.
    assert (0 < 2 ^ b) by (apply Z.pow_pos_nonneg; lia).
    rewrite Z.mul_assoc. split; intros H'; nia.
Qed.

Lemma reachedTarget_spec M c :
  0 < M ->
  exists V T,
    (Cleanup.reachedTarget M c = true <-> c * 2 ^ 52 <= V) /\
    2 * V <= 2 * (M * 3152519739159347) + T /\
    2 * (M * 3152519739159347) - T <= 2 * V /\
    (T = 1 /\ V = M * 3152519739159347 \/ (0 < T /\ T * 2 ^ 52 <= M * 3152519739159347)).
Proof.
  intros HM. unfold Cleanup.reachedTarget, Cleanup.CLEANUP_TARGET, Double.timesInt, Double.round.
  cbn [Double.mant Double.expo].
  destruct (Z.ltb_spec (M * 3152519739159347) 0) as [Hneg|_]; [lia|].
  destruct (roundPos_spec (M * 3152519739159347) (-52) ltac:(lia))
    as (s & T & Hs & HT & Hexpo & Hup & Hdown & Hcase).
  destruct (Double.roundPos (M * 3152519739159347) (-52)) as [q k].
  cbn [Double.mant Double.expo] in *.
  exists (q * T), T. split; [|split; [exact Hup|split; [exact Hdown|]]].
  - subst T. apply leInt_scaled; lia.
  - destruct Hcase as [[-> ->]|Hbig].
    + left. subst T. split; [reflexivity|]. rewrite Z.pow_0_r. lia.
    + right. split; [|exact Hbig]. subst T. apply Z.pow_pos_nonneg; lia.
Qed.

Lemma reachedTarget_below_trigger M c :
  0 < M -> Cleanup.reachedTarget M c = true -> 10 * c < 9 * M.
Proof.
  intros HM Hr. destruct (reachedTarget_spec M c HM) as (V & T & Hiff & Hup & _ & Hcase).
  apply Hiff in Hr. change (2 ^ 52) with 4503599627370496 in *.
  destruct Hcase as [[-> ->]|[HT Hbig]]; lia.
Qed.




Lemma roundPos_cases n e :
  0 < n ->
  exists s T,
    0 <= s /\ T = 2 ^ s /\
    Double.expo (Double.roundPos n e) = e + s /\
    (Double.mant (Double.roundPos n e) * T = n - n mod T /\ 2 * (n mod T) <= T \/
     Double.mant (Double.roundPos n e) * T = n - n mod T + T /\ T <= 2 * (n mod T)) /\
    n < T * 2 ^ 53 /\ (T = 1 \/ T * 2 ^ 52 <= n).
Proof.
  intros Hn. unfold Double.roundPos, Double.precision.
  set (excess := Z.log2 n + 1 - 53).
  pose proof (Z.log2_spec n Hn) as [_ Hlog].
  destruct (Z.leb_spec excess 0) as [Hle|Hgt].
  - exists 0, 1. cbn [Double.mant Double.expo]. rewrite Z.add_0_r, Z.mod_1_r.
    split; [lia|]. split; [reflexivity|]. split; [reflexivity|]. split; [left; lia|].
    split; [|now left].
    rewrite Z.mul_1_l. eapply Z.lt_le_trans; [exact Hlog|].
    apply Z.pow_le_mono_r; unfold excess in Hle; lia.
  - exists excess, (2 ^ excess). cbn [Double.mant Double.expo].
    assert (HT : 0 < 2 ^ excess) by (apply Z.pow_pos_nonneg; lia).
    pose proof (Z.div_mod n (2 ^ excess) ltac:(lia)) as Hdm.
    pose proof (Z.mod_pos_bound n (2 ^ excess) HT) as Hr.
    assert (Hhalf : 2 ^ excess = 2 * 2 ^ (excess - 1)).
    { replace excess with (1 + (excess - 1)) at 1 by lia.
      rewrite Z.pow_add_r by lia. reflexivity. }
    assert (Hsmall : n < 2 ^ excess * 2 ^ 53).
    { rewrite <- Z.pow_add_r by lia.
      replace (excess + 53) with (Z.succ (Z.log2 n)) by (unfold excess; lia). exact Hlog. }
    assert (Hbig : 2 ^ excess * 2 ^ 52 <= n).
    { rewrite <- Z.pow_add_r by lia.
      replace (excess + 52) with (Z.log2 n) by (unfold excess; lia).
      apply Z.log2_spec. exact Hn. }
    set (q := n / 2 ^ excess) in *. set (r := n mod 2 ^ excess) in *.
    set (half := 2 ^ (excess - 1)) in *.
    split; [lia|]. split; [reflexivity|]. split; [reflexivity|].
    split; [|split; [exact Hsmall|right; exact Hbig]].
    destruct (Z.ltb_spec half r) as [Hup|Hdown]; cbn [orb];
      [right; nia|].
    destruct (Z.eqb_spec r half) as [Heq|Hne]; cbn [andb]; [destruct (Z.odd q)|].
    + right. nia.
    + left. nia.
    + left. nia.
Qed.

Lemma ltInt_scaled c q k a b :
  0 <= a -> 0 <= b -> k = b - a ->
  Double.ltInt c (Double.mk q k) = true <-> c * 2 ^ a < q * 2 ^ b.
Proof.
  intros Ha Hb ->. unfold Double.ltInt. cbn [Double.mant Double.expo].
  rewrite Z.ltb_lt.
  destruct (Z.le_gt_cases a b) as [Hab|Hab].
  - rewrite (Z.max_l 0 (- (b - a))) by lia. rewrite (Z.max_r 0 (b - a)) by lia.
    rewrite Z.pow_0_r, Z.mul_1_r.
    replace b with ((b - a) + a) at 2 by lia. rewrite Z.pow_add_r by lia.
    assert (0 < 2 ^ a) by (apply Z.pow_pos_nonneg; lia).
    rewrite Z.mul_assoc. split; intros H'; nia.
  - rewrite (Z.max_r 0 (- (b - a))) by lia. rewrite (Z.max_l 0 (b - a)) by lia.
    rewrite Z.pow_0_r, Z.mul_1_r.
    replace a with ((- (b - a)) + b) at 2 by lia. rewrite Z.pow_add_r by lia.
    assert (0 < 2 ^ b) by (apply Z.pow_pos_nonneg; lia).
    rewrite Z.mul_assoc. split; intros H'; nia.
Qed.

(** For budgets up to 2^49 bytes the double [maxSize * 0.9] separates the
    integers exactly as nine tenths of maxSize does. *)
Lemma threshold_product_is_exact M t :
  0 < M <= 2 ^ 49 ->
  Double.ltInt t (Double.timesInt M Cleanup.CLEANUP_THRESHOLD) = Cleanup.belowThreshold M t.
Proof.
  intros HM. unfold Cleanup.belowThreshold, Cleanup.CLEANUP_THRESHOLD, Double.timesInt, Double.round.
  cbn [Double.mant Double.expo].
  set (N := M * 8106479329266893).
  destruct (Z.ltb_spec N 0) as [Hneg|_]; [unfold N in Hneg; lia|].
  destruct (roundPos_cases N (-53) ltac:(unfold N; lia))
    as (s & T & Hs & HT & Hexpo & Hcases & Hsmall & Hbig).
  destruct (Double.roundPos N (-53)) as [q k]. cbn [Double.mant Double.expo] in *.
  assert (HTpos : 0 < T) by (subst T; apply Z.pow_pos_nonneg; lia).
  pose proof (Z.mod_pos_bound N T HTpos) as Hr.
  assert (Hiff : Double.ltInt t {| Double.mant := q; Double.expo := k |} = true <->
                 t * 2 ^ 53 < q * T).
  { subst T. apply ltInt_scaled; lia. }
  change (2 ^ 53) with 9007199254740992 in *. change (2 ^ 49) with 562949953421312 in *.
  change (2 ^ 52) with 4503599627370496 in *.
  assert (HN : 10 * N = 9 * M * 9007199254740992 + 2 * M) by (unfold N; lia).
  destruct (Z.ltb_spec (10 * t) (9 * M)) as [Hlt|Hge].
  - apply Hiff. destruct Hcases as [[HV Hr2]|[HV Hr2]]; lia.
  - destruct (Double.ltInt t _) eqn:Hl; [exfalso|reflexivity].
    clear Hl. pose proof (proj1 Hiff eq_refl) as Hl.
    destruct (Z.eq_dec (10 * t) (9 * M)) as [Heq|Hne].
    + (* nine tenths of M is the integer t, and the product rounds to it *)
      assert (Hs53 : s <= 53).
      { destruct (Z.le_gt_cases s 53) as [H|H]; [exact H|exfalso].
        assert (2 ^ 54 <= T) by (subst T; apply Z.pow_le_mono_r; lia).
        change (2 ^ 54) with 18014398509481984 in *.
        destruct Hcases as [[HV Hr2]|[HV Hr2]]; lia. }
      assert (Hdiv : 9007199254740992 = T * 2 ^ (53 - s)).
      { subst T. rewrite <- Z.pow_add_r by lia. replace (s + (53 - s)) with 53 by lia.
        reflexivity. }
      assert (Hmod : N mod T = N - t * 9007199254740992).
      { symmetry. apply (Z.mod_unique N T (t * 2 ^ (53 - s))); [left; lia|].
        rewrite Hdiv at 1. lia. }
      destruct Hcases as [[HV Hr2]|[HV Hr2]]; lia.
    + destruct Hcases as [[HV Hr2]|[HV Hr2]]; lia.
Qed.

(** The target at budgets where the double product falls short of 70%. *)
Example target_of_90_is_below_63 :
  Cleanup.reachedTarget 90 63 = false /\ Cleanup.reachedTarget 90 62 = true /\
  Cleanup.reachedTarget 1000 700 = true /\ Cleanup.reachedTarget 20 14 = true /\
  Cleanup.reachedTarget 524288000 367001600 = true.
Proof. vm_compute. repeat split. Qed.

(** ** Paths *)

(** [path.join] on the directories the cleanup functions are given. *)
Example join_of_namespaces :
  Path.join ["/c"; "shop"] = "/c/shop" /\ Path.join ["/c"; ""] = "/c" /\
  Path.join ["/c"; "."] = "/c" /\ Path.join ["/c"; ".."] = "/" /\
  Path.join ["/c/"; "shop/"] = "/c/shop/" /\ Path.join ["/c"; "a/../b"] = "/c/b" /\
  Path.join ["cache"; ".."] = "." /\ Path.join ["cache"; "../.."] = ".." /\
  Path.join [""; ""] = "." /\ Path.join ["/c"; "manifest.json"] = "/c/manifest.json".
Proof. vm_compute. repeat split. Qed.

(** What lies inside a directory. *)
Example contains_of_namespaces :
  Path.contains "/c/shop" "/c/shop/a.json" = true /\
  Path.contains "/c/shop" "/c/shopping/a.json" = false /\
  Path.contains "/c/shop" "/c/manifest.json" = false /\
  Path.contains "/c" "/c/manifest.json" = true /\
  Path.contains "/" "/c/crm/b.json" = true /\
  Path.contains "." "cache/shop/a.json" = true /\
  Path.contains "." "../other/a.json" = false /\
  Path.contains ".." "../other/a.json" = true /\
  Path.contains ".." "../../a.json" = false.
Proof. vm_compute. repeat split. Qed.

(** The entry path of an instance whose cacheDir and namespace are in normal
    form is the path the code joins. *)
Example getFilePath_is_the_joined_path :
  let c := PluginCache.new 7 {| cfg_namespace := "shop"; cfg_defaultTTL := None;
                                cfg_defaultStaleWhileRevalidate := None;
                                cfg_maxEntrySize := None; cfg_cacheDir := Some "/c";
                                cfg_disabled := None |} in
  PluginCache.getFilePath c "orders/1" =
  Path.join [Path.join ["/c"; "shop"]; (PluginCache.sanitize "orders/1" ++ ".json")%string].
Proof. vm_compute. reflexivity. Qed.

(** ** Objects: lookups, updates and sums *)

Section ObjectFacts.
Context {V : Type}.
Implicit Types (o : JsObject.t V) (k p : string) (v : V).

Lemma get_In o k v : JsObject.get k o = Some v -> In (k, v) o.
Proof.
  induction o as [|[k' v'] o IH]; simpl; [discriminate|].
  destruct (String.eqb_spec k k') as [->|Hne].
  - intros [= ->]. now left.
  - intros H. right. auto.
Qed.

Lemma In_keys o k v : In (k, v) o -> In k (JsObject.keys o).
Proof. intros H. apply (in_map fst) in H. exact H. Qed.

Lemma In_get o k v : List.NoDup (JsObject.keys o) -> In (k, v) o -> JsObject.get k o = Some v.
Proof.
  induction o as [|[k' v'] o IH]; simpl; [tauto|].
  intros Hnd [Heq|Hin]; inversion Hnd as [|? ? Hnotin Hnd']; subst.
  - injection Heq as -> ->. now rewrite String.eqb_refl.
  - destruct (String.eqb_spec k k') as [->|Hne].
    + exfalso. apply Hnotin. eapply In_keys; eauto.
    + auto.
Qed.

Lemma get_None_notin o k : JsObject.get k o = None -> ~ In k (JsObject.keys o).
Proof.
  induction o as [|[k' v'] o IH]; simpl; [tauto|].
  destruct (String.eqb_spec k k') as [->|Hne]; [discriminate|].
  intros H [Heq|Hin]; [congruence|]. now apply IH.
Qed.

Lemma delete_In o k p v : In (p, v) (JsObject.delete k o) -> In (p, v) o /\ p <> k.
Proof.
  induction o as [|[k' v'] o IH]; simpl; [tauto|].
  destruct (String.eqb_spec k k') as [->|Hne].
  - intros H. destruct (IH H). tauto.
  - intros [Heq|Hin].
    + injection Heq as -> ->. split; [now left|congruence].
    + destruct (IH Hin). tauto.
Qed.

Lemma In_delete o k p v : In (p, v) o -> p <> k -> In (p, v) (JsObject.delete k o).
Proof.
  induction o as [|[k' v'] o IH]; simpl; [tauto|].
  intros [Heq|Hin] Hne.
  - injection Heq as -> ->.
    destruct (String.eqb_spec k p); [congruence|now left].
  - destruct (String.eqb_spec k k'); [|right]; auto.
Qed.

Lemma get_delete_eq o k : JsObject.get k (JsObject.delete k o) = None.
Proof.
  induction o as [|[k' v'] o IH]; simpl; [reflexivity|].
  destruct (String.eqb_spec k k') as [->|Hne]; [exact IH|].
  simpl. destruct (String.eqb_spec k k'); [congruence|exact IH].
Qed.

Lemma get_delete_ne o k p : p <> k -> JsObject.get p (JsObject.delete k o) = JsObject.get p o.
Proof.
  intros Hne. induction o as [|[k' v'] o IH]; simpl; [reflexivity|].
  destruct (String.eqb_spec k k') as [->|Hne'].
  - destruct (String.eqb_spec p k'); [congruence|exact IH].
  - simpl. now rewrite IH.
Qed.

Lemma keys_delete_incl o k p : In p (JsObject.keys (JsObject.delete k o)) -> In p (JsObject.keys o).
Proof.
  induction o as [|[k' v'] o IH]; simpl; [tauto|].
  destruct (String.eqb_spec k k'); simpl; [auto|]. intros [?|?]; auto.
Qed.

Lemma NoDup_delete o k : List.NoDup (JsObject.keys o) -> List.NoDup (JsObject.keys (JsObject.delete k o)).
Proof.
  induction o as [|[k' v'] o IH]; simpl; [auto|].
  intros Hnd. inversion Hnd as [|? ? Hnotin Hnd']; subst.
  destruct (String.eqb_spec k k'); [auto|]. simpl. constructor; [|auto].
  intros Hin. apply Hnotin. eapply keys_delete_incl; eauto.
Qed.

Lemma delete_absent o k : ~ In k (JsObject.keys o) -> JsObject.delete k o = o.
Proof.
  induction o as [|[k' v'] o IH]; simpl; [reflexivity|].
  intros Hnotin. destruct (String.eqb_spec k k') as [->|Hne]; [tauto|].
  f_equal. apply IH. tauto.
Qed.

Lemma set_In o k v p w :
  List.NoDup (JsObject.keys o) -> In (p, w) (JsObject.set k v o) ->
  (p = k /\ w = v) \/ (p <> k /\ In (p, w) o).
Proof.
  induction o as [|[k' v'] o IH]; simpl; intros Hnd.
  - intros [Heq|[]]. injection Heq as <- <-. now left.
  - inversion Hnd as [|? ? Hnotin Hnd']; subst.
    destruct (String.eqb_spec k k') as [->|Hne]; simpl.
    + intros [Heq|Hin].
      * injection Heq as <- <-. now left.
      * right. split; [|now right]. intros ->. apply Hnotin. eapply In_keys; eauto.
    + intros [Heq|Hin].
      * injection Heq as -> ->. right. split; [congruence|now left].
      * destruct (IH Hnd' Hin) as [?|[? ?]]; [now left|right; tauto].
Qed.


Lemma In_set_ne o k v p w : p <> k -> In (p, w) o -> In (p, w) (JsObject.set k v o).
Proof.
  intros Hne. induction o as [|[k' v'] o IH]; simpl; [tauto|].
  intros [Heq|Hin].
  - injection Heq as -> ->. destruct (String.eqb_spec k p); [congruence|now left].
  - destruct (String.eqb_spec k k'); right; auto.
Qed.

Lemma get_set_eq o k v : JsObject.get k (JsObject.set k v o) = Some v.
Proof.
  induction o as [|[k' v'] o IH]; simpl.
  - now rewrite String.eqb_refl.
  - destruct (String.eqb_spec k k') as [->|Hne]; simpl.
    + now rewrite String.eqb_refl.
    + destruct (String.eqb_spec k k'); [congruence|exact IH].
Qed.

Lemma get_set_ne o k v p : p <> k -> JsObject.get p (JsObject.set k v o) = JsObject.get p o.
Proof.
  intros Hne. induction o as [|[k' v'] o IH]; simpl.
  - destruct (String.eqb_spec p k); [congruence|reflexivity].
  - destruct (String.eqb_spec k k') as [->|Hne']; simpl.
    + destruct (String.eqb_spec p k'); [congruence|reflexivity].
    + now rewrite IH.
Qed.

Lemma keys_set_incl o k v p :
  In p (JsObject.keys (JsObject.set k v o)) -> p = k \/ In p (JsObject.keys o).
Proof.
  induction o as [|[k' v'] o IH]; simpl.
  - intros [<-|[]]. now left.
  - destruct (String.eqb_spec k k') as [->|Hne]; simpl.
    + intros [?|?]; auto.
    + intros [?|Hin]; [auto|]. destruct (IH Hin); auto.
Qed.

Lemma NoDup_set o k v : List.NoDup (JsObject.keys o) -> List.NoDup (JsObject.keys (JsObject.set k v o)).
Proof.
  induction o as [|[k' v'] o IH]; simpl; intros Hnd.
  - constructor; [simpl; tauto|constructor].
  - inversion Hnd as [|? ? Hnotin Hnd']; subst.
    destruct (String.eqb_spec k k') as [->|Hne]; simpl; [exact Hnd|].
    constructor; [|auto].
    intros Hin. destruct (keys_set_incl _ _ _ _ Hin); [congruence|tauto].
Qed.

End ObjectFacts.

Lemma sumSizes_delete o k :
  List.NoDup (JsObject.keys o) ->
  sumSizes (JsObject.delete k o) =
  sumSizes o - match JsObject.get k o with
               | Some row => ManifestEntry.size row
               | None => 0
               end.
Proof.
  induction o as [|[k' v'] o IH]; simpl; intros Hnd; [lia|].
  inversion Hnd as [|? ? Hnotin Hnd']; subst.
  destruct (String.eqb_spec k k') as [->|Hne]; simpl.
  - rewrite delete_absent by exact Hnotin. lia.
  - rewrite IH by exact Hnd'. lia.
Qed.

Lemma sumSizes_set o k v :
  sumSizes (JsObject.set k v o) =
  sumSizes o - match JsObject.get k o with
               | Some row => ManifestEntry.size row
               | None => 0
               end + ManifestEntry.size v.
Proof.
  induction o as [|[k' v'] o IH]; simpl; [lia|].
  destruct (String.eqb_spec k k') as [->|Hne]; simpl; [lia|].
  rewrite IH. lia.
Qed.

Lemma sumSizes_values o : sumSizes o = sizeOfRows (JsObject.values o).
Proof. induction o as [|[k v] o IH]; simpl; [reflexivity|]. now rewrite IH. Qed.

(** ** Writing the manifest *)

Lemma saveManifest_completes c m d :
  PluginCache.saveManifest Completes c m d =
  (Normal tt,
   {| files := files d;
      manifestFile := Some (ManifestJson m);
      tempFiles := base.delete (PluginCache.pid c)
                     (<[PluginCache.pid c := ManifestJson m]> (tempFiles d)) |}).
Proof.
  unfold PluginCache.saveManifest, tryCatch, bind, writeTempFile, renameTempFile, modify.
  simpl. rewrite lookup_insert_eq. reflexivity.
Qed.

Lemma saveManifest_fails fate c m d :
  fate <> Completes ->
  exists d',
    PluginCache.saveManifest fate c m d = (Throw IOError, d') /\
    files d' = files d /\ manifestFile d' = manifestFile d /\
    tempFiles d' !! PluginCache.pid c = None.
Proof.
  intros Hfate.
  destruct fate; [congruence| | |];
    unfold PluginCache.saveManifest, tryCatch, bind, writeTempFile, renameTempFile,
      unlinkTempFile, modify, throw; simpl;
    eexists; (split; [reflexivity|]); simpl; repeat split;
    apply lookup_delete_eq.
Qed.

(** ** The invariant is kept by every operation *)

Lemma consistent_saved c m d fs :
  wellKeyed (CacheManifest.entries m) -> accounted m ->
  rowsMatchFiles fs (CacheManifest.entries m) ->
  consistent (snd (PluginCache.saveManifest Completes c m (withFiles fs d))).
Proof.
  intros Hk Ha Hr. rewrite saveManifest_completes. simpl.
  unfold consistent. simpl. auto.
Qed.

Lemma consistent_getManifest d :
  consistent d ->
  wellKeyed (CacheManifest.entries (PluginCache.getManifest d)) /\
  accounted (PluginCache.getManifest d) /\
  rowsMatchFiles (files d) (CacheManifest.entries (PluginCache.getManifest d)).
Proof.
  unfold consistent, PluginCache.getManifest.
  destruct (manifestFile d) as [[m|]|]; try tauto;
    intros _; repeat split; try constructor; simpl; try tauto;
    unfold accounted; simpl; try reflexivity; intros ? ? ? [].
Qed.

Lemma consistent_withFiles d fs :
  consistent d ->
  rowsMatchFiles fs (CacheManifest.entries (PluginCache.getManifest d)) ->
  consistent (withFiles fs d).
Proof.
  unfold consistent, PluginCache.getManifest. simpl.
  destruct (manifestFile d) as [[m|]|]; tauto.
Qed.

Lemma rowsMatchFiles_unlink fs o p :
  rowsMatchFiles fs o -> rowsMatchFiles (base.delete p fs) o.
Proof.
  intros H q row e Hin Hfile.
  apply lookup_delete_Some in Hfile as [_ Hfile]. eauto.
Qed.

Lemma rowsMatchFiles_delete fs o p :
  rowsMatchFiles fs o -> rowsMatchFiles fs (JsObject.delete p o).
Proof.
  intros H q row e Hin Hfile. apply delete_In in Hin as [Hin _]. eauto.
Qed.

Lemma wellKeyed_delete o p : wellKeyed o -> wellKeyed (JsObject.delete p o).
Proof.
  intros [Hnd Hpath]. split; [now apply NoDup_delete|].
  intros q row Hin. apply delete_In in Hin as [Hin _]. auto.
Qed.

Lemma invalidate_consistent c key d :
  consistent d -> consistent (snd (PluginCache.invalidate Completes c key d)).
Proof.
  intros Hc. unfold PluginCache.invalidate.
  destruct (PluginCache.disabled c); [exact Hc|].
  destruct (files d !! PluginCache.getFilePath c key) as [[entry|]|] eqn:Hfile;
    try exact Hc.
  set (fp := PluginCache.getFilePath c key) in *.
  destruct (consistent_getManifest d Hc) as (Hk & Ha & Hr).
  change (PluginCache.getManifest (withFiles (base.delete fp (files d)) d))
    with (PluginCache.getManifest d).
  destruct (JsObject.get fp (CacheManifest.entries (PluginCache.getManifest d)))
    as [row|] eqn:Hrow.
  - pose proof (consistent_saved c
      (CacheManifest.withEntries
         (JsObject.delete fp (CacheManifest.entries (PluginCache.getManifest d)))
         (CacheManifest.withTotalSize
            (CacheManifest.totalSize (PluginCache.getManifest d) - CacheEntry.size entry)
            (PluginCache.getManifest d))) d (base.delete fp (files d))) as Hsaved.
    destruct (PluginCache.saveManifest Completes c _ _) as [[[]|e] d2] eqn:Hsave;
      simpl in *; apply Hsaved.
    all: try (now apply wellKeyed_delete).
    all: try (apply rowsMatchFiles_delete, rowsMatchFiles_unlink; exact Hr).
    all: unfold accounted in *; simpl; rewrite sumSizes_delete by apply Hk;
      rewrite Hrow, (Hr fp row entry (get_In _ _ _ Hrow) Hfile); lia.
  - simpl. apply consistent_withFiles; [exact Hc|].
    now apply rowsMatchFiles_unlink.
Qed.

Lemma get_consistent c key options now d :
  consistent d -> consistent (snd (PluginCache.get Completes c key options now d)).
Proof.
  intros Hc. unfold PluginCache.get.
  destruct (PluginCache.disabled c); [exact Hc|].
  destruct (files d !! PluginCache.getFilePath c key) as [[stored|]|] eqn:Hfile;
    try exact Hc.
  set (fp := PluginCache.getFilePath c key) in *.
  set (fs := <[fp := EntryJson (CacheEntry.touch now stored)]> (files d)).
  destruct (consistent_getManifest d Hc) as (Hk & Ha & Hr).
  change (PluginCache.getManifest (withFiles fs d)) with (PluginCache.getManifest d).
  assert (Hfs : rowsMatchFiles fs (CacheManifest.entries (PluginCache.getManifest d))).
  { intros p row e Hin Hp. unfold fs in Hp.
    destruct (decide (fp = p)) as [<-|Hne].
    - rewrite lookup_insert_eq in Hp. injection Hp as <-. simpl. eauto.
    - rewrite lookup_insert_ne in Hp by exact Hne. eauto. }
  assert (Hd2 : consistent
    (snd match JsObject.get fp (CacheManifest.entries (PluginCache.getManifest d)) with
         | Some row =>
             PluginCache.saveManifest Completes c
               (CacheManifest.withEntries
                  (JsObject.set fp (ManifestEntry.touch now row)
                     (CacheManifest.entries (PluginCache.getManifest d)))
                  (PluginCache.getManifest d)) (withFiles fs d)
         | None => (Normal tt, withFiles fs d)
         end)).
  { destruct (JsObject.get fp _) as [row|] eqn:Hrow.
    - apply consistent_saved; simpl.
      + destruct Hk as [Hnd Hpath]. split; [now apply NoDup_set|].
        intros p w Hin. apply set_In in Hin as [[-> ->]|[_ Hin]]; auto.
        simpl. apply Hpath. now apply get_In.
      + unfold accounted in *. simpl. rewrite sumSizes_set, Hrow. simpl. lia.
      + intros p w e Hin Hp.
        apply set_In in Hin as [[-> ->]|[_ Hin]]; [|eauto|apply Hk].
        simpl. apply (Hfs fp row e); [now apply get_In|exact Hp].
    - simpl. now apply consistent_withFiles. }
  destruct (match JsObject.get fp _ with Some _ => _ | None => _ end)
    as [[[]|e] d2]; simpl in Hd2 |- *; [|exact Hd2].
  destruct (_ && _); simpl; [|exact Hd2].
  now apply invalidate_consistent.
Qed.

(** The sort permutes its input and orders it by last access. *)

Lemma insertByAccess_perm x l : Permutation (Cleanup.insertByAccess x l) (x :: l).
Proof.
  induction l as [|y ys IH]; simpl; [reflexivity|].
  destruct (_ <=? _); [reflexivity|].
  rewrite IH. apply perm_swap.
Qed.

Lemma sortByAccess_perm l : Permutation (Cleanup.sortByAccess l) l.
Proof.
  induction l as [|x l IH]; simpl; [reflexivity|].
  rewrite insertByAccess_perm. now constructor.
Qed.



(** The eviction loop keeps the books. *)

Lemma wellKeyed_paths o :
  wellKeyed o -> List.map ManifestEntry.filePath (JsObject.values o) = JsObject.keys o.
Proof.
  intros [_ Hpath]. induction o as [|[k v] o IH]; simpl; [reflexivity|].
  f_equal.
  - apply Hpath. now left.
  - apply IH. intros p row Hin. apply Hpath. now right.
Qed.

Lemma values_In o (row : ManifestEntry.t) :
  wellKeyed o -> In row (JsObject.values o) -> In (ManifestEntry.filePath row, row) o.
Proof.
  intros [_ Hpath] Hin. apply in_map_iff in Hin as ([p r] & <- & Hin).
  simpl. now rewrite (Hpath _ _ Hin).
Qed.

Lemma sorted_rows_listed o row :
  wellKeyed o -> In row (Cleanup.sortByAccess (JsObject.values o)) ->
  In (ManifestEntry.filePath row, row) o.
Proof.
  intros Hk Hin. apply values_In; [exact Hk|].
  eapply Permutation_in; [apply sortByAccess_perm|exact Hin].
Qed.

Lemma sorted_rows_distinct o :
  wellKeyed o ->
  List.NoDup (List.map ManifestEntry.filePath (Cleanup.sortByAccess (JsObject.values o))).
Proof.
  intros Hk.
  eapply Permutation.Permutation_NoDup.
  - apply Permutation_map. symmetry. apply sortByAccess_perm.
  - rewrite wellKeyed_paths by exact Hk. apply Hk.
Qed.

Section EvictionLoop.
Variable maxSize : Z.

Lemma loopReady_step entry rest s :
  loopReady (entry :: rest) s -> loopReady rest (Cleanup.evictOne entry s).
Proof.
  intros (Hk & Hnd & Hin). simpl in Hnd.
  inversion Hnd as [|? ? Hnotin Hnd']; subst.
  repeat split; simpl.
  - apply NoDup_delete, Hk.
  - intros p row H. apply delete_In in H as [H _]. now apply Hk.
  - exact Hnd'.
  - intros row Hrow. apply In_delete; [apply Hin; now right|].
    intros Heq. apply Hnotin. rewrite <- Heq. now apply in_map.
Qed.

Lemma evictOne_sum entry rest s :
  loopReady (entry :: rest) s ->
  sumSizes (Cleanup.ev_entries (Cleanup.evictOne entry s)) =
  sumSizes (Cleanup.ev_entries s) - ManifestEntry.size entry.
Proof.
  intros (Hk & _ & Hin). simpl.
  rewrite sumSizes_delete by apply Hk.
  rewrite (In_get _ _ entry); [reflexivity|apply Hk|apply Hin; now left].
Qed.

Lemma evict_books todo s :
  loopReady todo s ->
  Cleanup.currentSize s = sumSizes (Cleanup.ev_entries s) ->
  rowsMatchFiles (Cleanup.ev_files s) (Cleanup.ev_entries s) ->
  let s' := Cleanup.evict maxSize todo s in
  wellKeyed (Cleanup.ev_entries s') /\
  Cleanup.currentSize s' = sumSizes (Cleanup.ev_entries s') /\
  rowsMatchFiles (Cleanup.ev_files s') (Cleanup.ev_entries s').
Proof.
  revert s. induction todo as [|entry rest IH]; intros s Hready Hsum Hfiles; simpl.
  - split; [apply Hready|auto].
  - destruct (Cleanup.reachedTarget maxSize (Cleanup.currentSize s)).
    + split; [apply Hready|auto].
    + apply IH.
      * now apply loopReady_step.
      * rewrite (evictOne_sum entry rest s Hready). simpl. lia.
      * simpl. now apply rowsMatchFiles_delete, rowsMatchFiles_unlink.
Qed.

End EvictionLoop.

Lemma performCleanupOn_consistent now m d :
  wellKeyed (CacheManifest.entries m) -> accounted m ->
  rowsMatchFiles (files d) (CacheManifest.entries m) ->
  consistent (snd (Cleanup.performCleanupOn Completes now m d)).
Proof.
  intros Hk Ha Hr. unfold Cleanup.performCleanupOn, bind, writeManifestFile, modify, ret.
  simpl. unfold consistent. simpl.
  apply (evict_books (Cleanup.effectiveMaxSize m)); simpl; auto.
  repeat split; try apply Hk.
  - now apply sorted_rows_distinct.
  - intros row. now apply sorted_rows_listed.
Qed.

Lemma performCleanup_consistent dir now d :
  consistent d -> consistent (snd (Cleanup.performCleanup Completes dir now None d)).
Proof.
  unfold Cleanup.performCleanup, bind, Cleanup.readManifest, consistent at 1.
  destruct (manifestFile d) as [[m|]|] eqn:Hm; simpl; try tauto.
  - intros (Hk & Ha & Hr). now apply performCleanupOn_consistent.
  - intros _. unfold consistent. now rewrite Hm.
Qed.

(** The control flow of [cleanupIfNeeded] and of an accepted [set]. *)

Lemma cleanupIfNeeded_eq fate dir now d :
  Cleanup.cleanupIfNeeded fate dir now d =
  match manifestFile d with
  | None => (Normal None, d)
  | Some ManifestGarbage => (Throw SyntaxError, d)
  | Some (ManifestJson m) =>
      if Cleanup.belowThreshold (Cleanup.effectiveMaxSize m) (CacheManifest.totalSize m)
      then (Normal None, d)
      else match Cleanup.performCleanupOn fate now m d with
           | (Normal r, d') => (Normal (Some r), d')
           | (Throw e, d') => (Throw e, d')
           end
  end.
Proof.
  unfold Cleanup.cleanupIfNeeded, bind, Cleanup.readManifest, ret.
  destruct (manifestFile d) as [[m|]|]; try reflexivity.
  destruct (Cleanup.belowThreshold _ _); reflexivity.
Qed.

Lemma set_accepted_eq c key data options now d :
  PluginCache.disabled c = false ->
  Z.of_nat (String.length data) <= PluginCache.maxEntrySize c ->
  JsDate.isValid (now + PluginCache.orElse (set_ttl options) (PluginCache.defaultTTL c)) = true ->
  PluginCache.set Completes c key data options now d =
  match Cleanup.cleanupIfNeeded Completes (PluginCache.cacheDir c) now
          (written c key data options now d) with
  | (Normal _, d') => (Normal tt, d')
  | (Throw e, d') => (Throw e, d')
  end.
Proof.
  intros Hon Hsize Hdate. unfold PluginCache.set. rewrite Hon.
  destruct (Z.ltb_spec (PluginCache.maxEntrySize c) (Z.of_nat (String.length data)));
    [lia|].
  rewrite Hdate. cbn [negb].
  unfold bind at 1. rewrite saveManifest_completes.
  unfold bind, modify, ret. reflexivity.
Qed.



Lemma set_out_of_range_eq fate c key data options now d :
  PluginCache.disabled c = false ->
  Z.of_nat (String.length data) <= PluginCache.maxEntrySize c ->
  JsDate.isValid (now + PluginCache.orElse (set_ttl options) (PluginCache.defaultTTL c)) = false ->
  PluginCache.set fate c key data options now d = (Throw RangeError, d).
Proof.
  intros Hon Hsize Hdate. unfold PluginCache.set. rewrite Hon.
  destruct (Z.ltb_spec (PluginCache.maxEntrySize c) (Z.of_nat (String.length data)));
    [lia|].
  rewrite Hdate. reflexivity.
Qed.

Lemma cleanupIfNeeded_consistent dir now d :
  consistent d -> consistent (snd (Cleanup.cleanupIfNeeded Completes dir now d)).
Proof.
  intros Hc. rewrite cleanupIfNeeded_eq.
  pose proof Hc as Hc'. unfold consistent in Hc'.
  destruct (manifestFile d) as [[m|]|] eqn:Hm; try tauto.
  destruct (Cleanup.belowThreshold _ _); [exact Hc|].
  destruct Hc' as (Hk & Ha & Hr).
  pose proof (performCleanupOn_consistent now m d Hk Ha Hr) as H.
  destruct (Cleanup.performCleanupOn Completes now m d) as [[r|e] d']; exact H.
Qed.


Lemma written_consistent c key data options now d :
  consistent d -> consistent (written c key data options now d).
Proof.
  intros Hc. destruct (consistent_getManifest d Hc) as (Hk & Ha & Hr).
  unfold consistent, written. cbn [manifestFile files]. repeat split.
  - apply NoDup_set, Hk.
  - intros p w Hin. apply set_In in Hin as [[-> ->]|[_ Hin]]; [reflexivity| |apply Hk].
    now apply Hk.
  - unfold accounted in *. simpl. rewrite sumSizes_set.
    destruct (JsObject.get _ _); simpl; lia.
  - intros p w e Hin Hp. simpl in Hin.
    apply set_In in Hin as [[-> ->]|[Hne Hin]]; [| |apply Hk].
    + rewrite lookup_insert_eq in Hp. injection Hp as <-. reflexivity.
    + rewrite lookup_insert_ne in Hp by congruence. eauto.
Qed.

Lemma set_consistent c key data options now d :
  consistent d -> consistent (snd (PluginCache.set Completes c key data options now d)).
Proof.
  intros Hc.
  destruct (PluginCache.disabled c) eqn:Hon;
    [unfold PluginCache.set; rewrite Hon; exact Hc|].
  destruct (Z.ltb_spec (PluginCache.maxEntrySize c) (Z.of_nat (String.length data))) as [Hbig|Hfit].
  - unfold PluginCache.set. rewrite Hon.
    apply Z.ltb_lt in Hbig. rewrite Hbig. exact Hc.
  - destruct (JsDate.isValid
                (now + PluginCache.orElse (set_ttl options) (PluginCache.defaultTTL c)))
      eqn:Hdate; [|rewrite set_out_of_range_eq by assumption; exact Hc].
    rewrite set_accepted_eq by assumption.
    pose proof (cleanupIfNeeded_consistent (PluginCache.cacheDir c) now _
                  (written_consistent c key data options now d Hc)) as H.
    destruct (Cleanup.cleanupIfNeeded _ _ _ _) as [[r|e] d']; exact H.
Qed.

(** The purge loop keeps the books. *)

Lemma sweep_books sel todo s :
  sweepReady todo s ->
  rowsMatchFiles (Cleanup.sw_files s) (Cleanup.sw_entries s) ->
  let s' := fold_left (Cleanup.sweepOne sel) todo s in
  wellKeyed (Cleanup.sw_entries s') /\
  sumSizes (Cleanup.sw_entries s') + Cleanup.sw_freed s' =
    sumSizes (Cleanup.sw_entries s) + Cleanup.sw_freed s /\
  rowsMatchFiles (Cleanup.sw_files s') (Cleanup.sw_entries s').
Proof.
  revert s. induction todo as [|[p row] rest IH]; intros s (Hk & Hnd & Hin) Hfiles; simpl.
  - auto.
  - simpl in Hnd. inversion Hnd as [|? ? Hnotin Hnd']; subst.
    destruct (sel row).
    + match goal with |- context [fold_left _ rest ?s1] => specialize (IH s1) end.
      simpl in IH. destruct IH as (Hk' & Hsum' & Hfiles').
      * repeat split.
        -- apply NoDup_delete, Hk.
        -- intros q w H. apply delete_In in H as [H _]. now apply Hk.
        -- exact Hnd'.
        -- intros q w H. apply In_delete; [apply Hin; now right|].
           intros ->. apply Hnotin. eapply In_keys; eauto.
      * now apply rowsMatchFiles_delete, rowsMatchFiles_unlink.
      * split; [exact Hk'|split; [|exact Hfiles']].
        rewrite Hsum'. rewrite sumSizes_delete by apply Hk.
        rewrite (In_get _ _ row); [lia|apply Hk|apply Hin; now left].
    + apply IH; [|exact Hfiles]. repeat split; try assumption; try apply Hk.
      intros q w H. apply Hin. now right.
Qed.

Lemma sweep_consistent sel m fs :
  wellKeyed (CacheManifest.entries m) -> accounted m ->
  rowsMatchFiles fs (CacheManifest.entries m) ->
  let s := Cleanup.sweep sel (CacheManifest.entries m) fs in
  wellKeyed (Cleanup.sw_entries s) /\
  CacheManifest.totalSize m - Cleanup.sw_freed s = sumSizes (Cleanup.sw_entries s) /\
  rowsMatchFiles (Cleanup.sw_files s) (Cleanup.sw_entries s).
Proof.
  intros Hk Ha Hr. unfold Cleanup.sweep.
  match goal with |- context [fold_left _ _ ?s0] =>
    destruct (sweep_books sel (CacheManifest.entries m) s0) as (Hk' & Hsum & Hr')
  end; simpl; auto.
  - split; [exact Hk|split; [apply Hk|auto]].
  - split; [exact Hk'|split; [|exact Hr']].
    simpl in Hsum. unfold accounted in Ha. lia.
Qed.

Lemma purgeExpired_consistent dir swr now d :
  consistent d -> consistent (snd (Cleanup.purgeExpired Completes dir swr now d)).
Proof.
  unfold Cleanup.purgeExpired, bind, Cleanup.readManifest, consistent at 1.
  destruct (manifestFile d) as [[m|]|] eqn:Hm; try tauto.
  - intros (Hk & Ha & Hr). cbn.
    destruct (sweep_consistent (Cleanup.fullyExpired swr now) m (files d) Hk Ha Hr)
      as (Hk' & Hsum & Hr').
    unfold consistent. cbn. auto.
  - intros _. cbn. unfold consistent. now rewrite Hm.
Qed.

Lemma rmSync_consistent dir target d :
  consistent d -> consistent (Cleanup.rmSync dir target d).
Proof.
  unfold consistent, Cleanup.rmSync. cbn [manifestFile files].
  destruct (Path.contains target _); [intros _; exact I|].
  destruct (manifestFile d) as [[m|]|]; try tauto.
  intros (Hk & Ha & Hr). split; [exact Hk|]. split; [exact Ha|].
  intros p row e Hin Hp. unfold Cleanup.rmDir in Hp.
  apply map_lookup_filter_Some in Hp as [Hp _]. eauto.
Qed.

Lemma clearNamespace_consistent dir ns d :
  consistent d -> consistent (snd (Cleanup.clearNamespace Completes dir ns d)).
Proof.
  unfold Cleanup.clearNamespace, bind, Cleanup.readManifest, consistent at 1.
  destruct (manifestFile d) as [[m|]|] eqn:Hm; try tauto.
  - intros (Hk & Ha & Hr).
    destruct (sweep_consistent (fun e => String.eqb (ManifestEntry.namespace e) ns)
                m (files d) Hk Ha Hr) as (Hk' & Hsum & Hr').
    unfold writeManifestFile, modify, ret. cbn [fst snd].
    apply rmSync_consistent. unfold consistent. cbn [manifestFile files withManifestFile
      withFiles CacheManifest.entries CacheManifest.withTotalSize CacheManifest.withEntries].
    split; [exact Hk'|]. split; [|exact Hr']. unfold accounted.
    cbn [CacheManifest.totalSize CacheManifest.entries]. exact Hsum.
  - intros _. cbn [fst snd]. unfold ret. cbn [snd]. unfold consistent. now rewrite Hm.
Qed.

Lemma clearAll_consistent dir now d :
  consistent d -> consistent (snd (Cleanup.clearAll Completes dir now d)).
Proof.
  unfold Cleanup.clearAll, bind, Cleanup.readManifest, consistent at 1.
  destruct (manifestFile d) as [[m|]|] eqn:Hm; try tauto.
  - intros _. cbn. unfold consistent. cbn. repeat split.
    + constructor.
    + intros ? ? [].
    + intros ? ? ? [].
  - intros _. cbn. unfold consistent. now rewrite Hm.
Qed.

Lemma clear_consistent c d :
  consistent d -> consistent (snd (PluginCache.clear Completes c d)).
Proof.
  intros Hc. unfold PluginCache.clear.
  destruct (PluginCache.disabled c); [exact Hc|].
  destruct (consistent_getManifest d Hc) as (Hk & Ha & Hr).
  destruct (sweep_consistent
              (fun e => String.eqb (ManifestEntry.namespace e) (PluginCache.namespace c))
              (PluginCache.getManifest d) (files d) Hk Ha Hr) as (Hk' & Hsum & Hr').
  unfold bind. rewrite saveManifest_completes. cbn.
  unfold consistent. cbn. auto.
Qed.

Lemma invalidatePattern_consistent c test d :
  consistent d -> consistent (snd (PluginCache.invalidatePattern Completes c test d)).
Proof.
  intros Hc. unfold PluginCache.invalidatePattern.
  destruct (PluginCache.disabled c); [exact Hc|].
  generalize (CacheManifest.entries (PluginCache.getManifest d)) as rows.
  generalize 0 as count. revert d Hc.
  intros d Hc count rows. revert d Hc count.
  induction rows as [|row rows IH]; intros d Hc count; simpl; [exact Hc|].
  destruct (_ && _).
  - pose proof (invalidate_consistent c (ManifestEntry.key row.2) d Hc) as H.
    destruct (PluginCache.invalidate Completes c _ d) as [[|] d']; apply IH; exact H.
  - now apply IH.
Qed.

Lemma fetchAndStore_consistent c key fetcher options store now d :
  consistent d ->
  consistent (snd (PluginCache.fetchAndStore Completes c key fetcher options store now d)).
Proof.
  intros Hc. unfold PluginCache.fetchAndStore.
  destruct fetcher as [data|error]; [|exact Hc].
  destruct store; [|exact Hc].
  pose proof (set_consistent c key data (setOptions options) now d Hc) as H.
  destruct (PluginCache.set Completes c key data (setOptions options) now d) as [[[]|e] d'];
    exact H.
Qed.

Lemma getOrFetch_consistent c key fetcher options now later d :
  consistent d ->
  consistent (snd (PluginCache.getOrFetch Completes c key fetcher options now later d)).
Proof.
  intros Hc. unfold PluginCache.getOrFetch.
  destruct (_ || _); [now apply fetchAndStore_consistent|].
  match goal with |- context [PluginCache.get Completes c key ?o now d] =>
    pose proof (get_consistent c key o now d Hc) as H;
    destruct (PluginCache.get Completes c key o now d) as [cached d1]
  end.
  cbn [snd] in H.
  destruct (hit cached && negb (stale cached)); [exact H|].
  destruct (hit cached && stale cached); now apply fetchAndStore_consistent.
Qed.

Lemma step_consistent d op : consistent d -> consistent (step d op).
Proof.
  destruct op; cbn [step].
  - apply set_consistent.
  - apply get_consistent.
  - apply getOrFetch_consistent.
  - apply invalidate_consistent.
  - apply invalidatePattern_consistent.
  - apply clear_consistent.
  - apply cleanupIfNeeded_consistent.
  - apply performCleanup_consistent.
  - apply purgeExpired_consistent.
  - apply clearNamespace_consistent.
  - apply clearAll_consistent.
Qed.

Lemma run_consistent ops d : consistent d -> consistent (run ops d).
Proof.
  revert d. induction ops as [|op ops IH]; intros d Hc; simpl; [exact Hc|].
  apply IH. now apply step_consistent.
Qed.

(** ** Lookups *)

Lemma get_stored_eq c key options now d stored :
  PluginCache.disabled c = false ->
  files d !! PluginCache.getFilePath c key = Some (EntryJson stored) ->
  PluginCache.get Completes c key options now d =
  if (CacheEntry.expiresAt stored <? now) &&
     negb (JsDate.notAfter now
             (CacheEntry.expiresAt stored +
              PluginCache.orElse (get_staleWhileRevalidate options)
                (PluginCache.defaultSWR c)))
  then (PluginCache.miss,
        snd (PluginCache.invalidate Completes c key (refreshed c key now stored d)))
  else (hitResult now stored, refreshed c key now stored d).
Proof.
  intros Hon Hfile. unfold PluginCache.get, refreshed. rewrite Hon, Hfile.
  cbv zeta.
  change (PluginCache.getManifest (withFiles _ d)) with (PluginCache.getManifest d).
  destruct (JsObject.get _ _) as [row|]; [rewrite saveManifest_completes|]; reflexivity.
Qed.

Lemma refreshed_files c key now stored d :
  files (refreshed c key now stored d) =
  <[PluginCache.getFilePath c key := EntryJson (CacheEntry.touch now stored)]> (files d).
Proof.
  unfold refreshed. destruct (JsObject.get _ _); [rewrite saveManifest_completes|]; reflexivity.
Qed.

Lemma invalidate_removes c key d entry :
  PluginCache.disabled c = false ->
  files d !! PluginCache.getFilePath c key = Some (EntryJson entry) ->
  let d' := snd (PluginCache.invalidate Completes c key d) in
  files d' !! PluginCache.getFilePath c key = None /\
  JsObject.get (PluginCache.getFilePath c key)
    (CacheManifest.entries (PluginCache.getManifest d')) = None.
Proof.
  intros Hon Hfile. unfold PluginCache.invalidate. rewrite Hon, Hfile. cbv zeta.
  change (PluginCache.getManifest (withFiles _ d)) with (PluginCache.getManifest d).
  destruct (JsObject.get _ _) as [row|] eqn:Hrow.
  - rewrite saveManifest_completes. cbn. split; [apply lookup_delete_eq|apply get_delete_eq].
  - cbn. split; [apply lookup_delete_eq|exact Hrow].
Qed.





(** ** The eviction loop removes a prefix of the sorted rows *)

Lemma sizeOfRows_cons row rows :
  sizeOfRows (row :: rows) = ManifestEntry.size row + sizeOfRows rows.
Proof. reflexivity. Qed.

Lemma evictAll_fields rows s :
  Cleanup.currentSize (evictAll rows s) = Cleanup.currentSize s - sizeOfRows rows /\
  Cleanup.ev_entries (evictAll rows s) = dropRows rows (Cleanup.ev_entries s) /\
  Cleanup.ev_files (evictAll rows s) = unlinkRows rows (Cleanup.ev_files s) /\
  Cleanup.ev_removed (evictAll rows s) = Cleanup.ev_removed s + Z.of_nat (length rows) /\
  Cleanup.ev_freed (evictAll rows s) = Cleanup.ev_freed s + sizeOfRows rows.
Proof.
  revert s. induction rows as [|row rows IH]; intros s.
  - cbn. repeat split; lia.
  - destruct (IH (Cleanup.evictOne row s)) as (H1 & H2 & H3 & H4 & H5).
    change (evictAll (row :: rows) s) with (evictAll rows (Cleanup.evictOne row s)).
    rewrite H1, H2, H3, H4, H5.
    rewrite sizeOfRows_cons.
    cbn [Cleanup.evictOne Cleanup.currentSize Cleanup.ev_entries Cleanup.ev_files
         Cleanup.ev_removed Cleanup.ev_freed length dropRows unlinkRows fold_left].
    repeat split; try reflexivity; lia.
Qed.

Lemma evict_prefix maxSize todo s :
  exists n,
    (n <= length todo)%nat /\
    Cleanup.evict maxSize todo s = evictAll (firstn n todo) s /\
    (Cleanup.reachedTarget maxSize (Cleanup.currentSize (Cleanup.evict maxSize todo s)) = true
     \/ n = length todo) /\
    forall k, (k < n)%nat ->
      Cleanup.reachedTarget maxSize (Cleanup.currentSize s - sizeOfRows (firstn k todo)) = false.
Proof.
  revert s. induction todo as [|entry rest IH]; intros s.
  - exists 0%nat. cbn. repeat split; auto. intros k Hk. lia.
  - cbn [Cleanup.evict].
    destruct (Cleanup.reachedTarget maxSize (Cleanup.currentSize s)) eqn:Hreached.
    + exists 0%nat. cbn. repeat split; auto; try lia.
    + destruct (IH (Cleanup.evictOne entry s)) as (n & Hn & Heq & Hstop & Hmin).
      exists (S n). cbn [length firstn evictAll fold_left]. repeat split.
      * lia.
      * exact Heq.
      * destruct Hstop; [now left|right; lia].
      * intros [|k] Hk.
        -- cbn. now rewrite Z.sub_0_r.
        -- cbn [firstn]. rewrite sizeOfRows_cons.
           specialize (Hmin k ltac:(lia)). cbn [Cleanup.evictOne Cleanup.currentSize] in Hmin.
           now rewrite Z.sub_add_distr.
Qed.

Lemma dropRows_In rows o p row :
  In (p, row) (dropRows rows o) <->
  In (p, row) o /\ ~ In p (List.map ManifestEntry.filePath rows).
Proof.
  revert o. induction rows as [|r rows IH]; intros o; cbn [dropRows fold_left List.map].
  - cbn. tauto.
  - fold (dropRows rows (JsObject.delete (ManifestEntry.filePath r) o)).
    rewrite IH. cbn [In]. split.
    + intros [Hin Hnot]. apply delete_In in Hin as [Hin Hne]. split; [exact Hin|].
      intros [Heq|Hrest]; [congruence|tauto].
    + intros [Hin Hnot]. split; [|tauto].
      apply In_delete; [exact Hin|]. intros Heq. apply Hnot. now left.
Qed.


Lemma performCleanupOn_eq now m d :
  exists n,
    let sorted := Cleanup.sortByAccess (JsObject.values (CacheManifest.entries m)) in
    let removed := firstn n sorted in
    (n <= length sorted)%nat /\
    Cleanup.performCleanupOn Completes now m d =
      (Normal {| entriesRemoved := Z.of_nat (length removed);
                 bytesFreed := sizeOfRows removed;
                 newTotalSize := CacheManifest.totalSize m - sizeOfRows removed |},
       {| files := unlinkRows removed (files d);
          manifestFile :=
            Some (ManifestJson
                    (CacheManifest.mk (CacheManifest.version m)
                       (CacheManifest.totalSize m - sizeOfRows removed)
                       (CacheManifest.maxSize m)
                       (dropRows removed (CacheManifest.entries m)) (Some now)));
          tempFiles := tempFiles d |}) /\
    (Cleanup.reachedTarget (Cleanup.effectiveMaxSize m)
       (CacheManifest.totalSize m - sizeOfRows removed) = true \/ n = length sorted) /\
    forall k, (k < n)%nat ->
      Cleanup.reachedTarget (Cleanup.effectiveMaxSize m)
        (CacheManifest.totalSize m - sizeOfRows (firstn k sorted)) = false.
Proof.
  unfold Cleanup.performCleanupOn.
  match goal with |- context [Cleanup.evict ?M ?todo ?s0] =>
    destruct (evict_prefix M todo s0) as (n & Hn & Heq & Hstop & Hmin);
    destruct (evictAll_fields (firstn n todo) s0) as (H1 & H2 & H3 & H4 & H5)
  end.
  exists n. cbv zeta. rewrite Heq in *. rewrite H1 in Hstop. rewrite H1, H2, H3, H4, H5.
  cbn [Cleanup.currentSize Cleanup.ev_entries Cleanup.ev_files Cleanup.ev_removed
       Cleanup.ev_freed] in *.
  repeat split; try assumption.
Qed.




(** ** The entry just written outlives the cleanup that follows it *)


Lemma sizeOfRows_perm l1 l2 : Permutation l1 l2 -> sizeOfRows l1 = sizeOfRows l2.
Proof.
  induction 1 as [|x l1 l2 _ IH|x y l|l1 l2 l3 _ IH1 _ IH2];
    rewrite ?sizeOfRows_cons; lia.
Qed.




Lemma firstn_In {A} (l : list A) n x : In x (firstn n l) -> In x l.
Proof.
  intros H. rewrite <- (firstn_skipn n l). apply in_or_app. now left.
Qed.



(** C1. Size accounting: in every state a process reaches from the empty
    cache by set, get, getOrFetch, invalidate, invalidatePattern, clear,
    threshold cleanup, expiry purge and the namespace and full purges, the
    manifest's totalSize is the sum of the sizes of the rows left in its
    entries. *)
Theorem size_accounting_invariant (ops : list Op) :
  let manifest := PluginCache.getManifest (run ops emptyDisk) in
  CacheManifest.totalSize manifest = sumSizes (CacheManifest.entries manifest).
Proof.
  apply (consistent_getManifest (run ops emptyDisk)).
  apply run_consistent. exact I.
Qed.


Lemma notAfter_true now t :
  JsDate.notAfter now t = true <-> JsDate.isValid t = true /\ now <= t.
Proof. unfold JsDate.notAfter. rewrite andb_true_iff, Z.leb_le. reflexivity. Qed.

Lemma notAfter_false now t :
  JsDate.notAfter now t = false <-> JsDate.isValid t = false \/ t < now.
Proof. unfold JsDate.notAfter. rewrite andb_false_iff, Z.leb_gt. reflexivity. Qed.







(** C8. Loading the manifest when the manifest file is absent or does not
    parse gives the freshly initialised manifest: version 1, totalSize 0,
    maxSize 500 MiB, no entries.  [getManifest] has no failing completion:
    it returns a manifest on every disk. *)
Theorem getManifest_absent_or_corrupt d :
  manifestFile d = None \/ manifestFile d = Some ManifestGarbage ->
  PluginCache.getManifest d = CacheManifest.mk 1 0 (500 * 1024 * 1024) [] None.
Proof.
  unfold PluginCache.getManifest. intros [-> | ->]; reflexivity.
Qed.

Lemma getManifest_absent_or_corrupt_witness :
  (manifestFile emptyDisk = None /\
   PluginCache.getManifest emptyDisk = CacheManifest.mk 1 0 524288000 [] None) /\
  (manifestFile (withManifestFile (Some ManifestGarbage) emptyDisk) = Some ManifestGarbage /\
   PluginCache.getManifest (withManifestFile (Some ManifestGarbage) emptyDisk) =
   CacheManifest.mk 1 0 524288000 [] None).
Proof.
  split; (split; [reflexivity|]).
  - apply (getManifest_absent_or_corrupt emptyDisk). left. reflexivity.
  - apply (getManifest_absent_or_corrupt (withManifestFile (Some ManifestGarbage) emptyDisk)).
    right. reflexivity.
Defined.

(** C9. Oversized rejection: when the serialized size of the value exceeds
    the per-entry maximum of the instance, set returns normally and leaves
    the disk as it was: no entry file is created or changed, the manifest is
    untouched and no cleanup runs.  The maximum is 10 MiB unless configured. *)
Theorem set_oversized_is_noop fate c key data options now d :
  PluginCache.maxEntrySize c < Z.of_nat (String.length data) ->
  PluginCache.set fate c key data options now d = (Normal tt, d) /\
  forall processPid config,
    cfg_maxEntrySize config = None ->
    PluginCache.maxEntrySize (PluginCache.new processPid config) = 10 * 1024 * 1024.
Proof.
  intros Hbig. split.
  - unfold PluginCache.set. apply Z.ltb_lt in Hbig. rewrite Hbig.
    destruct (PluginCache.disabled c); reflexivity.
  - intros processPid config Hnone. unfold PluginCache.new. cbn. rewrite Hnone. reflexivity.
Qed.

Lemma set_oversized_is_noop_witness :
  let c := PluginCache.new 7 {| cfg_namespace := "shop"; cfg_defaultTTL := None;
                                cfg_defaultStaleWhileRevalidate := None;
                                cfg_maxEntrySize := Some 10; cfg_cacheDir := Some "/c";
                                cfg_disabled := None |} in
  PluginCache.maxEntrySize c < Z.of_nat (String.length "[1,2,3,4,5]") /\
  PluginCache.set Completes c "k" "[1,2,3,4,5]"
    {| set_ttl := None; set_etag := None; set_lastModified := None; set_version := None |}
    1000 emptyDisk = (Normal tt, emptyDisk).
Proof.
  intros c. split; [reflexivity|].
  apply (set_oversized_is_noop Completes c "k" "[1,2,3,4,5]"). reflexivity.
Defined.

(** C10. The ttl option of get has no influence: two calls of get that
    differ only in the ttl they pass return the same result and leave the
    same disk. *)
Theorem get_ignores_ttl_option fate c key ttl1 ttl2 swr now d :
  PluginCache.get fate c key {| get_ttl := ttl1; get_staleWhileRevalidate := swr |} now d =
  PluginCache.get fate c key {| get_ttl := ttl2; get_staleWhileRevalidate := swr |} now d.
Proof.
  unfold PluginCache.get.
  destruct (PluginCache.disabled c); [reflexivity|].
  destruct (files d !! PluginCache.getFilePath c key) as [[stored|]|]; reflexivity.
Qed.

(** C3. Manifest persistence.  [saveManifest] of cache.ts writes a temporary
    file and renames it, so a write that fails midway leaves the manifest
    file as it was.  The eviction module does not: performCleanup (alone or
    through cleanupIfNeeded), purgeExpired, clearNamespace and clearAll
    overwrite manifest.json in place, and a write that fails midway leaves a
    truncated manifest behind, which the next load reads as an empty cache. *)
Theorem cleanup_overwrites_manifest_in_place dir ns swr now d m :
  manifestFile d = Some (ManifestJson m) ->
  let truncated (r : Completion CleanupResult * Disk) :=
    fst r = Throw IOError /\ manifestFile (snd r) = Some ManifestGarbage /\
    PluginCache.getManifest (snd r) = PluginCache.freshManifest in
  truncated (Cleanup.performCleanup FailsMidWrite dir now None d) /\
  truncated (Cleanup.purgeExpired FailsMidWrite dir swr now d) /\
  truncated (Cleanup.clearNamespace FailsMidWrite dir ns d) /\
  truncated (Cleanup.clearAll FailsMidWrite dir now d) /\
  (Cleanup.belowThreshold (Cleanup.effectiveMaxSize m) (CacheManifest.totalSize m) = false ->
   manifestFile (snd (Cleanup.cleanupIfNeeded FailsMidWrite dir now d)) =
   Some ManifestGarbage) /\
  (forall c m',
     fst (PluginCache.saveManifest FailsMidWrite c m' d) = Throw IOError /\
     manifestFile (snd (PluginCache.saveManifest FailsMidWrite c m' d)) =
     Some (ManifestJson m) /\
     tempFiles (snd (PluginCache.saveManifest FailsMidWrite c m' d))
       !! PluginCache.pid c = None).
Proof.
  intros Hm truncated. subst truncated.
  repeat match goal with |- _ /\ _ => split end.
  all: try (unfold Cleanup.performCleanup, Cleanup.purgeExpired, Cleanup.clearNamespace,
              Cleanup.clearAll, Cleanup.performCleanupOn, Cleanup.readManifest, bind;
            rewrite Hm; reflexivity).
  - intros Habove. rewrite cleanupIfNeeded_eq, Hm, Habove. reflexivity.
  - intros c m'.
    destruct (saveManifest_fails FailsMidWrite c m' d) as (d' & Heq & _ & Hman & Htmp);
      [discriminate|].
    rewrite Heq. cbn [fst snd]. split; [reflexivity|]. split; [congruence|exact Htmp].
Qed.

Lemma cleanup_overwrites_manifest_in_place_witness :
  let c := PluginCache.new 7 {| cfg_namespace := "shop"; cfg_defaultTTL := None;
                                cfg_defaultStaleWhileRevalidate := None;
                                cfg_maxEntrySize := None; cfg_cacheDir := Some "/c";
                                cfg_disabled := None |} in
  let o := {| set_ttl := None; set_etag := None; set_lastModified := None;
              set_version := None |} in
  let d := written c "k" "[1]" o 1000 emptyDisk in
  manifestFile d =
    Some (ManifestJson (PluginCache.recordEntry c "k" 3 1000 301000 PluginCache.freshManifest)) /\
  manifestFile (snd (Cleanup.performCleanup FailsMidWrite "/c" 2000 None d)) =
    Some ManifestGarbage /\
  manifestFile (snd (Cleanup.purgeExpired FailsMidWrite "/c" 86400000 2000 d)) =
    Some ManifestGarbage /\
  manifestFile (snd (PluginCache.set FailsMidWrite c "k2" "[2]" o 2000 d)) = manifestFile d.
Proof.
  intros c o d.
  assert (Hm : manifestFile d =
    Some (ManifestJson (PluginCache.recordEntry c "k" 3 1000 301000 PluginCache.freshManifest)))
    by reflexivity.
  destruct (cleanup_overwrites_manifest_in_place "/c" "shop" 86400000 2000 d _ Hm)
    as ((_ & H1 & _) & (_ & H2 & _) & _).
  split; [exact Hm|]. split; [exact H1|]. split; [exact H2|]. reflexivity.
Defined.













(** The ninth set brings the total to 900, the trigger; the two rows
    accessed longest ago go, one from each namespace, and 700 is left. *)
Example nine_sets_of_100_in_1000 :
  let m := PluginCache.getManifest (run nineSets budget1000Disk) in
  CacheManifest.totalSize m = 700 /\
  JsObject.keys (CacheManifest.entries m) =
    ["/c/crm/3.json"; "/c/shop/4.json"; "/c/crm/5.json"; "/c/shop/6.json";
     "/c/crm/7.json"; "/c/shop/8.json"; "/c/crm/9.json"] /\
  files (run nineSets budget1000Disk) !! "/c/crm/1.json" = None /\
  files (run nineSets budget1000Disk) !! "/c/shop/2.json" = None.
Proof. vm_compute. repeat split. Qed.

Lemma twoEntriesDisk_consistent : consistent twoEntriesDisk.
Proof.
  apply run_consistent. unfold consistent. cbn. repeat split.
  - constructor.
  - intros ? ? [].
  - intros ? ? ? [].
Qed.



(** ** The purge loop, row by row *)

Lemma delete_middle {V} (kept rest : JsObject.t V) p v :
  ~ In p (JsObject.keys kept) -> ~ In p (JsObject.keys rest) ->
  JsObject.delete p (kept ++ (p, v) :: rest)%list = (kept ++ rest)%list.
Proof.
  intros Hkept Hrest. induction kept as [|[k w] kept IH]; cbn.
  - rewrite String.eqb_refl. now apply delete_absent.
  - destruct (String.eqb_spec p k) as [->|Hne]; [exfalso; apply Hkept; now left|].
    f_equal. apply IH. intros Hin. apply Hkept. now right.
Qed.

Lemma unlinkPaths_lookup paths (fs : gmap string EntryFile) p :
  unlinkPaths paths fs !! p = if In_dec string_dec p paths then None else fs !! p.
Proof.
  revert fs. induction paths as [|q paths IH]; intros fs; [reflexivity|].
  cbn [unlinkPaths fold_left]. fold (unlinkPaths paths (base.delete q fs)).
  rewrite IH. destruct (In_dec string_dec p paths) as [Hin|Hnot].
  - destruct (In_dec string_dec p (q :: paths)) as [_|Hn]; [reflexivity|].
    exfalso. apply Hn. now right.
  - destruct (In_dec string_dec p (q :: paths)) as [[->|Hin]|Hn].
    + apply lookup_delete_eq.
    + contradiction.
    + apply lookup_delete_ne. intros ->. apply Hn. now left.
Qed.

Lemma unlinkPaths_gone paths (fs : gmap string EntryFile) p :
  In p paths -> unlinkPaths paths fs !! p = None.
Proof.
  intros Hin. rewrite unlinkPaths_lookup.
  destruct (In_dec string_dec p paths); [reflexivity|contradiction].
Qed.

Lemma unlinkPaths_kept paths (fs : gmap string EntryFile) p :
  ~ In p paths -> unlinkPaths paths fs !! p = fs !! p.
Proof.
  intros Hnot. rewrite unlinkPaths_lookup.
  destruct (In_dec string_dec p paths); [contradiction|reflexivity].
Qed.

Lemma sweep_fold sel todo :
  forall kept fs removed freed,
    List.NoDup (JsObject.keys (kept ++ todo)%list) ->
    fold_left (Cleanup.sweepOne sel) todo
      {| Cleanup.sw_entries := (kept ++ todo)%list; Cleanup.sw_files := fs;
         Cleanup.sw_removed := removed; Cleanup.sw_freed := freed |} =
    {| Cleanup.sw_entries := (kept ++ keptRows sel todo)%list;
       Cleanup.sw_files := unlinkPaths (JsObject.keys (selectedRows sel todo)) fs;
       Cleanup.sw_removed := removed + Z.of_nat (length (selectedRows sel todo));
       Cleanup.sw_freed := freed + sumSizes (selectedRows sel todo) |}.
Proof.
  induction todo as [|[p row] rest IH]; intros kept fs removed freed Hnd.
  - cbn. now rewrite !Z.add_0_r.
  - cbn [fold_left Cleanup.sweepOne selectedRows keptRows List.filter snd].
    unfold JsObject.keys in Hnd. rewrite map_app in Hnd. cbn [List.map fst] in Hnd.
    pose proof (NoDup_remove_2 _ _ _ Hnd) as Hnot.
    pose proof (NoDup_remove_1 _ _ _ Hnd) as Hnd'.
    destruct (sel row); cbn [negb].
    + cbn [Cleanup.sw_entries Cleanup.sw_files Cleanup.sw_removed Cleanup.sw_freed].
      rewrite delete_middle.
      * rewrite IH by (unfold JsObject.keys; now rewrite map_app).
        cbn [JsObject.keys List.map fst unlinkPaths fold_left length sumSizes fold_right snd].
        fold (selectedRows sel rest) (keptRows sel rest).
        change (foldr _ 0 (selectedRows sel rest)) with (sumSizes (selectedRows sel rest)).
        f_equal; lia.
      * intros Hin. apply Hnot. apply in_or_app. now left.
      * intros Hin. apply Hnot. apply in_or_app. now right.
    + change (kept ++ (p, row) :: rest)%list with (kept ++ [(p, row)] ++ rest)%list.
      rewrite app_assoc. rewrite IH.
      * fold (selectedRows sel rest) (keptRows sel rest).
        now rewrite <- app_assoc.
      * unfold JsObject.keys. rewrite <- app_assoc, map_app. exact Hnd.
Qed.

Lemma sweep_eq sel o fs :
  List.NoDup (JsObject.keys o) ->
  Cleanup.sweep sel o fs =
  {| Cleanup.sw_entries := keptRows sel o;
     Cleanup.sw_files := unlinkPaths (JsObject.keys (selectedRows sel o)) fs;
     Cleanup.sw_removed := Z.of_nat (length (selectedRows sel o));
     Cleanup.sw_freed := sumSizes (selectedRows sel o) |}.
Proof.
  intros Hnd. unfold Cleanup.sweep. exact (sweep_fold sel o [] fs 0 0 Hnd).
Qed.

Lemma keptRows_In sel (o : JsObject.t ManifestEntry.t) p row :
  In (p, row) (keptRows sel o) <-> In (p, row) o /\ sel row = false.
Proof.
  unfold keptRows. rewrite filter_In. cbn. now rewrite negb_true_iff.
Qed.

Lemma selectedRows_In sel (o : JsObject.t ManifestEntry.t) p row :
  In (p, row) (selectedRows sel o) <-> In (p, row) o /\ sel row = true.
Proof. unfold selectedRows. now rewrite filter_In. Qed.

(** X1. clear touches its own namespace only.  On a manifest with unique
    paths it returns the number of rows of the namespace, leaves exactly the
    rows of the other namespaces, in their order, lowers totalSize by the
    sizes of the rows it dropped, unlinks the files of those rows and no
    other file. *)
Theorem clear_removes_own_namespace_only c d :
  PluginCache.disabled c = false ->
  List.NoDup (JsObject.keys (CacheManifest.entries (PluginCache.getManifest d))) ->
  let m := PluginCache.getManifest d in
  let own := selectedRows (inNamespace (PluginCache.namespace c)) (CacheManifest.entries m) in
  let r := PluginCache.clear Completes c d in
  let m' := PluginCache.getManifest (snd r) in
  fst r = Normal (Z.of_nat (length own)) /\
  CacheManifest.entries m' =
    keptRows (inNamespace (PluginCache.namespace c)) (CacheManifest.entries m) /\
  (forall p row,
     In (p, row) (CacheManifest.entries m') <->
     In (p, row) (CacheManifest.entries m) /\
     ManifestEntry.namespace row <> PluginCache.namespace c) /\
  CacheManifest.totalSize m' = CacheManifest.totalSize m - sumSizes own /\
  CacheManifest.maxSize m' = CacheManifest.maxSize m /\
  (forall p, In p (JsObject.keys own) -> files (snd r) !! p = None) /\
  (forall p, ~ In p (JsObject.keys own) -> files (snd r) !! p = files d !! p).
Proof.
  intros Hon Hnd m own r m'. subst r m'. unfold PluginCache.clear. rewrite Hon.
  fold m. rewrite (sweep_eq _ _ _ Hnd). fold own.
  unfold bind. rewrite saveManifest_completes.
  cbn [fst snd ret PluginCache.getManifest manifestFile files withFiles
       Cleanup.sw_entries Cleanup.sw_files Cleanup.sw_removed Cleanup.sw_freed
       CacheManifest.entries CacheManifest.totalSize CacheManifest.maxSize
       CacheManifest.withTotalSize CacheManifest.withEntries].
  change (fun e : ManifestEntry.t =>
            String.eqb (ManifestEntry.namespace e) (PluginCache.namespace c))
    with (inNamespace (PluginCache.namespace c)).
  fold own.
  split; [reflexivity|]. split; [reflexivity|]. split; [|split; [reflexivity|]].
  - intros p row. rewrite keptRows_In. unfold inNamespace.
    now rewrite String.eqb_neq.
  - split; [reflexivity|]. split.
    + intros p Hin. now apply unlinkPaths_gone.
    + intros p Hnot. now apply unlinkPaths_kept.
Qed.

Lemma twoEntriesDisk_paths :
  List.NoDup (JsObject.keys (CacheManifest.entries (PluginCache.getManifest twoEntriesDisk))).
Proof. apply (consistent_getManifest twoEntriesDisk), twoEntriesDisk_consistent. Qed.

Lemma clear_removes_own_namespace_only_witness :
  let r := PluginCache.clear Completes shopCache twoEntriesDisk in
  PluginCache.disabled shopCache = false /\
  fst r = Normal 1 /\
  JsObject.keys (CacheManifest.entries (PluginCache.getManifest (snd r))) = ["/c/crm/b.json"] /\
  CacheManifest.totalSize (PluginCache.getManifest (snd r)) = 6 /\
  files (snd r) !! "/c/crm/b.json" = files twoEntriesDisk !! "/c/crm/b.json".
Proof.
  intros r.
  assert (Hon : PluginCache.disabled shopCache = false) by reflexivity.
  destruct (clear_removes_own_namespace_only shopCache twoEntriesDisk Hon twoEntriesDisk_paths)
    as (H1 & H2 & _ & H4 & _ & _ & H7).
  fold r in H1, H2, H4, H7.
  split; [exact Hon|]. split; [rewrite H1; reflexivity|].
  split; [rewrite H2; reflexivity|]. split; [rewrite H4; reflexivity|].
  apply H7. vm_compute. intros [H|[]]. discriminate H.
Defined.

Lemma purgeExpired_eq dir swr now d m :
  manifestFile d = Some (ManifestJson m) ->
  List.NoDup (JsObject.keys (CacheManifest.entries m)) ->
  let gone := selectedRows (Cleanup.fullyExpired swr now) (CacheManifest.entries m) in
  Cleanup.purgeExpired Completes dir swr now d =
  (Normal {| entriesRemoved := Z.of_nat (length gone);
             bytesFreed := sumSizes gone;
             newTotalSize := CacheManifest.totalSize m - sumSizes gone |},
   {| files := unlinkPaths (JsObject.keys gone) (files d);
      manifestFile :=
        Some (ManifestJson
                (CacheManifest.mk (CacheManifest.version m)
                   (CacheManifest.totalSize m - sumSizes gone) (CacheManifest.maxSize m)
                   (keptRows (Cleanup.fullyExpired swr now) (CacheManifest.entries m))
                   (Some now)));
      tempFiles := tempFiles d |}).
Proof.
  intros Hm Hnd gone.
  unfold Cleanup.purgeExpired, bind, Cleanup.readManifest. rewrite Hm.
  rewrite (sweep_eq _ _ _ Hnd). reflexivity.
Qed.

(** X2. purgeExpired removes exactly the rows past expiresAt + defaultSWR,
    a sum within the range of a Date (past an Invalid Date no row is).
    On a manifest with unique paths it leaves the other rows in their order,
    lowers totalSize by the sizes of the rows it dropped, stamps lastCleanup,
    unlinks the files of the dropped rows and no other file, and reports the
    number of rows dropped, their bytes and the new total. *)
Theorem purgeExpired_removes_fully_expired dir swr now d m :
  manifestFile d = Some (ManifestJson m) ->
  List.NoDup (JsObject.keys (CacheManifest.entries m)) ->
  let gone := selectedRows (Cleanup.fullyExpired swr now) (CacheManifest.entries m) in
  let r := Cleanup.purgeExpired Completes dir swr now d in
  fst r = Normal {| entriesRemoved := Z.of_nat (length gone);
                    bytesFreed := sumSizes gone;
                    newTotalSize := CacheManifest.totalSize m - sumSizes gone |} /\
  manifestFile (snd r) =
    Some (ManifestJson
            (CacheManifest.mk (CacheManifest.version m)
               (CacheManifest.totalSize m - sumSizes gone) (CacheManifest.maxSize m)
               (keptRows (Cleanup.fullyExpired swr now) (CacheManifest.entries m))
               (Some now))) /\
  (forall p row,
     In (p, row) (keptRows (Cleanup.fullyExpired swr now) (CacheManifest.entries m)) <->
     In (p, row) (CacheManifest.entries m) /\
     (now <= ManifestEntry.expiresAt row + swr \/
      JsDate.isValid (ManifestEntry.expiresAt row + swr) = false)) /\
  (forall p, In p (JsObject.keys gone) -> files (snd r) !! p = None) /\
  (forall p, ~ In p (JsObject.keys gone) -> files (snd r) !! p = files d !! p).
Proof.
  intros Hm Hnd gone r. subst r.
  rewrite (purgeExpired_eq dir swr now d m Hm Hnd). fold gone. cbn [fst snd manifestFile files].
  split; [reflexivity|]. split; [reflexivity|]. split; [|split].
  - intros p row. rewrite keptRows_In. unfold Cleanup.fullyExpired, JsDate.after.
    rewrite andb_false_iff, Z.ltb_ge. tauto.
  - intros p Hin. now apply unlinkPaths_gone.
  - intros p Hnot. now apply unlinkPaths_kept.
Qed.

Lemma purgeExpired_removes_fully_expired_witness :
  let r := Cleanup.purgeExpired Completes "/c" 50 301500 twoEntriesDisk in
  fst r = Normal {| entriesRemoved := 1; bytesFreed := 6; newTotalSize := 6 |} /\
  files (snd r) !! "/c/shop/a.json" = None /\
  JsObject.keys (CacheManifest.entries (PluginCache.getManifest (snd r))) = ["/c/crm/b.json"].
Proof.
  intros r.
  assert (Hm : manifestFile twoEntriesDisk =
               Some (ManifestJson (PluginCache.getManifest twoEntriesDisk))) by reflexivity.
  destruct (purgeExpired_removes_fully_expired "/c" 50 301500 twoEntriesDisk _ Hm
              twoEntriesDisk_paths) as (H1 & H2 & _ & H4 & _).
  fold r in H1, H2, H4.
  split; [rewrite H1; reflexivity|]. split.
  - apply H4. vm_compute. now left.
  - unfold PluginCache.getManifest. rewrite H2. reflexivity.
Defined.

Lemma selected_of_kept sel (o : JsObject.t ManifestEntry.t) :
  selectedRows sel (keptRows sel o) = [].
Proof.
  unfold selectedRows, keptRows. induction o as [|[p row] o IH]; [reflexivity|].
  cbn. destruct (sel row) eqn:Hsel; cbn; [exact IH|]. now rewrite Hsel.
Qed.

Lemma kept_of_kept sel (o : JsObject.t ManifestEntry.t) :
  keptRows sel (keptRows sel o) = keptRows sel o.
Proof.
  unfold keptRows. induction o as [|[p row] o IH]; [reflexivity|].
  cbn. destruct (sel row) eqn:Hsel; cbn; [exact IH|]. rewrite Hsel. cbn. now rewrite IH.
Qed.

Lemma NoDup_keys_filter {V} (f : string * V -> bool) (o : JsObject.t V) :
  List.NoDup (JsObject.keys o) -> List.NoDup (JsObject.keys (List.filter f o)).
Proof.
  induction o as [|[p v] o IH]; cbn; intros Hnd; [constructor|].
  inversion Hnd as [|? ? Hnotin Hnd']; subst.
  destruct (f (p, v)); cbn; [|auto]. constructor; [|auto].
  intros Hin. apply Hnotin. unfold JsObject.keys in *.
  apply in_map_iff in Hin as (x & Hx & Hin). apply filter_In in Hin as [Hin _].
  apply in_map_iff. eauto.
Qed.

(** X3. A second purgeExpired at the same clock finds nothing to remove: on a
    manifest with unique paths it reports zero rows and zero bytes and leaves
    the disk as the first purge left it. *)
Theorem purgeExpired_twice dir swr now d m :
  manifestFile d = Some (ManifestJson m) ->
  List.NoDup (JsObject.keys (CacheManifest.entries m)) ->
  let first := Cleanup.purgeExpired Completes dir swr now d in
  let again := Cleanup.purgeExpired Completes dir swr now (snd first) in
  (exists total,
     fst again = Normal {| entriesRemoved := 0; bytesFreed := 0; newTotalSize := total |} /\
     fst first = Normal {| entriesRemoved :=
                             Z.of_nat (length (selectedRows (Cleanup.fullyExpired swr now)
                                                 (CacheManifest.entries m)));
                           bytesFreed :=
                             sumSizes (selectedRows (Cleanup.fullyExpired swr now)
                                         (CacheManifest.entries m));
                           newTotalSize := total |}) /\
  snd again = snd first.
Proof.
  intros Hm Hnd first again. subst again first.
  rewrite (purgeExpired_eq dir swr now d m Hm Hnd). cbn [fst snd].
  match goal with |- context [Cleanup.purgeExpired Completes dir swr now ?d1] =>
    rewrite (purgeExpired_eq dir swr now d1 _ eq_refl)
  end.
  - cbn [CacheManifest.entries CacheManifest.totalSize CacheManifest.version
         CacheManifest.maxSize files tempFiles fst snd].
    rewrite selected_of_kept, kept_of_kept.
    cbn [length sumSizes fold_right Z.of_nat JsObject.keys List.map unlinkPaths fold_left].
    rewrite Z.sub_0_r. split; [|reflexivity].
    eexists. split; reflexivity.
  - cbn [CacheManifest.entries]. now apply NoDup_keys_filter.
Qed.

Lemma purgeExpired_twice_witness :
  let first := Cleanup.purgeExpired Completes "/c" 50 301500 twoEntriesDisk in
  let again := Cleanup.purgeExpired Completes "/c" 50 301500 (snd first) in
  manifestFile twoEntriesDisk = Some (ManifestJson (PluginCache.getManifest twoEntriesDisk)) /\
  snd again = snd first.
Proof.
  intros first again. split; [reflexivity|].
  apply (purgeExpired_twice "/c" 50 301500 twoEntriesDisk
           (PluginCache.getManifest twoEntriesDisk) eq_refl twoEntriesDisk_paths).
Defined.

(** X4. clear of an instance and clearNamespace of its namespace on a cache
    root that has a manifest: both drop the same rows and report the same
    number of them.  clearNamespace then removes path.join(cacheDir,
    namespace) with all that lies inside it, entry files that were not listed
    included.  When the manifest lies there too (the namespace is empty, [.]
    or [..], say) clearNamespace leaves no manifest file at all; otherwise it
    leaves the manifest file that clear leaves. *)
Theorem clear_agrees_with_clearNamespace c dir d m :
  PluginCache.disabled c = false ->
  manifestFile d = Some (ManifestJson m) ->
  let viaInstance := PluginCache.clear Completes c d in
  let viaModule := Cleanup.clearNamespace Completes dir (PluginCache.namespace c) d in
  let namespaceDir := Path.join [dir; PluginCache.namespace c] in
  manifestFile (snd viaModule) =
    (if Path.contains namespaceDir (Path.join [dir; "manifest.json"]) then None
     else manifestFile (snd viaInstance)) /\
  (exists removed freed total,
     fst viaInstance = Normal removed /\
     fst viaModule = Normal {| entriesRemoved := removed; bytesFreed := freed;
                               newTotalSize := total |}) /\
  files (snd viaModule) = Cleanup.rmDir namespaceDir (files (snd viaInstance)).
Proof.
  intros Hon Hm viaInstance viaModule namespaceDir. subst viaInstance viaModule.
  unfold PluginCache.clear, Cleanup.clearNamespace, bind, Cleanup.readManifest.
  rewrite Hon, Hm. rewrite saveManifest_completes.
  unfold PluginCache.getManifest. rewrite Hm.
  unfold writeManifestFile, modify, ret, Cleanup.rmSync.
  cbn [fst snd manifestFile files withFiles withManifestFile]. fold namespaceDir.
  split; [reflexivity|]. split; [|reflexivity].
  do 3 eexists. split; reflexivity.
Qed.

Lemma clear_agrees_with_clearNamespace_witness :
  let rootCache :=
    PluginCache.new 7 {| cfg_namespace := ""; cfg_defaultTTL := None;
                         cfg_defaultStaleWhileRevalidate := None;
                         cfg_maxEntrySize := None; cfg_cacheDir := Some "/c";
                         cfg_disabled := None |} in
  PluginCache.disabled shopCache = false /\
  manifestFile (snd (Cleanup.clearNamespace Completes "/c" "shop" twoEntriesDisk)) =
    manifestFile (snd (PluginCache.clear Completes shopCache twoEntriesDisk)) /\
  files (snd (Cleanup.clearNamespace Completes "/c" "shop" twoEntriesDisk))
    !! "/c/crm/b.json" = files twoEntriesDisk !! "/c/crm/b.json" /\
  manifestFile (snd (Cleanup.clearNamespace Completes "/c" "" twoEntriesDisk)) = None /\
  files (snd (Cleanup.clearNamespace Completes "/c" "" twoEntriesDisk)) !! "/c/crm/b.json" = None.
Proof.
  intros rootCache.
  destruct (clear_agrees_with_clearNamespace shopCache "/c" twoEntriesDisk
              (PluginCache.getManifest twoEntriesDisk) eq_refl eq_refl) as (H1 & _ & H2).
  destruct (clear_agrees_with_clearNamespace rootCache "/c" twoEntriesDisk
              (PluginCache.getManifest twoEntriesDisk) eq_refl eq_refl) as (H3 & _ & H4).
  change (PluginCache.namespace shopCache) with "shop" in H1, H2.
  change (PluginCache.namespace rootCache) with "" in H3, H4.
  split; [reflexivity|]. split; [exact H1|]. split; [rewrite H2; reflexivity|].
  split; [exact H3|]. rewrite H4. reflexivity.
Defined.

Lemma sum_by_fold_left (rows : list ManifestEntry.t) acc :
  fold_left (fun n e => n + ManifestEntry.size e) rows acc = acc + sizeOfRows rows.
Proof.
  revert acc. induction rows as [|row rows IH]; intros acc; cbn [fold_left].
  - cbn. lia.
  - rewrite IH, sizeOfRows_cons. lia.
Qed.

(** X5. clearAll empties a cache root that has a manifest: no entry file is
    left, the manifest keeps its version and its maxSize and has no rows and
    totalSize 0, and the result reports the number of rows and the sum of
    their sizes. *)
Theorem clearAll_resets_the_cache dir now d m :
  manifestFile d = Some (ManifestJson m) ->
  Cleanup.clearAll Completes dir now d =
  (Normal {| entriesRemoved := Z.of_nat (length (CacheManifest.entries m));
             bytesFreed := sumSizes (CacheManifest.entries m);
             newTotalSize := 0 |},
   {| files := ∅;
      manifestFile :=
        Some (ManifestJson
                (CacheManifest.mk (CacheManifest.version m) 0 (CacheManifest.maxSize m)
                   [] (Some now)));
      tempFiles := tempFiles d |}).
Proof.
  intros Hm. unfold Cleanup.clearAll, bind, Cleanup.readManifest. rewrite Hm.
  cbn [fst snd ret writeManifestFile modify manifestFile files tempFiles withFiles
       withManifestFile].
  rewrite sum_by_fold_left, sumSizes_values. unfold JsObject.values.
  rewrite length_map, Z.add_0_l. reflexivity.
Qed.

Lemma clearAll_resets_the_cache_witness :
  Cleanup.clearAll Completes "/c" 5000 twoEntriesDisk =
  (Normal {| entriesRemoved := 2; bytesFreed := 12; newTotalSize := 0 |},
   {| files := ∅;
      manifestFile := Some (ManifestJson (CacheManifest.mk 1 0 20 [] (Some 5000)));
      tempFiles := tempFiles twoEntriesDisk |}).
Proof.
  rewrite (clearAll_resets_the_cache "/c" 5000 twoEntriesDisk
             (PluginCache.getManifest twoEntriesDisk) eq_refl).
  reflexivity.
Defined.

(** X6. A manifest file that does not parse stops the maintenance functions:
    performCleanup, cleanupIfNeeded, purgeExpired, clearNamespace and clearAll
    throw the parse error and leave the disk as it is, whatever the fate of a
    manifest write would be.  A set that is accepted (cache enabled, value
    within the per-entry maximum) repairs the root: the disk it leaves is
    consistent, and its manifest lists no path but the one just written.  (A
    set whose expiry time is not a valid Date has thrown a RangeError before
    it read the manifest, and leaves the disk as it is.) *)
Theorem corrupt_manifest_stops_maintenance fate dir ns swr now d :
  manifestFile d = Some ManifestGarbage ->
  Cleanup.performCleanup fate dir now None d = (Throw SyntaxError, d) /\
  Cleanup.cleanupIfNeeded fate dir now d = (Throw SyntaxError, d) /\
  Cleanup.purgeExpired fate dir swr now d = (Throw SyntaxError, d) /\
  Cleanup.clearNamespace fate dir ns d = (Throw SyntaxError, d) /\
  Cleanup.clearAll fate dir now d = (Throw SyntaxError, d) /\
  forall c key data options,
    PluginCache.disabled c = false ->
    Z.of_nat (String.length data) <= PluginCache.maxEntrySize c ->
    let r := PluginCache.set Completes c key data options now d in
    let d' := snd r in
    if JsDate.isValid (now + PluginCache.orElse (set_ttl options) (PluginCache.defaultTTL c))
    then
      consistent d' /\
      forall p row,
        In (p, row) (CacheManifest.entries (PluginCache.getManifest d')) ->
        p = PluginCache.getFilePath c key
    else r = (Throw RangeError, d).
Proof.
  intros Hm.
  repeat match goal with |- _ /\ _ => split end.
  1-5: unfold Cleanup.performCleanup, Cleanup.cleanupIfNeeded, Cleanup.purgeExpired,
         Cleanup.clearNamespace, Cleanup.clearAll, bind, Cleanup.readManifest;
       rewrite Hm; reflexivity.
  intros c key data options Hon Hfit r d'. subst d' r.
  destruct (JsDate.isValid
              (now + PluginCache.orElse (set_ttl options) (PluginCache.defaultTTL c)))
    eqn:Hdate;
    [|exact (set_out_of_range_eq Completes c key data options now d Hon Hfit Hdate)].
  rewrite set_accepted_eq by assumption. rewrite cleanupIfNeeded_eq.
  set (before := written c key data options now d).
  assert (Hrows : CacheManifest.entries (PluginCache.getManifest before) =
                  [(PluginCache.getFilePath c key,
                    PluginCache.newRow c key (Z.of_nat (String.length data)) now
                      (now + PluginCache.orElse (set_ttl options) (PluginCache.defaultTTL c)))]).
  { unfold before, written, PluginCache.getManifest. cbn [manifestFile].
    rewrite Hm. reflexivity. }
  assert (Hcb : consistent before).
  { unfold consistent. change (manifestFile before) with
      (Some (ManifestJson (PluginCache.getManifest before))). cbv iota.
    rewrite Hrows. repeat split.
    - repeat constructor. intros [].
    - intros p row [Heq|[]]. now injection Heq as <- <-.
    - unfold accounted. rewrite Hrows.
      unfold before, written, PluginCache.getManifest. cbn [manifestFile]. rewrite Hm.
      cbn. lia.
    - intros p row e [Heq|[]] Hp. injection Heq as <- <-.
      unfold before, written in Hp. cbn [files] in Hp.
      rewrite lookup_insert_eq in Hp. now injection Hp as <-. }
  set (m := PluginCache.getManifest before) in *.
  change (manifestFile before) with (Some (ManifestJson m)).
  cbv iota.
  destruct (Cleanup.belowThreshold _ _).
  - cbn [snd]. split; [exact Hcb|].
    intros p row Hin. fold m in Hin. rewrite Hrows in Hin.
    destruct Hin as [Heq|[]]. now injection Heq.
  - pose proof Hcb as Hcb'. unfold consistent in Hcb'.
    change (manifestFile before) with (Some (ManifestJson m)) in Hcb'.
    destruct Hcb' as (Hk & Ha & Hr).
    pose proof (performCleanupOn_consistent now m before Hk Ha Hr) as Hafter.
    destruct (performCleanupOn_eq now m before) as (n & _ & Heq & _).
    cbv zeta in Heq. rewrite Heq in Hafter |- *. cbn [snd] in Hafter |- *.
    split; [exact Hafter|].
    intros p row Hin.
    change (In (p, row)
              (dropRows (firstn n (Cleanup.sortByAccess
                                     (JsObject.values (CacheManifest.entries m))))
                 (CacheManifest.entries m))) in Hin.
    apply dropRows_In in Hin as [Hin _].
    rewrite Hrows in Hin. destruct Hin as [Heq'|[]]. now injection Heq'.
Qed.

Lemma corrupt_manifest_stops_maintenance_witness :
  let d := withManifestFile (Some ManifestGarbage) twoEntriesDisk in
  Cleanup.purgeExpired Completes "/c" 50 301500 d = (Throw SyntaxError, d) /\
  consistent (snd (PluginCache.set Completes shopCache "c" "[1234]" plainSet 3000 d)).
Proof.
  intros d.
  destruct (corrupt_manifest_stops_maintenance Completes "/c" "shop" 50 301500 d eq_refl)
    as (_ & _ & H3 & _).
  split; [exact H3|].
  destruct (corrupt_manifest_stops_maintenance Completes "/c" "shop" 50 3000 d eq_refl)
    as (_ & _ & _ & _ & _ & Hset).
  refine (proj1 (Hset shopCache "c" "[1234]" plainSet eq_refl _)).
  vm_compute. discriminate.
Defined.

(** ** Single entries: invalidate and get *)

Lemma saveManifest_files fate c m d :
  files (snd (PluginCache.saveManifest fate c m d)) = files d.
Proof.
  destruct fate; [now rewrite saveManifest_completes|..];
    match goal with |- context [PluginCache.saveManifest ?f c m d] =>
      destruct (saveManifest_fails f c m d ltac:(discriminate)) as (d' & -> & Hf & _)
    end; exact Hf.
Qed.

Lemma invalidate_nothing_to_do fate c key d :
  PluginCache.disabled c = true \/
  files d !! PluginCache.getFilePath c key = None \/
  files d !! PluginCache.getFilePath c key = Some EntryGarbage ->
  PluginCache.invalidate fate c key d = (false, d).
Proof.
  unfold PluginCache.invalidate. intros [->|[->| ->]]; [reflexivity| |];
    destruct (PluginCache.disabled c); reflexivity.
Qed.

Lemma invalidate_leaves_no_entry fate c key d :
  PluginCache.disabled c = true \/
  files (snd (PluginCache.invalidate fate c key d)) !! PluginCache.getFilePath c key = None \/
  files (snd (PluginCache.invalidate fate c key d)) !! PluginCache.getFilePath c key =
    Some EntryGarbage.
Proof.
  unfold PluginCache.invalidate.
  destruct (PluginCache.disabled c); [now left|right].
  destruct (files d !! PluginCache.getFilePath c key) as [[entry|]|] eqn:Hfile;
    [|right; exact Hfile|left; exact Hfile].
  left. cbv zeta. destruct (JsObject.get _ _) as [row|].
  - match goal with |- context [PluginCache.saveManifest fate c ?m ?d0] =>
      pose proof (saveManifest_files fate c m d0) as Hf;
      destruct (PluginCache.saveManifest fate c m d0) as [[[]|e] d2]
    end; cbn [snd] in Hf |- *; rewrite Hf; cbn; apply lookup_delete_eq.
  - cbn. apply lookup_delete_eq.
Qed.

(** X7. invalidate is idempotent: whatever a first invalidate of a key did,
    a second one right after it returns false and changes nothing, under any
    fate of the manifest write. *)
Theorem invalidate_twice fate c key d :
  let once := snd (PluginCache.invalidate fate c key d) in
  PluginCache.invalidate fate c key once = (false, once).
Proof.
  cbv zeta. apply invalidate_nothing_to_do, invalidate_leaves_no_entry.
Qed.

(** X8. What invalidate changes: for an entry file that parses it returns
    true, unlinks that file and no other, deletes the row filed under the path
    and no other, and lowers totalSize by the size recorded in the entry file
    when a row was filed (by nothing when none was). *)
Theorem invalidate_removes_one_entry c key d entry :
  PluginCache.disabled c = false ->
  files d !! PluginCache.getFilePath c key = Some (EntryJson entry) ->
  let filePath := PluginCache.getFilePath c key in
  let m := PluginCache.getManifest d in
  let r := PluginCache.invalidate Completes c key d in
  let m' := PluginCache.getManifest (snd r) in
  fst r = true /\
  files (snd r) = base.delete filePath (files d) /\
  CacheManifest.entries m' = JsObject.delete filePath (CacheManifest.entries m) /\
  (forall p, p <> filePath ->
     JsObject.get p (CacheManifest.entries m') = JsObject.get p (CacheManifest.entries m)) /\
  CacheManifest.totalSize m' =
    CacheManifest.totalSize m -
    match JsObject.get filePath (CacheManifest.entries m) with
    | Some _ => CacheEntry.size entry
    | None => 0
    end.
Proof.
  intros Hon Hfile filePath m r m'. subst r m'.
  unfold PluginCache.invalidate. rewrite Hon, Hfile. cbv zeta. fold filePath.
  change (PluginCache.getManifest (withFiles _ d)) with m.
  destruct (JsObject.get filePath (CacheManifest.entries m)) as [row|] eqn:Hrow.
  - rewrite saveManifest_completes. cbn.
    repeat split; try reflexivity. intros p Hne. now apply get_delete_ne.
  - cbn [fst snd files withFiles].
    change (PluginCache.getManifest (withFiles (base.delete filePath (files d)) d)) with m.
    repeat split; try reflexivity.
    + symmetry. apply delete_absent. now apply get_None_notin.
    + lia.
Qed.

Lemma invalidate_removes_one_entry_witness :
  let r := PluginCache.invalidate Completes shopCache "a" twoEntriesDisk in
  fst r = true /\
  files (snd r) = base.delete "/c/shop/a.json" (files twoEntriesDisk) /\
  CacheManifest.totalSize (PluginCache.getManifest (snd r)) = 6.
Proof.
  intros r.
  assert (Hfile : files twoEntriesDisk !! PluginCache.getFilePath shopCache "a" =
                  Some (EntryJson (newEntry shopCache "[1234]" plainSet 1000)))
    by reflexivity.
  destruct (invalidate_removes_one_entry shopCache "a" twoEntriesDisk _ eq_refl Hfile)
    as (H1 & H2 & _ & _ & H5).
  fold r in H1, H2, H5.
  split; [exact H1|]. split; [exact H2|]. rewrite H5. reflexivity.
Defined.

Lemma keys_set_present {V} (o : JsObject.t V) k v w :
  JsObject.get k o = Some w -> JsObject.keys (JsObject.set k v o) = JsObject.keys o.
Proof.
  unfold JsObject.keys. induction o as [|[k' v'] o IH]; cbn; [discriminate|].
  destruct (String.eqb_spec k k') as [->|Hne]; cbn; [reflexivity|].
  intros H. f_equal. now apply IH.
Qed.

(** X9. What a hit changes: when get finds an entry that is not past its
    expiry time, or not past its window (one that ends inside the range of a
    Date), it sets lastAccessedAt to now in the entry file and in the row
    filed under its path, and nothing else: the data, size and expiry of the
    entry, every other file, every other row, the order of the rows,
    totalSize and maxSize stay as they were. *)
Theorem get_hit_refreshes_access_time_only c key options now d stored :
  PluginCache.disabled c = false ->
  files d !! PluginCache.getFilePath c key = Some (EntryJson stored) ->
  (let E := CacheEntry.expiresAt stored in
   let W := PluginCache.orElse (get_staleWhileRevalidate options) (PluginCache.defaultSWR c) in
   now <= E \/ (now <= E + W /\ JsDate.isValid (E + W) = true)) ->
  let filePath := PluginCache.getFilePath c key in
  let m := PluginCache.getManifest d in
  let r := PluginCache.get Completes c key options now d in
  let m' := PluginCache.getManifest (snd r) in
  hit (fst r) = true /\
  res_entry (fst r) = Some (CacheEntry.touch now stored) /\
  files (snd r) = <[filePath := EntryJson (CacheEntry.touch now stored)]> (files d) /\
  JsObject.keys (CacheManifest.entries m') = JsObject.keys (CacheManifest.entries m) /\
  JsObject.get filePath (CacheManifest.entries m') =
    option_map (ManifestEntry.touch now) (JsObject.get filePath (CacheManifest.entries m)) /\
  (forall p, p <> filePath ->
     JsObject.get p (CacheManifest.entries m') = JsObject.get p (CacheManifest.entries m)) /\
  CacheManifest.totalSize m' = CacheManifest.totalSize m /\
  CacheManifest.maxSize m' = CacheManifest.maxSize m.
Proof.
  intros Hon Hfile Hwindow filePath m r m'. subst r m'. cbv zeta in Hwindow.
  rewrite (get_stored_eq c key options now d stored Hon Hfile).
  assert (Hhit : (CacheEntry.expiresAt stored <? now) &&
                 negb (JsDate.notAfter now
                         (CacheEntry.expiresAt stored +
                          PluginCache.orElse (get_staleWhileRevalidate options)
                            (PluginCache.defaultSWR c))) = false).
  { destruct Hwindow as [Hfresh|[Hin Hvalid]].
    - apply andb_false_iff. left. apply Z.ltb_ge. exact Hfresh.
    - apply andb_false_iff. right. apply negb_false_iff, notAfter_true. auto. }
  rewrite Hhit. cbn [fst snd hitResult hit res_entry].
  rewrite refreshed_files. fold filePath.
  split; [reflexivity|]. split; [reflexivity|]. split; [reflexivity|].
  unfold refreshed. fold filePath m.
  destruct (JsObject.get filePath (CacheManifest.entries m)) as [row|] eqn:Hrow.
  - rewrite saveManifest_completes. cbn.
    repeat split.
    + eapply keys_set_present; eauto.
    + apply get_set_eq.
    + intros p Hne. now apply get_set_ne.
  - cbn [snd]. change (PluginCache.getManifest (withFiles _ d)) with m.
    repeat split. exact Hrow.
Qed.

Lemma get_hit_refreshes_access_time_only_witness :
  let r := PluginCache.get Completes shopCache "a" plainGet 2500 twoEntriesDisk in
  hit (fst r) = true /\
  files (snd r) !! "/c/crm/b.json" = files twoEntriesDisk !! "/c/crm/b.json" /\
  CacheManifest.totalSize (PluginCache.getManifest (snd r)) = 12.
Proof.
  intros r.
  assert (Hfile : files twoEntriesDisk !! PluginCache.getFilePath shopCache "a" =
                  Some (EntryJson (newEntry shopCache "[1234]" plainSet 1000)))
    by reflexivity.
  destruct (get_hit_refreshes_access_time_only shopCache "a" plainGet 2500 twoEntriesDisk _
              eq_refl Hfile) as (H1 & _ & H3 & _ & _ & _ & H7 & _).
  { left. vm_compute. discriminate. }
  fold r in H1, H3, H7.
  split; [exact H1|]. split; [rewrite H3; reflexivity|rewrite H7; reflexivity].
Defined.

(** ** The size budget *)

(** X10. The budget after a write: on a consistent disk whose effective
    maxSize is positive, the manifest an accepted set leaves behind is below
    the cleanup trigger, 90% of maxSize, and keeps its maxSize.  (A set whose
    expiry time is not a valid Date has thrown a RangeError instead, and
    leaves the disk as it is.) *)
Theorem set_leaves_total_below_trigger c key data options now d :
  PluginCache.disabled c = false ->
  Z.of_nat (String.length data) <= PluginCache.maxEntrySize c ->
  consistent d ->
  0 < Cleanup.effectiveMaxSize (PluginCache.getManifest d) ->
  let r := PluginCache.set Completes c key data options now d in
  let m' := PluginCache.getManifest (snd r) in
  CacheManifest.maxSize m' = CacheManifest.maxSize (PluginCache.getManifest d) /\
  if JsDate.isValid (now + PluginCache.orElse (set_ttl options) (PluginCache.defaultTTL c))
  then 10 * CacheManifest.totalSize m' < 9 * Cleanup.effectiveMaxSize m'
  else r = (Throw RangeError, d).
Proof.
  intros Hon Hfit Hc Hpos r m'. subst m' r.
  destruct (JsDate.isValid
              (now + PluginCache.orElse (set_ttl options) (PluginCache.defaultTTL c)))
    eqn:Hdate.
  2:{ rewrite (set_out_of_range_eq Completes c key data options now d Hon Hfit Hdate).
      split; reflexivity. }
  rewrite set_accepted_eq by assumption. rewrite cleanupIfNeeded_eq.
  set (before := written c key data options now d).
  set (m := PluginCache.getManifest before).
  assert (Hmax : CacheManifest.maxSize m = CacheManifest.maxSize (PluginCache.getManifest d))
    by reflexivity.
  assert (Heff : Cleanup.effectiveMaxSize m = Cleanup.effectiveMaxSize (PluginCache.getManifest d))
    by reflexivity.
  change (manifestFile before) with (Some (ManifestJson m)). cbv iota.
  unfold Cleanup.belowThreshold.
  destruct (Z.ltb_spec (10 * CacheManifest.totalSize m) (9 * Cleanup.effectiveMaxSize m))
    as [Hlow|Hhigh].
  - cbn [snd]. fold m. split; [exact Hmax|exact Hlow].
  - destruct (performCleanupOn_eq now m before) as (n & Hn & Heq & Hstop & _).
    cbv zeta in Hn, Heq, Hstop. rewrite Heq. cbn [snd].
    unfold PluginCache.getManifest at 1 3 4. cbn [manifestFile].
    cbn [CacheManifest.maxSize CacheManifest.totalSize].
    unfold Cleanup.effectiveMaxSize at 1. cbn [CacheManifest.maxSize].
    fold (Cleanup.effectiveMaxSize m).
    split; [exact Hmax|]. rewrite Heff in *.
    destruct Hstop as [Hstop|Hall].
    + apply reachedTarget_below_trigger in Hstop; [exact Hstop|exact Hpos].
    + rewrite Hall, firstn_all.
      pose proof (written_consistent c key data options now d Hc) as Hcb.
      fold before in Hcb. unfold consistent in Hcb.
      change (manifestFile before) with (Some (ManifestJson m)) in Hcb.
      destruct Hcb as (_ & Ha & _). unfold accounted in Ha.
      rewrite (sizeOfRows_perm _ _ (sortByAccess_perm _)), <- sumSizes_values, <- Ha. lia.
Qed.

Lemma set_leaves_total_below_trigger_witness :
  let m' := PluginCache.getManifest
              (snd (PluginCache.set Completes shopCache "c" "[1234]" plainSet 3000
                      twoEntriesDisk)) in
  0 < Cleanup.effectiveMaxSize (PluginCache.getManifest twoEntriesDisk) /\
  10 * CacheManifest.totalSize m' < 9 * Cleanup.effectiveMaxSize m'.
Proof.
  intros m'. split; [reflexivity|].
  refine (proj2 (set_leaves_total_below_trigger shopCache "c" "[1234]" plainSet 3000
                   twoEntriesDisk eq_refl _ twoEntriesDisk_consistent eq_refl)).
  vm_compute. discriminate.
Defined.

Lemma evict_nothing_when_reached maxSize todo s :
  Cleanup.reachedTarget maxSize (Cleanup.currentSize s) = true ->
  Cleanup.evict maxSize todo s = s.
Proof. intros H. destruct todo; cbn; [reflexivity|]. now rewrite H. Qed.

(** X11. A forced cleanup of a cache whose totalSize is at or below the
    target as the code computes it, the double maxSize * 0.7, removes
    nothing: it reports zero rows and zero bytes, and the only change on disk
    is the lastCleanup stamp of the manifest. *)
Theorem performCleanup_at_target_only_stamps dir now d m :
  manifestFile d = Some (ManifestJson m) ->
  Cleanup.reachedTarget (Cleanup.effectiveMaxSize m) (CacheManifest.totalSize m) = true ->
  Cleanup.performCleanup Completes dir now None d =
  (Normal {| entriesRemoved := 0; bytesFreed := 0;
             newTotalSize := CacheManifest.totalSize m |},
   withManifestFile (Some (ManifestJson (CacheManifest.withLastCleanup now m))) d).
Proof.
  intros Hm Hlow.
  unfold Cleanup.performCleanup, bind, Cleanup.readManifest. rewrite Hm.
  unfold Cleanup.performCleanupOn. rewrite evict_nothing_when_reached.
  - destruct m. reflexivity.
  - cbn [Cleanup.currentSize]. exact Hlow.
Qed.

Lemma performCleanup_at_target_only_stamps_witness :
  fst (Cleanup.performCleanup Completes "/c" 5000 None twoEntriesDisk) =
    Normal {| entriesRemoved := 0; bytesFreed := 0; newTotalSize := 12 |} /\
  files (snd (Cleanup.performCleanup Completes "/c" 5000 None twoEntriesDisk)) =
    files twoEntriesDisk.
Proof.
  rewrite (performCleanup_at_target_only_stamps "/c" 5000 twoEntriesDisk
             (PluginCache.getManifest twoEntriesDisk) eq_refl).
  - split; reflexivity.
  - vm_compute. reflexivity.
Defined.

Lemma length_delete_present {V} (o : JsObject.t V) k :
  List.NoDup (JsObject.keys o) -> In k (JsObject.keys o) ->
  S (length (JsObject.delete k o)) = length o.
Proof.
  induction o as [|[k' v'] o IH]; cbn; [tauto|].
  intros Hnd Hin. inversion Hnd as [|? ? Hnotin Hnd']; subst.
  destruct (String.eqb_spec k k') as [->|Hne].
  - now rewrite delete_absent.
  - cbn. f_equal. apply IH; [exact Hnd'|]. destruct Hin; [congruence|assumption].
Qed.

Lemma dropRows_length rows o :
  wellKeyed o ->
  List.NoDup (List.map ManifestEntry.filePath rows) ->
  (forall row, In row rows -> In (ManifestEntry.filePath row, row) o) ->
  (length (dropRows rows o) + length rows)%nat = length o.
Proof.
  revert o. induction rows as [|row rows IH]; intros o Hk Hnd Hin.
  - cbn. lia.
  - cbn [dropRows fold_left].
    fold (dropRows rows (JsObject.delete (ManifestEntry.filePath row) o)).
    cbn [List.map] in Hnd. inversion Hnd as [|? ? Hnotin Hnd']; subst.
    rewrite <- (length_delete_present o (ManifestEntry.filePath row) (proj1 Hk)
                  (In_keys _ _ _ (Hin row (or_introl eq_refl)))).
    rewrite <- (IH (JsObject.delete (ManifestEntry.filePath row) o)).
    + cbn [length]. lia.
    + now apply wellKeyed_delete.
    + exact Hnd'.
    + intros r Hr. apply In_delete; [apply Hin; now right|].
      intros Heq. apply Hnotin. rewrite <- Heq.
      exact (in_map ManifestEntry.filePath _ _ Hr).
Qed.

Lemma NoDup_firstn {A} (l : list A) n : List.NoDup l -> List.NoDup (firstn n l).
Proof.
  intros H. rewrite <- (firstn_skipn n l) in H. eapply NoDup_app_remove_r. exact H.
Qed.

(** X12. What a cleanup reports is what it did: on a manifest as the code
    writes it, entriesRemoved is the number of rows that left the manifest,
    bytesFreed the amount by which totalSize went down, newTotalSize the
    totalSize written; version and maxSize are kept and lastCleanup is the
    time of the call. *)
Theorem performCleanup_reports_its_effect dir now d m :
  manifestFile d = Some (ManifestJson m) ->
  wellKeyed (CacheManifest.entries m) ->
  exists result,
    fst (Cleanup.performCleanup Completes dir now None d) = Normal result /\
    let m' := PluginCache.getManifest (snd (Cleanup.performCleanup Completes dir now None d)) in
    newTotalSize result = CacheManifest.totalSize m' /\
    bytesFreed result = CacheManifest.totalSize m - CacheManifest.totalSize m' /\
    entriesRemoved result =
      Z.of_nat (length (CacheManifest.entries m)) -
      Z.of_nat (length (CacheManifest.entries m')) /\
    CacheManifest.version m' = CacheManifest.version m /\
    CacheManifest.maxSize m' = CacheManifest.maxSize m /\
    CacheManifest.lastCleanup m' = Some now.
Proof.
  intros Hm Hk.
  unfold Cleanup.performCleanup, bind, Cleanup.readManifest. rewrite Hm.
  destruct (performCleanupOn_eq now m d) as (n & Hn & Heq & _).
  cbv zeta in Hn, Heq. rewrite Heq. eexists. split; [reflexivity|].
  cbn.
  set (sorted := Cleanup.sortByAccess (JsObject.values (CacheManifest.entries m))) in *.
  assert (Hlen : (length (dropRows (firstn n sorted) (CacheManifest.entries m)) +
                  length (firstn n sorted))%nat = length (CacheManifest.entries m)).
  { apply dropRows_length; [exact Hk| |].
    - rewrite <- firstn_map. apply NoDup_firstn. now apply sorted_rows_distinct.
    - intros row Hin. apply sorted_rows_listed; [exact Hk|].
      eapply firstn_In. exact Hin. }
  repeat split; lia.
Qed.

Lemma performCleanup_reports_its_effect_witness :
  let d := written shopCache "c" "[1234]" plainSet 3000 twoEntriesDisk in
  exists result,
    fst (Cleanup.performCleanup Completes "/c" 4000 None d) = Normal result /\
    newTotalSize result =
      CacheManifest.totalSize
        (PluginCache.getManifest (snd (Cleanup.performCleanup Completes "/c" 4000 None d))) /\
    bytesFreed result = 18 - newTotalSize result.
Proof.
  intros d.
  assert (Hk : wellKeyed (CacheManifest.entries (PluginCache.getManifest d))).
  { apply (consistent_getManifest d).
    apply written_consistent, twoEntriesDisk_consistent. }
  destruct (performCleanup_reports_its_effect "/c" 4000 d (PluginCache.getManifest d)
              eq_refl Hk) as (result & H1 & H2 & H3 & _).
  exists result. split; [exact H1|]. split; [exact H2|].
  rewrite H3, H2. reflexivity.
Defined.

(** ** The kill switch, keys and paths *)

(** X13. A disabled instance does nothing: after disable every operation
    returns its empty result and leaves the disk as it is, under any fate of
    manifest writes; getOrFetch still calls the producer, once, hands its
    outcome on and stores nothing. *)
Theorem disabled_instance_is_inert fate c key data test fetcher
    setOpts getOpts fetchOpts now later d :
  let off := PluginCache.disable c in
  PluginCache.isDisabled off = true /\
  PluginCache.get fate off key getOpts now d = (PluginCache.miss, d) /\
  PluginCache.set fate off key data setOpts now d = (Normal tt, d) /\
  PluginCache.invalidate fate off key d = (false, d) /\
  PluginCache.invalidatePattern fate off test d = (0, d) /\
  PluginCache.clear fate off d = (Normal 0, d) /\
  PluginCache.has off key d = false /\
  PluginCache.getValidator off key d = None /\
  PluginCache.keys off d = [] /\
  PluginCache.getStats off now d = PluginCache.noStats c /\
  PluginCache.getOrFetch fate off key fetcher fetchOpts now later d =
    ({| PluginCache.outcome := match fetcher with
                               | PluginCache.Resolves v => Normal v
                               | PluginCache.Rejects e => Throw e
                               end;
        PluginCache.producerCalls := 1 |}, d).
Proof.
  cbv zeta. repeat split. destruct fetcher; reflexivity.
Qed.

Lemma isSafeChar_underscore : PluginCache.isSafeChar "_"%char = true.
Proof. reflexivity. Qed.

(** X14. Key sanitization: the file name of a key has as many characters as
    the key, consists of characters of [A-Za-z0-9_-] only, is left as it is by
    a second sanitization, and is the key itself when the key has no other
    characters. *)
Theorem sanitize_yields_safe_names key :
  let safe a := PluginCache.isSafeChar a = true in
  String.length (PluginCache.sanitize key) = String.length key /\
  Forall safe (list_ascii_of_string (PluginCache.sanitize key)) /\
  PluginCache.sanitize (PluginCache.sanitize key) = PluginCache.sanitize key /\
  (Forall safe (list_ascii_of_string key) -> PluginCache.sanitize key = key).
Proof.
  cbv zeta. induction key as [|a key (IH1 & IH2 & IH3 & IH4)]; cbn.
  - repeat split; auto.
  - destruct (PluginCache.isSafeChar a) eqn:Ha.
    + repeat split.
      * now rewrite IH1.
      * constructor; [exact Ha|exact IH2].
      * now rewrite Ha, IH3.
      * intros Hall. rewrite IH4; [reflexivity|]. now inversion Hall.
    + repeat split.
      * now rewrite IH1.
      * constructor; [exact isSafeChar_underscore|exact IH2].
      * now rewrite isSafeChar_underscore, IH3.
      * intros Hall. inversion Hall as [|? ? Hsafe _]; subst. congruence.
Qed.

Lemma append_cons (a : ascii) (x y : string) :
  (String a x ++ y)%string = String a (x ++ y)%string.
Proof. reflexivity. Qed.









Lemma truthy_idempotent o : PluginCache.truthy (PluginCache.truthy o) = PluginCache.truthy o.
Proof. destruct o as [[|a s]|]; reflexivity. Qed.



(** ** Statistics and key listings *)

Lemma statsStep_other c now s row :
  inNamespace (PluginCache.namespace c) row = false ->
  PluginCache.statsStep c now s row = s.
Proof.
  unfold inNamespace, PluginCache.statsStep. now intros ->.
Qed.

Lemma fold_stats_own_rows c now l s :
  fold_left (PluginCache.statsStep c now) l s =
  fold_left (PluginCache.statsStep c now)
    (List.filter (inNamespace (PluginCache.namespace c)) l) s.
Proof.
  revert s. induction l as [|row l IH]; intros s; [reflexivity|].
  cbn [fold_left List.filter].
  destruct (inNamespace (PluginCache.namespace c) row) eqn:Hrow.
  - cbn [fold_left]. apply IH.
  - rewrite statsStep_other by exact Hrow. apply IH.
Qed.

Lemma stats_counts c now l :
  Forall (fun row => inNamespace (PluginCache.namespace c) row = true) l ->
  forall s,
    let s' := fold_left (PluginCache.statsStep c now) l s in
    stats_namespace s' = stats_namespace s /\
    entryCount s' = entryCount s + Z.of_nat (length l) /\
    stats_totalSize s' = stats_totalSize s + sizeOfRows l /\
    expiredCount s' =
      expiredCount s +
      Z.of_nat (length (List.filter (Cleanup.fullyExpired (PluginCache.defaultSWR c) now) l)) /\
    staleCount s' =
      staleCount s +
      Z.of_nat (length (List.filter (staleOnly (PluginCache.defaultSWR c) now) l)).
Proof.
  induction 1 as [|row l Hrow _ IH]; intros s.
  - cbn. repeat split; lia.
  - cbn [fold_left]. destruct (IH (PluginCache.statsStep c now s row)) as (H1 & H2 & H3 & H4 & H5).
    cbv zeta. rewrite H1, H2, H3, H4, H5. rewrite sizeOfRows_cons.
    unfold PluginCache.statsStep. unfold inNamespace in Hrow. rewrite Hrow.
    cbn [negb stats_namespace entryCount stats_totalSize expiredCount staleCount
         List.filter length].
    unfold staleOnly.
    destruct (Cleanup.fullyExpired (PluginCache.defaultSWR c) now row) eqn:Hfull;
      [unfold Cleanup.fullyExpired in Hfull; rewrite Hfull
      |unfold Cleanup.fullyExpired in Hfull; rewrite Hfull];
      destruct (ManifestEntry.expiresAt row <? now);
      cbn [negb andb length]; repeat split; lia.
Qed.

Lemma stats_bounds c now l :
  Forall (fun row => inNamespace (PluginCache.namespace c) row = true) l ->
  forall s seen,
    accessBounds (oldestEntry s) (newestEntry s) seen ->
    let s' := fold_left (PluginCache.statsStep c now) l s in
    accessBounds (oldestEntry s') (newestEntry s') (seen ++ l).
Proof.
  induction 1 as [|row l Hrow _ IH]; intros s seen Hb.
  - cbn. now rewrite app_nil_r.
  - cbn [fold_left]. cbv zeta.
    replace (seen ++ row :: l)%list with ((seen ++ [row]) ++ l)%list
      by (now rewrite <- app_assoc).
    apply IH. clear IH.
    unfold PluginCache.statsStep. unfold inNamespace in Hrow. rewrite Hrow.
    cbn [negb oldestEntry newestEntry]. unfold accessBounds in *.
    destruct (oldestEntry s) as [o|], (newestEntry s) as [n|]; try contradiction.
    + destruct Hb as (Hall & (ro & Hro & Heqo) & (rn & Hrn & Heqn)).
      assert (Hon : o <= n) by (specialize (Hall ro Hro); lia).
      destruct (Z.ltb_spec (ManifestEntry.lastAccessedAt row) o);
        destruct (Z.ltb_spec n (ManifestEntry.lastAccessedAt row)); try lia.
      * split; [|split].
        -- intros r Hr. apply in_app_or in Hr as [Hr|[<-|[]]]; [|lia].
           specialize (Hall r Hr). lia.
        -- exists row. split; [apply in_or_app; right; now left|reflexivity].
        -- exists rn. split; [apply in_or_app; now left|exact Heqn].
      * split; [|split].
        -- intros r Hr. apply in_app_or in Hr as [Hr|[<-|[]]]; [|lia].
           specialize (Hall r Hr). lia.
        -- exists ro. split; [apply in_or_app; now left|exact Heqo].
        -- exists row. split; [apply in_or_app; right; now left|reflexivity].
      * split; [|split].
        -- intros r Hr. apply in_app_or in Hr as [Hr|[<-|[]]]; [|lia].
           specialize (Hall r Hr). lia.
        -- exists ro. split; [apply in_or_app; now left|exact Heqo].
        -- exists rn. split; [apply in_or_app; now left|exact Heqn].
    + subst seen. cbn. split; [|split].
      * intros r [<-|[]]. lia.
      * exists row. split; [now left|reflexivity].
      * exists row. split; [now left|reflexivity].
Qed.

Lemma filter_all_true {A} (f : A -> bool) l :
  Forall (fun x => f x = true) (List.filter f l).
Proof.
  apply List.Forall_forall. intros x Hx. now apply filter_In in Hx.
Qed.

(** X17. getStats describes the rows of its namespace: entryCount is their
    number, which is the number of keys that keys lists, totalSize the sum of
    their sizes, expiredCount the number of them past expiresAt + defaultSWR,
    staleCount the number past expiresAt only, and oldestEntry and newestEntry
    the least and the greatest lastAccessedAt among them, both missing when
    the namespace has no rows. *)
Theorem getStats_describes_own_rows c now d :
  PluginCache.disabled c = false ->
  let s := PluginCache.getStats c now d in
  let own := ownRows c d in
  stats_namespace s = PluginCache.namespace c /\
  PluginCache.keys c d = List.map ManifestEntry.key own /\
  entryCount s = Z.of_nat (length (PluginCache.keys c d)) /\
  stats_totalSize s = sizeOfRows own /\
  expiredCount s =
    Z.of_nat (length (List.filter (Cleanup.fullyExpired (PluginCache.defaultSWR c) now) own)) /\
  staleCount s =
    Z.of_nat (length (List.filter (staleOnly (PluginCache.defaultSWR c) now) own)) /\
  expiredCount s + staleCount s <= entryCount s /\
  accessBounds (oldestEntry s) (newestEntry s) own.
Proof.
  intros Hon s own. subst s.
  unfold PluginCache.getStats, PluginCache.keys. rewrite Hon.
  rewrite fold_stats_own_rows. fold (ownRows c d). fold own.
  pose proof (filter_all_true (inNamespace (PluginCache.namespace c))
                (JsObject.values (CacheManifest.entries (PluginCache.getManifest d)))) as Hown.
  fold (ownRows c d) in Hown. fold own in Hown.
  destruct (stats_counts c now own Hown (PluginCache.noStats c)) as (H1 & H2 & H3 & H4 & H5).
  pose proof (stats_bounds c now own Hown (PluginCache.noStats c) [] eq_refl) as H6.
  cbv zeta in H6. cbn [app] in H6.
  rewrite H1, H2, H3, H4, H5. cbn [PluginCache.noStats stats_namespace entryCount
    stats_totalSize expiredCount staleCount]. rewrite length_map, !Z.add_0_l.
  repeat split; try reflexivity; [|exact H6].
  assert (Hsplit : (length (List.filter (Cleanup.fullyExpired (PluginCache.defaultSWR c) now) own) +
                    length (List.filter (staleOnly (PluginCache.defaultSWR c) now) own)
                    <= length own)%nat).
  { clear. induction own as [|row own IH]; [cbn; lia|].
    cbn [List.filter]. unfold staleOnly at 1.
    destruct (Cleanup.fullyExpired _ _ row); cbn [negb andb length]; [lia|].
    destruct (_ <? _); cbn [length]; lia. }
  lia.
Qed.

Lemma getStats_describes_own_rows_witness :
  let s := PluginCache.getStats shopCache 301500 twoEntriesDisk in
  PluginCache.disabled shopCache = false /\
  PluginCache.keys shopCache twoEntriesDisk = ["a"] /\
  entryCount s = 1 /\ stats_totalSize s = 6 /\ staleCount s = 1 /\
  oldestEntry s = Some 1000.
Proof.
  intros s.
  destruct (getStats_describes_own_rows shopCache 301500 twoEntriesDisk eq_refl)
    as (_ & H2 & H3 & H4 & _ & H6 & _).
  fold s in H3, H4, H6.
  split; [reflexivity|]. split; [rewrite H2; reflexivity|].
  split; [rewrite H3, H2; reflexivity|]. split; [rewrite H4; reflexivity|].
  split; [rewrite H6; reflexivity|reflexivity].
Defined.

Lemma clear_entries c d :
  PluginCache.disabled c = false ->
  List.NoDup (JsObject.keys (CacheManifest.entries (PluginCache.getManifest d))) ->
  CacheManifest.entries (PluginCache.getManifest (snd (PluginCache.clear Completes c d))) =
  keptRows (inNamespace (PluginCache.namespace c))
    (CacheManifest.entries (PluginCache.getManifest d)).
Proof.
  intros Hon Hnd. unfold PluginCache.clear. rewrite Hon.
  rewrite (sweep_eq _ _ _ Hnd). unfold bind. rewrite saveManifest_completes. reflexivity.
Qed.

Lemma own_rows_after_clear ns other (o : JsObject.t ManifestEntry.t) :
  List.filter (inNamespace other) (JsObject.values (keptRows (inNamespace ns) o)) =
  if String.eqb other ns then []
  else List.filter (inNamespace other) (JsObject.values o).
Proof.
  unfold keptRows, JsObject.values.
  induction o as [|[p row] o IH]; cbn [List.filter List.map snd].
  - now destruct (String.eqb other ns).
  - destruct (inNamespace ns row) eqn:Hr; cbn [negb List.map List.filter snd].
    + rewrite IH. destruct (String.eqb_spec other ns) as [->|Hne]; [reflexivity|].
      unfold inNamespace in Hr |- *. apply String.eqb_eq in Hr.
      destruct (String.eqb_spec (ManifestEntry.namespace row) other); [congruence|reflexivity].
    + rewrite IH. destruct (String.eqb_spec other ns) as [->|Hne].
      * now rewrite Hr.
      * reflexivity.
Qed.

(** X18. Namespace isolation as clients see it: after clear on a manifest
    with unique paths the instance lists no keys and its statistics are all
    zero, while keys and getStats of an instance of any other namespace give
    what they gave before. *)
Theorem clear_is_invisible_to_other_namespaces c other now d :
  PluginCache.disabled c = false ->
  List.NoDup (JsObject.keys (CacheManifest.entries (PluginCache.getManifest d))) ->
  let d' := snd (PluginCache.clear Completes c d) in
  PluginCache.keys c d' = [] /\
  PluginCache.getStats c now d' = PluginCache.noStats c /\
  (PluginCache.namespace other <> PluginCache.namespace c ->
   PluginCache.keys other d' = PluginCache.keys other d /\
   PluginCache.getStats other now d' = PluginCache.getStats other now d).
Proof.
  intros Hon Hnd d'. subst d'.
  pose proof (clear_entries c d Hon Hnd) as Hentries.
  unfold PluginCache.keys, PluginCache.getStats. rewrite Hon.
  rewrite !(fold_stats_own_rows _ now
              (JsObject.values (CacheManifest.entries
                 (PluginCache.getManifest (snd (PluginCache.clear Completes c d)))))).
  change (fun e : ManifestEntry.t =>
            String.eqb (ManifestEntry.namespace e) (PluginCache.namespace c))
    with (inNamespace (PluginCache.namespace c)).
  change (fun e : ManifestEntry.t =>
            String.eqb (ManifestEntry.namespace e) (PluginCache.namespace other))
    with (inNamespace (PluginCache.namespace other)).
  rewrite Hentries, !own_rows_after_clear. rewrite String.eqb_refl.
  split; [reflexivity|]. split; [reflexivity|].
  intros Hne. apply String.eqb_neq in Hne. rewrite Hne.
  rewrite <- fold_stats_own_rows. destruct (PluginCache.disabled other); split; reflexivity.
Qed.

Lemma clear_is_invisible_to_other_namespaces_witness :
  let d' := snd (PluginCache.clear Completes shopCache twoEntriesDisk) in
  PluginCache.keys shopCache d' = [] /\
  PluginCache.keys crmCache d' = ["b"] /\
  PluginCache.getStats crmCache 5000 d' = PluginCache.getStats crmCache 5000 twoEntriesDisk.
Proof.
  intros d'.
  destruct (clear_is_invisible_to_other_namespaces shopCache crmCache 5000 twoEntriesDisk
              eq_refl twoEntriesDisk_paths) as (H1 & _ & H3).
  fold d' in H1, H3. destruct H3 as (H3 & H4); [discriminate|].
  split; [exact H1|]. split; [rewrite H3; reflexivity|exact H4].
Defined.

(** ** Manifest writes that fail *)

(** X19. saveManifest is all or nothing, for every fate of the write: it
    never touches an entry file or the temporary file of another process and
    never leaves its own temporary file behind; when the write completes the
    manifest read back is the one saved, and otherwise the call throws and the
    manifest file is the one that was there. *)
Theorem saveManifest_is_all_or_nothing fate c m d :
  let r := PluginCache.saveManifest fate c m d in
  files (snd r) = files d /\
  tempFiles (snd r) !! PluginCache.pid c = None /\
  (forall other, other <> PluginCache.pid c ->
     tempFiles (snd r) !! other = tempFiles d !! other) /\
  match fate with
  | Completes => fst r = Normal tt /\ PluginCache.getManifest (snd r) = m
  | _ => fst r = Throw IOError /\ manifestFile (snd r) = manifestFile d
  end.
Proof.
  cbv zeta.
  destruct fate;
    unfold PluginCache.saveManifest, tryCatch, bind, writeTempFile, renameTempFile,
      unlinkTempFile, modify, throw; simpl; rewrite ?lookup_insert_eq; simpl.
  all: split; [reflexivity|]. all: split; [apply lookup_delete_eq|].
  all: split; [|split; reflexivity].
  all: intros other Hne; rewrite lookup_delete_ne by congruence;
    rewrite ?lookup_insert_ne by congruence; reflexivity.
Qed.

(** X20. A set whose manifest write fails throws before it writes anything
    else: the entry files and the manifest file are the ones that were there,
    so the value is not stored and no cleanup runs.  The error is the one of
    the write, unless the expiry time is not a valid Date: then the call has
    thrown a RangeError before it reached the manifest. *)
Theorem set_fails_before_writing_the_entry fate c key data options now d :
  fate <> Completes ->
  PluginCache.disabled c = false ->
  Z.of_nat (String.length data) <= PluginCache.maxEntrySize c ->
  let r := PluginCache.set fate c key data options now d in
  let expiresAt := now + PluginCache.orElse (set_ttl options) (PluginCache.defaultTTL c) in
  fst r = Throw (if JsDate.isValid expiresAt then IOError else RangeError) /\
  files (snd r) = files d /\ manifestFile (snd r) = manifestFile d.
Proof.
  intros Hfate Hon Hfit r expiresAt. subst expiresAt.
  destruct (JsDate.isValid
              (now + PluginCache.orElse (set_ttl options) (PluginCache.defaultTTL c)))
    eqn:Hdate.
  2:{ subst r. rewrite (set_out_of_range_eq fate c key data options now d Hon Hfit Hdate).
      repeat split. }
  destruct (saveManifest_fails fate c
              (PluginCache.recordEntry c key (Z.of_nat (String.length data)) now
                 (now + PluginCache.orElse (set_ttl options) (PluginCache.defaultTTL c))
                 (PluginCache.getManifest d)) d Hfate) as (d' & Hsave & Hf & Hm & _).
  assert (Hr : r = (Throw IOError, d')).
  { subst r. unfold PluginCache.set. rewrite Hon.
    destruct (Z.ltb_spec (PluginCache.maxEntrySize c) (Z.of_nat (String.length data)));
      [lia|].
    cbv zeta. rewrite Hdate. cbn [negb]. unfold bind at 1. rewrite Hsave. reflexivity. }
  rewrite Hr. cbn [fst snd]. split; [reflexivity|]. split; assumption.
Qed.

Lemma set_fails_before_writing_the_entry_witness :
  let r := PluginCache.set FailsOnRename shopCache "c" "[1234]" plainSet 3000 twoEntriesDisk in
  FailsOnRename <> Completes /\
  fst r = Throw IOError /\ files (snd r) = files twoEntriesDisk.
Proof.
  intros r. split; [discriminate|].
  destruct (set_fails_before_writing_the_entry FailsOnRename shopCache "c" "[1234]" plainSet
              3000 twoEntriesDisk) as (H1 & H2 & _).
  - discriminate.
  - reflexivity.
  - vm_compute. discriminate.
  - split; [exact H1|exact H2].
Defined.

(** X21. get and invalidate swallow a failed manifest write.  For an entry
    that is stored and listed, get then reports a miss, however fresh the
    entry is, although it has refreshed the entry file; invalidate reports
    false although it has unlinked the entry file, and the row stays in the
    manifest without a file behind it. *)
Theorem failed_manifest_write_is_swallowed fate c key options now d stored row :
  fate <> Completes ->
  PluginCache.disabled c = false ->
  files d !! PluginCache.getFilePath c key = Some (EntryJson stored) ->
  JsObject.get (PluginCache.getFilePath c key)
    (CacheManifest.entries (PluginCache.getManifest d)) = Some row ->
  let looked := PluginCache.get fate c key options now d in
  let dropped := PluginCache.invalidate fate c key d in
  (fst looked = PluginCache.miss /\
   files (snd looked) !! PluginCache.getFilePath c key =
     Some (EntryJson (CacheEntry.touch now stored)) /\
   manifestFile (snd looked) = manifestFile d) /\
  (fst dropped = false /\
   files (snd dropped) !! PluginCache.getFilePath c key = None /\
   manifestFile (snd dropped) = manifestFile d).
Proof.
  intros Hfate Hon Hfile Hrow looked dropped. subst looked dropped. split.
  - unfold PluginCache.get. rewrite Hon, Hfile. cbv zeta.
    change (PluginCache.getManifest (withFiles _ d)) with (PluginCache.getManifest d).
    rewrite Hrow.
    match goal with |- context [PluginCache.saveManifest fate c ?m ?d0] =>
      destruct (saveManifest_fails fate c m d0 Hfate) as (d' & -> & Hf & Hm & _)
    end.
    cbn [fst snd]. split; [reflexivity|]. rewrite Hf, Hm. cbn [files manifestFile withFiles].
    split; [apply lookup_insert_eq|reflexivity].
  - unfold PluginCache.invalidate. rewrite Hon, Hfile. cbv zeta.
    change (PluginCache.getManifest (withFiles _ d)) with (PluginCache.getManifest d).
    rewrite Hrow.
    match goal with |- context [PluginCache.saveManifest fate c ?m ?d0] =>
      destruct (saveManifest_fails fate c m d0 Hfate) as (d' & -> & Hf & Hm & _)
    end.
    cbn [fst snd]. split; [reflexivity|]. rewrite Hf, Hm. cbn [files manifestFile withFiles].
    split; [apply lookup_delete_eq|reflexivity].
Qed.

Lemma failed_manifest_write_is_swallowed_witness :
  let looked := PluginCache.get FailsMidWrite shopCache "a" plainGet 1500 twoEntriesDisk in
  let dropped := PluginCache.invalidate FailsMidWrite shopCache "a" twoEntriesDisk in
  hit (fst looked) = false /\
  fst dropped = false /\
  files (snd dropped) !! "/c/shop/a.json" = None /\
  JsObject.get "/c/shop/a.json"
    (CacheManifest.entries (PluginCache.getManifest (snd dropped))) <> None.
Proof.
  intros looked dropped.
  assert (Hfile : files twoEntriesDisk !! PluginCache.getFilePath shopCache "a" =
                  Some (EntryJson (newEntry shopCache "[1234]" plainSet 1000)))
    by reflexivity.
  assert (Hrow : JsObject.get (PluginCache.getFilePath shopCache "a")
                   (CacheManifest.entries (PluginCache.getManifest twoEntriesDisk)) =
                 Some (PluginCache.newRow shopCache "a" 6 1000 301000)) by reflexivity.
  destruct (failed_manifest_write_is_swallowed FailsMidWrite shopCache "a" plainGet 1500
              twoEntriesDisk _ _ ltac:(discriminate) eq_refl Hfile Hrow)
    as ((H1 & _) & (H2 & H3 & H4)).
  fold looked in H1. fold dropped in H2, H3, H4.
  split; [rewrite H1; reflexivity|]. split; [exact H2|]. split; [exact H3|].
  unfold PluginCache.getManifest. rewrite H4. discriminate.
Defined.

(** ** validation.ts *)

(** X22. Validators taken from response headers: under each name the
    lowercase spelling wins when it is present and not empty, the capitalised
    spelling is the fallback, and an empty value counts as none, so no field of
    the result is an empty string; a Headers object, a Map and a plain object
    that answer alike give the same validator; and buildConditionalHeaders
    sends the etag back as If-None-Match and lastModified as
    If-Modified-Since. *)
Theorem extractValidator_prefers_lowercase get o :
  let pick (lookup : string -> option string) (lower upper : string) :=
    match PluginCache.truthy (lookup lower) with
    | Some value => Some value
    | None => PluginCache.truthy (lookup upper)
    end in
  let expected lookup :=
    {| val_etag := pick lookup "etag" "ETag";
       val_lastModified := pick lookup "last-modified" "Last-Modified" |} in
  Validation.extractValidator (Validation.FetchHeaders get) = expected get /\
  Validation.extractValidator (Validation.MapHeaders get) = expected get /\
  Validation.extractValidator (Validation.PlainHeaders o) =
    expected (fun name => JsObject.get name o) /\
  forall bag,
    let v := Validation.extractValidator bag in
    val_etag v <> Some "" /\ val_lastModified v <> Some "" /\
    JsObject.get "If-None-Match" (Validation.buildConditionalHeaders (Some v)) = val_etag v /\
    JsObject.get "If-Modified-Since" (Validation.buildConditionalHeaders (Some v)) =
      val_lastModified v.
Proof.
  cbv zeta.
  assert (Hor : forall a b,
            PluginCache.truthy (Validation.orJs a b) =
            match PluginCache.truthy a with
            | Some value => Some value
            | None => PluginCache.truthy b
            end).
  { intros a b. unfold Validation.orJs.
    destruct a as [[|x s]|]; cbn; try reflexivity. }
  assert (Hor' : forall a, PluginCache.truthy (Validation.orJs a None) = PluginCache.truthy a).
  { intros a. rewrite Hor. now destruct (PluginCache.truthy a). }
  assert (Hne : forall a, PluginCache.truthy a <> Some "").
  { intros [[|x s]|]; cbn; discriminate. }
  split; [|split; [|split]].
  - unfold Validation.extractValidator. now rewrite !Hor.
  - unfold Validation.extractValidator. now rewrite !Hor', !Hor.
  - unfold Validation.extractValidator. now rewrite !Hor', !Hor.
  - intros bag.
    assert (Hshape : exists e l,
              Validation.extractValidator bag =
              {| val_etag := PluginCache.truthy e; val_lastModified := PluginCache.truthy l |}).
    { unfold Validation.extractValidator. destruct bag; do 2 eexists; reflexivity. }
    destruct Hshape as (e & l & ->). cbn [val_etag val_lastModified].
    split; [apply Hne|]. split; [apply Hne|].
    unfold Validation.buildConditionalHeaders. cbn [val_etag val_lastModified].
    rewrite !truthy_idempotent.
    destruct (PluginCache.truthy e), (PluginCache.truthy l); cbn; split; reflexivity.
Qed.

(** X23. conditionalFetch hands the fetcher the conditional headers of the
    validator and passes a rejection on.  It answers from the cache exactly
    when the status is 304 and cached data is there, then with the cached data
    and the validator it was given; in every other case, a 304 without cached
    data included, it answers with the body and the validators of the
    response. *)
Theorem conditionalFetch_uses_cache_on_304_only url validator fetcher cached :
  match fetcher (Validation.buildConditionalHeaders validator) with
  | Throw e => Validation.conditionalFetch url validator fetcher cached = Throw e
  | Normal response =>
      exists result,
        Validation.conditionalFetch url validator fetcher cached = Normal result /\
        (Validation.notModified result = true <->
         Validation.status response = 304 /\ cached <> None) /\
        (Validation.notModified result = true ->
         cached = Some (Validation.cr_data result) /\
         Some (Validation.newValidator result) =
           match validator with
           | Some v => Some v
           | None => Some {| val_etag := None; val_lastModified := None |}
           end) /\
        (Validation.notModified result = false ->
         Validation.cr_data result = Validation.resp_data response /\
         Validation.newValidator result =
           Validation.extractValidator (Validation.resp_headers response))
  end.
Proof.
  unfold Validation.conditionalFetch.
  destruct (fetcher (Validation.buildConditionalHeaders validator)) as [response|e];
    [|reflexivity].
  unfold Validation.isNotModified.
  destruct (Z.eqb_spec (Validation.status response) 304) as [Hs|Hs];
    destruct cached as [data|]; eexists; (split; [reflexivity|]);
    cbn [Validation.notModified Validation.cr_data Validation.newValidator].
  - split; [|split].
    + split; [intros _; split; [exact Hs|discriminate]|reflexivity].
    + intros _. split; [reflexivity|]. now destruct validator.
    + discriminate.
  - split; [|split].
    + split; [discriminate|]. now intros [_ H].
    + discriminate.
    + intros _. split; reflexivity.
  - split; [|split].
    + split; [discriminate|]. intros [H _]. contradiction.
    + discriminate.
    + intros _. split; reflexivity.
  - split; [|split].
    + split; [discriminate|]. intros [H _]. contradiction.
    + discriminate.
    + intros _. split; reflexivity.
Qed.

(** ** Cache keys *)

Lemma occurs_append a (s t : string) :
  occurs a (s ++ t) = occurs a s || occurs a t.
Proof.
  induction s as [|b s IH]; [reflexivity|].
  rewrite append_cons. cbn [occurs]. rewrite IH. now rewrite orb_assoc.
Qed.

Lemma split_without_separator sep s :
  occurs sep s = false -> Validation.split sep s = [s].
Proof.
  induction s as [|a s IH]; [reflexivity|].
  cbn [occurs Validation.split]. intros H. apply orb_false_iff in H as [Ha Hs].
  rewrite Ha, (IH Hs). reflexivity.
Qed.

Lemma split_at_first_separator sep (s t : string) :
  occurs sep s = false ->
  Validation.split sep (s ++ String sep t) = s :: Validation.split sep t.
Proof.
  induction s as [|a s IH]; intros H.
  - change (("" ++ String sep t)%string) with (String sep t).
    cbn [Validation.split]. now rewrite Ascii.eqb_refl.
  - cbn [occurs] in H. apply orb_false_iff in H as [Ha Hs].
    rewrite append_cons. cbn [Validation.split]. rewrite Ha, (IH Hs). reflexivity.
Qed.

Lemma split_join sep parts :
  Forall (fun part => occurs sep part = false) parts ->
  parts <> [] ->
  Validation.split sep (Validation.join (String sep "") parts) = parts.
Proof.
  induction parts as [|part rest IH]; [congruence|].
  intros Hall _. inversion Hall as [|? ? Hpart Hrest]; subst.
  destruct rest as [|next rest].
  - cbn [Validation.join]. now apply split_without_separator.
  - change (Validation.join (String sep "") (part :: next :: rest))
      with (part ++ String sep (Validation.join (String sep "") (next :: rest)))%string.
    rewrite split_at_first_separator by exact Hpart.
    rewrite IH; [reflexivity|exact Hrest|discriminate].
Qed.

Lemma join_occurs a sep parts :
  occurs a sep = false ->
  Forall (fun part => occurs a part = false) parts ->
  occurs a (Validation.join sep parts) = false.
Proof.
  intros Hsep. induction parts as [|part rest IH]; [reflexivity|].
  intros Hall. inversion Hall as [|? ? Hpart Hrest]; subst.
  destruct rest as [|next rest]; [exact Hpart|].
  change (Validation.join sep (part :: next :: rest))
    with (part ++ sep ++ Validation.join sep (next :: rest))%string.
  rewrite !occurs_append, Hpart, Hsep, (IH Hrest). reflexivity.
Qed.

Lemma insertByName_permutation cmp x l :
  Permutation (Validation.insertByName cmp x l) (x :: l).
Proof.
  induction l as [|y l IH]; cbn [Validation.insertByName]; [reflexivity|].
  destruct (cmp (fst x) (fst y) <=? 0); [reflexivity|].
  rewrite IH. apply perm_swap.
Qed.

Lemma sortByName_permutation cmp l : Permutation (Validation.sortByName cmp l) l.
Proof.
  unfold Validation.sortByName. induction l as [|x l IH]; [reflexivity|].
  cbn [fold_right]. rewrite insertByName_permutation. now constructor.
Qed.

Lemma definedParams_In ps k v :
  In (k, v) (Validation.definedParams ps) <-> In (k, Some v) ps.
Proof.
  induction ps as [|[k' [v'|]] ps IH]; cbn [Validation.definedParams In]; [tauto| |].
  - rewrite IH. split; (intros [H|H]; [left; congruence|right; exact H]).
  - rewrite IH. split; [tauto|]. intros [H|H]; [discriminate|exact H].
Qed.

Lemma definedParams_NoDup (ps : JsObject.t (option string)) :
  List.NoDup (JsObject.keys ps) ->
  List.NoDup (List.map fst (Validation.definedParams ps)).
Proof.
  unfold JsObject.keys.
  induction ps as [|[k [v|]] ps IH]; cbn [Validation.definedParams List.map fst]; intros Hnd;
    inversion Hnd as [|? ? Hnotin Hnd']; subst; [constructor| |auto].
  constructor; [|auto].
  intros Hin. apply Hnotin. apply in_map_iff in Hin as ([k' v'] & Hk & Hin).
  cbn [fst] in Hk. subst k'. apply definedParams_In in Hin.
  exact (in_map fst _ _ Hin).
Qed.

Lemma parsePair_assigns o k v :
  k <> "" -> k <> "__proto__" -> occurs "=" k = false -> occurs "=" v = false ->
  Validation.parsePair o (k ++ "=" ++ v) = JsObject.set k v o.
Proof.
  intros Hk Hproto Hok Hov. unfold Validation.parsePair.
  change (k ++ "=" ++ v)%string with (k ++ String "=" v)%string.
  rewrite split_at_first_separator by exact Hok.
  rewrite split_without_separator by exact Hov.
  destruct k as [|a k]; [congruence|].
  unfold Validation.assignParam.
  destruct (String.eqb_spec (String a k) "__proto__"); [congruence|reflexivity].
Qed.

Lemma get_after_assignments (l : list (string * string)) : forall o k,
  List.NoDup (List.map fst l) ->
  JsObject.get k (fold_left (fun o kv => JsObject.set (fst kv) (snd kv) o) l o) =
  match JsObject.get k l with
  | Some v => Some v
  | None => JsObject.get k o
  end.
Proof.
  induction l as [|[k' v'] l IH]; intros o k Hnd; [reflexivity|].
  inversion Hnd as [|? ? Hnotin Hnd']; subst.
  cbn [fold_left fst snd JsObject.get]. rewrite (IH _ _ Hnd').
  destruct (String.eqb_spec k k') as [->|Hne].
  - destruct (JsObject.get k' l) as [v|] eqn:Hget.
    + exfalso. apply Hnotin. apply get_In in Hget. exact (in_map fst _ _ Hget).
    + apply get_set_eq.
  - destruct (JsObject.get k l); [reflexivity|]. now apply get_set_ne.
Qed.

Lemma parse_rendered_pairs (l : list (string * string)) : forall o,
  Forall (fun kv => fst kv <> "" /\ fst kv <> "__proto__" /\
                    occurs "=" (fst kv) = false /\ occurs "=" (snd kv) = false) l ->
  fold_left Validation.parsePair
    (List.map (fun kv => (fst kv ++ "=" ++ snd kv)%string) l) o =
  fold_left (fun o kv => JsObject.set (fst kv) (snd kv) o) l o.
Proof.
  induction l as [|[k v] l IH]; intros o Hall; [reflexivity|].
  inversion Hall as [|? ? (Hk & Hp & Hok & Hov) Hrest]; subst.
  cbn [List.map fold_left fst snd] in *.
  rewrite parsePair_assigns by assumption. now apply IH.
Qed.

Lemma plainText_parts s :
  plainText s = true ->
  occurs "?" s = false /\ occurs "&" s = false /\ occurs "=" s = false.
Proof.
  unfold plainText. intros H. apply negb_true_iff in H.
  apply orb_false_iff in H as [H H3]. apply orb_false_iff in H as [H1 H2]. auto.
Qed.

(** X24. A cache key built by createCacheKey is read back by parseCacheKey.
    For a base without a question mark and parameters whose names are not
    empty, are not __proto__, and, like their values, hold none of the
    characters ? & = (an undefined parameter is free), the parsed base is the
    base given and the parsed parameters are exactly the defined ones, under any
    collation used for sorting. *)
Theorem cache_key_round_trip localeCompare baseKey (ps : JsObject.t (option string)) :
  occurs "?" baseKey = false ->
  List.NoDup (JsObject.keys ps) ->
  (forall k v, In (k, Some v) ps ->
     k <> "" /\ k <> "__proto__" /\ plainText k = true /\ plainText v = true) ->
  let parsed :=
    Validation.parseCacheKey (Validation.createCacheKey localeCompare baseKey (Some ps)) in
  Validation.base parsed = baseKey /\
  forall k, JsObject.get k (Validation.params parsed) = definedAs ps k.
Proof.
  intros Hbase Hnd Hok parsed.
  set (sorted := Validation.sortByName localeCompare (Validation.definedParams ps)).
  set (render := fun kv : string * string => (fst kv ++ "=" ++ snd kv)%string).
  set (query := Validation.join "&" (List.map render sorted)).
  assert (Hperm : Permutation sorted (Validation.definedParams ps))
    by apply sortByName_permutation.
  assert (Hin : forall k v, In (k, v) sorted <-> In (k, Some v) ps).
  { intros k v. rewrite <- definedParams_In. split; apply Permutation_in;
      [exact Hperm|symmetry; exact Hperm]. }
  assert (Hnds : List.NoDup (List.map fst sorted)).
  { eapply Permutation_NoDup; [|apply definedParams_NoDup; exact Hnd].
    symmetry. now apply Permutation_map. }
  assert (Hlookup : forall k, JsObject.get k sorted = definedAs ps k).
  { intros k. unfold definedAs.
    destruct (JsObject.get k sorted) as [v|] eqn:Hs.
    - apply get_In, Hin in Hs. now rewrite (In_get _ _ _ Hnd Hs).
    - destruct (JsObject.get k ps) as [[v|]|] eqn:Hp; try reflexivity.
      apply get_In, Hin in Hp. apply (In_get _ _ _ Hnds) in Hp. congruence. }
  assert (Hall : Forall (fun kv => fst kv <> "" /\ fst kv <> "__proto__" /\
                           plainText (fst kv) = true /\ plainText (snd kv) = true) sorted).
  { apply List.Forall_forall. intros [k v] Hkv. apply Hin in Hkv. exact (Hok _ _ Hkv). }
  assert (Hparts : forall a, In a ["?"%char; "&"%char] ->
            Forall (fun part => occurs a part = false) (List.map render sorted)).
  { intros a Ha. apply List.Forall_forall. intros part Hpart.
    apply in_map_iff in Hpart as (kv & <- & Hkv).
    rewrite List.Forall_forall in Hall. destruct (Hall _ Hkv) as (_ & _ & Hk & Hv).
    apply plainText_parts in Hk as (Hk1 & Hk2 & _).
    apply plainText_parts in Hv as (Hv1 & Hv2 & _).
    unfold render. rewrite !occurs_append.
    destruct Ha as [<-|[<-|[]]]; [rewrite Hk1, Hv1|rewrite Hk2, Hv2]; reflexivity. }
  assert (Hparams : fold_left Validation.parsePair (List.map render sorted) [] =
                    fold_left (fun o kv => JsObject.set (fst kv) (snd kv) o) sorted []).
  { apply parse_rendered_pairs. eapply List.Forall_impl; [|exact Hall].
    intros kv (Hk & Hp & Hpk & Hpv).
    apply plainText_parts in Hpk as (_ & _ & Hpk). apply plainText_parts in Hpv as (_ & _ & Hpv).
    auto. }
  assert (Hkey : Validation.createCacheKey localeCompare baseKey (Some ps) =
                 match query with
                 | EmptyString => baseKey
                 | _ => (baseKey ++ String "?" query)%string
                 end).
  { unfold Validation.createCacheKey. destruct ps as [|p ps']; [reflexivity|].
    fold sorted. fold render. fold query. destruct query; reflexivity. }
  subst parsed. rewrite Hkey. clear Hkey.
  destruct query as [|a q] eqn:Hquery.
  - (* nothing defined: the key is the base *)
    unfold Validation.parseCacheKey. rewrite split_without_separator by exact Hbase.
    cbn [Validation.base Validation.params]. split; [reflexivity|].
    intros k. rewrite <- Hlookup.
    destruct sorted as [|[k1 v1] rest]; [reflexivity|].
    exfalso. subst query. cbn [List.map] in Hquery. unfold render at 1 in Hquery.
    cbn [fst snd] in Hquery.
    inversion Hall as [|? ? (Hk1 & _) _]; subst. cbn [fst] in Hk1.
    destruct k1 as [|b k1]; [congruence|].
    destruct (List.map render rest); cbn [Validation.join] in Hquery;
      rewrite append_cons in Hquery; discriminate.
  - unfold Validation.parseCacheKey.
    rewrite split_at_first_separator by exact Hbase.
    assert (Hq : occurs "?" (String a q) = false).
    { rewrite <- Hquery. apply join_occurs; [reflexivity|]. apply Hparts. now left. }
    rewrite split_without_separator by exact Hq.
    cbn [Validation.base Validation.params]. split; [reflexivity|].
    intros k. rewrite <- Hquery. unfold query.
    change "&"%string with (String "&"%char "").
    rewrite split_join.
    + rewrite Hparams, get_after_assignments by exact Hnds.
      rewrite Hlookup. now destruct (definedAs ps k).
    + apply Hparts. right. now left.
    + intros Hnil. unfold query in Hquery. rewrite Hnil in Hquery. discriminate.
Qed.

Lemma cache_key_round_trip_witness :
  let ps := [("page", Some "2"); ("filter", None); ("limit", Some "50")] in
  let parsed :=
    Validation.parseCacheKey
      (Validation.createCacheKey (fun a b => if String.ltb a b then -1 else 1)
         "orders" (Some ps)) in
  occurs "?" "orders" = false /\
  List.NoDup (JsObject.keys ps) /\
  Validation.base parsed = "orders" /\
  JsObject.get "limit" (Validation.params parsed) = Some "50" /\
  JsObject.get "filter" (Validation.params parsed) = None.
Proof.
  intros ps parsed.
  assert (Hnd : List.NoDup (JsObject.keys ps)).
  { repeat constructor; cbn; intuition discriminate. }
  assert (Hok : forall k v, In (k, Some v) ps ->
            k <> "" /\ k <> "__proto__" /\ plainText k = true /\ plainText v = true).
  { intros k v [H|[H|[H|[]]]]; inversion H; subst;
      (split; [discriminate|split; [discriminate|split; reflexivity]]). }
  destruct (cache_key_round_trip (fun a b => if String.ltb a b then -1 else 1)
              "orders" ps eq_refl Hnd Hok) as [Hb Hp].
  split; [reflexivity|]. split; [exact Hnd|]. split; [exact Hb|].
  split; [exact (Hp "limit")|exact (Hp "filter")].
Defined.

Lemma insertByName_sorted cmp names x l :
  ordersNames cmp names ->
  (forall y, In y (x :: l) -> In (fst y) names) ->
  StronglySorted (nameBefore cmp) l ->
  StronglySorted (nameBefore cmp) (Validation.insertByName cmp x l).
Proof.
  intros (Htotal & Htrans & _). induction l as [|y l IH]; intros Hdom Hs.
  - cbn [Validation.insertByName]. constructor; [constructor|constructor].
  - cbn [Validation.insertByName]. inversion Hs as [|? ? Hs' Hall]; subst.
    assert (Hx : In (fst x) names) by (apply Hdom; now left).
    assert (Hy : In (fst y) names) by (apply Hdom; right; now left).
    destruct (Z.leb_spec (cmp (fst x) (fst y)) 0) as [Hle|Hgt].
    + constructor; [exact Hs|]. constructor; [exact Hle|].
      rewrite List.Forall_forall in Hall |- *. intros z Hz.
      apply (Htrans _ (fst y) _ Hx Hy); [apply Hdom; right; now right|exact Hle|].
      exact (Hall z Hz).
    + constructor.
      * apply IH; [|exact Hs']. intros z [<-|Hz]; apply Hdom; [now left|right; now right].
      * apply List.Forall_forall. intros z Hz.
        apply (Permutation_in _ (insertByName_permutation cmp x l)) in Hz.
        destruct Hz as [<-|Hz].
        -- destruct (Htotal _ _ Hx Hy) as [H|H]; [lia|exact H].
        -- rewrite List.Forall_forall in Hall. exact (Hall z Hz).
Qed.

Lemma sortByName_sorted cmp names l :
  ordersNames cmp names ->
  (forall y, In y l -> In (fst y) names) ->
  StronglySorted (nameBefore cmp) (Validation.sortByName cmp l).
Proof.
  intros Hord. unfold Validation.sortByName.
  induction l as [|x l IH]; intros Hdom; [constructor|].
  cbn [fold_right]. apply (insertByName_sorted cmp names); [exact Hord| |].
  - intros y [<-|Hy]; apply Hdom; [now left|right].
    exact (Permutation_in _ (sortByName_permutation cmp l) Hy).
  - apply IH. intros y Hy. apply Hdom. now right.
Qed.

Lemma sorted_by_name_unique cmp names (l1 : list (string * string)) : forall l2,
  ordersNames cmp names ->
  (forall y, In y l1 -> In (fst y) names) ->
  List.NoDup (List.map fst l1) ->
  Permutation l1 l2 ->
  StronglySorted (nameBefore cmp) l1 ->
  StronglySorted (nameBefore cmp) l2 ->
  l1 = l2.
Proof.
  induction l1 as [|x l1 IH]; intros l2 Hord Hdom Hnd Hperm Hs1 Hs2.
  - apply Permutation_nil in Hperm. now subst.
  - destruct l2 as [|y l2];
      [apply Permutation_sym, Permutation_nil in Hperm; discriminate|].
    inversion Hs1 as [|? ? Hs1' Hall1]; subst.
    inversion Hs2 as [|? ? Hs2' Hall2]; subst.
    inversion Hnd as [|? ? Hnotin Hnd']; subst.
    assert (Hxy : x = y).
    { assert (Hx : In x (y :: l2)) by (apply (Permutation_in _ Hperm); now left).
      assert (Hy : In y (x :: l1))
        by (apply (Permutation_in _ (Permutation_sym Hperm)); now left).
      destruct Hx as [Hx|Hx]; [now subst|].
      destruct Hy as [Hy|Hy]; [now subst|].
      exfalso. apply Hnotin.
      rewrite List.Forall_forall in Hall1, Hall2.
      destruct Hord as (_ & _ & Hanti).
      rewrite (Hanti (fst x) (fst y)).
      - exact (in_map fst _ _ Hy).
      - apply Hdom. now left.
      - apply Hdom. now right.
      - exact (Hall1 _ Hy).
      - exact (Hall2 _ Hx). }
    subst y. f_equal. apply IH; try assumption.
    + intros z Hz. apply Hdom. now right.
    + exact (Permutation_cons_inv Hperm).
Qed.

Lemma definedParams_permutation ps qs :
  Permutation ps qs ->
  Permutation (Validation.definedParams ps) (Validation.definedParams qs).
Proof.
  induction 1 as [|[k [v|]] ps qs _ IH|[k1 [v1|]] [k2 [v2|]] ps|ps qs rs _ IH1 _ IH2];
    cbn [Validation.definedParams]; try reflexivity; try exact IH;
    try (constructor; exact IH); try apply perm_swap.
  now transitivity (Validation.definedParams qs).
Qed.

(** X25. createCacheKey does not depend on the order in which the
    parameters are listed: when localeCompare orders the parameter names, two
    parameter objects with the same properties give the same key for a
    base. *)
Theorem createCacheKey_ignores_parameter_order localeCompare baseKey
    (ps qs : JsObject.t (option string)) :
  List.NoDup (JsObject.keys ps) ->
  Permutation ps qs ->
  ordersNames localeCompare (JsObject.keys ps) ->
  Validation.createCacheKey localeCompare baseKey (Some ps) =
  Validation.createCacheKey localeCompare baseKey (Some qs).
Proof.
  intros Hnd Hperm Hord.
  assert (Hdom : forall y, In y (Validation.definedParams ps) ->
                           In (fst y) (JsObject.keys ps)).
  { intros [k v] Hy. apply definedParams_In in Hy. exact (in_map fst _ _ Hy). }
  assert (Hsorted : Validation.sortByName localeCompare (Validation.definedParams ps) =
                    Validation.sortByName localeCompare (Validation.definedParams qs)).
  { apply (sorted_by_name_unique localeCompare (JsObject.keys ps)).
    - exact Hord.
    - intros y Hy. apply Hdom.
      exact (Permutation_in _ (sortByName_permutation localeCompare _) Hy).
    - eapply Permutation_NoDup; [|apply definedParams_NoDup; exact Hnd].
      symmetry. apply Permutation_map, sortByName_permutation.
    - rewrite !sortByName_permutation. now apply definedParams_permutation.
    - now apply (sortByName_sorted localeCompare (JsObject.keys ps)).
    - apply (sortByName_sorted localeCompare (JsObject.keys ps)); [exact Hord|].
      intros y Hy. apply Hdom.
      exact (Permutation_in _ (Permutation_sym (definedParams_permutation _ _ Hperm)) Hy). }
  unfold Validation.createCacheKey.
  destruct ps as [|p ps], qs as [|q qs].
  - reflexivity.
  - apply Permutation_nil in Hperm. discriminate.
  - apply Permutation_sym, Permutation_nil in Hperm. discriminate.
  - rewrite Hsorted. reflexivity.
Qed.

Lemma createCacheKey_ignores_parameter_order_witness :
  let cmp := fun a b : string =>
    if String.eqb a b then 0 else if String.ltb a b then -1 else 1 in
  let ps := [("page", Some "2"); ("limit", Some "50")] in
  let qs := [("limit", Some "50"); ("page", Some "2")] in
  Permutation ps qs /\
  Validation.createCacheKey cmp "orders" (Some ps) = "orders?limit=50&page=2" /\
  Validation.createCacheKey cmp "orders" (Some ps) =
  Validation.createCacheKey cmp "orders" (Some qs).
Proof.
  intros cmp ps qs.
  assert (Hperm : Permutation ps qs) by apply perm_swap.
  split; [exact Hperm|]. split; [reflexivity|].
  apply createCacheKey_ignores_parameter_order.
  - repeat constructor; cbn; intuition discriminate.
  - exact Hperm.
  - split; [|split].
    + intros a b [<-|[<-|[]]] [<-|[<-|[]]]; vm_compute; intuition discriminate.
    + intros a b c [<-|[<-|[]]] [<-|[<-|[]]] [<-|[<-|[]]]; vm_compute; intuition congruence.
    + intros a b [<-|[<-|[]]] [<-|[<-|[]]]; vm_compute; intuition congruence.
Defined.

(** X26. parseCacheKey reads a key up to its second question mark only:
    whatever follows it is dropped, so a parameter value that holds a question
    mark does not come back whole. *)
Theorem parseCacheKey_stops_at_second_question_mark (b q rest : string) :
  occurs "?" b = false ->
  occurs "?" q = false ->
  Validation.parseCacheKey (b ++ "?" ++ q ++ "?" ++ rest) =
  Validation.parseCacheKey (b ++ "?" ++ q).
Proof.
  intros Hb Hq. unfold Validation.parseCacheKey.
  change (b ++ "?" ++ q ++ "?" ++ rest)%string with (b ++ String "?" (q ++ String "?" rest))%string.
  change (b ++ "?" ++ q)%string with (b ++ String "?" q)%string.
  rewrite !split_at_first_separator by assumption.
  rewrite (split_without_separator "?" q Hq).
  destruct (Validation.split "?" rest); reflexivity.
Qed.

Lemma parseCacheKey_stops_at_second_question_mark_witness :
  occurs "?" "search" = false /\ occurs "?" "q=why" = false /\
  Validation.parseCacheKey "search?q=why?&page=2" =
    {| Validation.base := "search"; Validation.params := [("q", "why")] |}.
Proof.
  split; [reflexivity|]. split; [reflexivity|].
  change "search?q=why?&page=2" with ("search" ++ "?" ++ "q=why" ++ "?" ++ "&page=2")%string.
  rewrite (parseCacheKey_stops_at_second_question_mark "search" "q=why" "&page=2" eq_refl eq_refl).
  reflexivity.
Defined.

(** ** Bypassing the cache, and has *)



(** X28. has looks at the entry file only, not at its expiry: for an entry
    past its expiry time and past its stale window has still answers true,
    while get answers with a miss and removes the entry, after which has
    answers false. *)
Theorem has_ignores_expiry c key options now d stored :
  PluginCache.disabled c = false ->
  files d !! PluginCache.getFilePath c key = Some (EntryJson stored) ->
  CacheEntry.expiresAt stored < now ->
  CacheEntry.expiresAt stored +
    PluginCache.orElse (get_staleWhileRevalidate options) (PluginCache.defaultSWR c) < now ->
  let looked := PluginCache.get Completes c key options now d in
  PluginCache.has c key d = true /\
  fst looked = PluginCache.miss /\
  PluginCache.has c key (snd looked) = false.
Proof.
  intros Hon Hfile Hexp Hswr looked. subst looked.
  rewrite (get_stored_eq c key options now d stored Hon Hfile).
  destruct (Z.ltb_spec (CacheEntry.expiresAt stored) now); [|lia].
  rewrite (proj2 (notAfter_false now _) (or_intror Hswr)).
  cbn [andb negb fst snd].
  split; [unfold PluginCache.has; now rewrite Hon, Hfile|]. split; [reflexivity|].
  assert (Hthere : files (refreshed c key now stored d) !! PluginCache.getFilePath c key =
                   Some (EntryJson (CacheEntry.touch now stored)))
    by (rewrite refreshed_files; apply lookup_insert_eq).
  destruct (invalidate_removes c key _ _ Hon Hthere) as [Hgone _].
  unfold PluginCache.has. rewrite Hon, Hgone. reflexivity.
Qed.

Lemma has_ignores_expiry_witness :
  let looked := PluginCache.get Completes shopCache "a" plainGet 100000000 twoEntriesDisk in
  PluginCache.has shopCache "a" twoEntriesDisk = true /\
  hit (fst looked) = false /\
  PluginCache.has shopCache "a" (snd looked) = false.
Proof.
  intros looked.
  destruct (has_ignores_expiry shopCache "a" plainGet 100000000 twoEntriesDisk
              (newEntry shopCache "[1234]" plainSet 1000)) as (H1 & H2 & H3).
  - reflexivity.
  - reflexivity.
  - vm_compute. reflexivity.
  - vm_compute. reflexivity.
  - fold looked in H2, H3. split; [exact H1|]. split; [now rewrite H2|exact H3].
Defined.

(** ** invalidatePattern *)

Lemma invalidate_listed c key d e row :
  PluginCache.disabled c = false ->
  files d !! PluginCache.getFilePath c key = Some (EntryJson e) ->
  JsObject.get (PluginCache.getFilePath c key)
    (CacheManifest.entries (PluginCache.getManifest d)) = Some row ->
  exists d',
    PluginCache.invalidate Completes c key d = (true, d') /\
    files d' = base.delete (PluginCache.getFilePath c key) (files d) /\
    CacheManifest.entries (PluginCache.getManifest d') =
      JsObject.delete (PluginCache.getFilePath c key)
        (CacheManifest.entries (PluginCache.getManifest d)).
Proof.
  intros Hon Hfile Hrow. unfold PluginCache.invalidate. rewrite Hon, Hfile. cbv zeta.
  change (PluginCache.getManifest (withFiles _ d)) with (PluginCache.getManifest d).
  rewrite Hrow, saveManifest_completes. eexists. split; [reflexivity|].
  split; reflexivity.
Qed.

Lemma invalidatePattern_fold c test todo : forall kept d count,
  PluginCache.disabled c = false ->
  CacheManifest.entries (PluginCache.getManifest d) = (kept ++ todo)%list ->
  List.NoDup (JsObject.keys (kept ++ todo)%list) ->
  (forall p row, In (p, row) todo -> matching c test row = true ->
     p = PluginCache.getFilePath c (ManifestEntry.key row) /\
     exists e, files d !! p = Some (EntryJson e)) ->
  let r :=
    fold_left
      (fun (acc : Z * Disk) (row : string * ManifestEntry.t) =>
         let '(count, d') := acc in
         let entry := snd row in
         if String.eqb (ManifestEntry.namespace entry) (PluginCache.namespace c)
            && test (ManifestEntry.key entry)
         then
           match PluginCache.invalidate Completes c (ManifestEntry.key entry) d' with
           | (true, d'') => (count + 1, d'')
           | (false, d'') => (count, d'')
           end
         else acc)
      todo (count, d) in
  fst r = count + Z.of_nat (length (selectedRows (matching c test) todo)) /\
  CacheManifest.entries (PluginCache.getManifest (snd r)) =
    (kept ++ keptRows (matching c test) todo)%list /\
  files (snd r) = unlinkPaths (JsObject.keys (selectedRows (matching c test) todo)) (files d).
Proof.
  unfold selectedRows, keptRows, JsObject.keys.
  induction todo as [|[p row] todo IH]; intros kept d count Hon Hentries Hnd Hfiles.
  - cbn [fold_left fst snd List.filter length List.map unlinkPaths]. rewrite Z.add_0_r.
    split; [reflexivity|]. split; [exact Hentries|reflexivity].
  - cbn [fold_left snd List.filter].
    change (String.eqb (ManifestEntry.namespace row) (PluginCache.namespace c)
            && test (ManifestEntry.key row)) with (matching c test row).
    assert (Hsplit : List.NoDup (List.map fst (kept ++ todo)%list) /\
                     ~ In p (List.map fst (kept ++ todo)%list)).
    { rewrite List.map_app in Hnd |- *. cbn [List.map fst] in Hnd.
      exact (List.NoDup_remove _ _ _ Hnd). }
    destruct Hsplit as [Hnd' Hfresh].
    assert (Hp_kept : ~ In p (List.map fst kept)).
    { intros Hin. apply Hfresh. rewrite List.map_app. apply in_or_app. now left. }
    assert (Hp_todo : ~ In p (List.map fst todo)).
    { intros Hin. apply Hfresh. rewrite List.map_app. apply in_or_app. now right. }
    destruct (matching c test row) eqn:Hsel; cbn [negb].
    + destruct (Hfiles p row (or_introl eq_refl) Hsel) as [Hp [e Hfile]].
      assert (Hrow : JsObject.get p (CacheManifest.entries (PluginCache.getManifest d)) =
                     Some row).
      { rewrite Hentries. apply In_get; [exact Hnd|]. apply in_or_app. right. now left. }
      rewrite Hp in Hfile, Hrow.
      destruct (invalidate_listed c _ d e row Hon Hfile Hrow) as (d' & -> & Hf' & He').
      rewrite <- Hp in Hf', He'. rewrite Hentries in He'.
      rewrite delete_middle in He' by assumption.
      destruct (IH kept d' (count + 1) Hon He' Hnd') as (H1 & H2 & H3).
      { intros q row' Hin Hsel'. destruct (Hfiles q row' (or_intror Hin) Hsel') as [Hq [e' He]].
        split; [exact Hq|]. exists e'. rewrite Hf'.
        rewrite lookup_delete_ne; [exact He|].
        intros ->. apply Hp_todo. exact (in_map fst _ _ Hin). }
      cbv zeta in H1, H2, H3. rewrite H1, H2, H3, Hf'.
      cbn [length List.map fst unlinkPaths fold_left]. split; [lia|]. split; reflexivity.
    + assert (Hentries' : CacheManifest.entries (PluginCache.getManifest d) =
                          ((kept ++ [(p, row)]) ++ todo)%list)
        by (rewrite Hentries, <- app_assoc; reflexivity).
      assert (Hnd2 : List.NoDup (List.map fst ((kept ++ [(p, row)]) ++ todo)%list))
        by (rewrite <- app_assoc; exact Hnd).
      destruct (IH (kept ++ [(p, row)])%list d count Hon Hentries' Hnd2) as (H1 & H2 & H3).
      { intros q row' Hin Hsel'. exact (Hfiles q row' (or_intror Hin) Hsel'). }
      cbv zeta in H1, H2, H3. rewrite H1, H2, H3, <- app_assoc.
      split; [reflexivity|]. split; reflexivity.
Qed.

Lemma filter_map_commute {A B} (f : A -> B) (g : B -> bool) l :
  List.filter g (List.map f l) = List.map f (List.filter (fun x => g (f x)) l).
Proof.
  induction l as [|x l IH]; [reflexivity|].
  cbn [List.map List.filter]. destruct (g (f x)); cbn [List.map]; now rewrite IH.
Qed.

Lemma filter_filter {A} (f g : A -> bool) l :
  List.filter f (List.filter g l) = List.filter (fun x => g x && f x) l.
Proof.
  induction l as [|x l IH]; [reflexivity|].
  cbn [List.filter]. destruct (g x); cbn [List.filter andb]; [|exact IH].
  destruct (f x); now rewrite IH.
Qed.

Lemma filter_ext_bool {A} (f g : A -> bool) l :
  (forall x, f x = g x) -> List.filter f l = List.filter g l.
Proof.
  intros H. induction l as [|x l IH]; [reflexivity|].
  cbn [List.filter]. now rewrite H, IH.
Qed.

(** X29. invalidatePattern removes the keys of its namespace that pass the
    test, and nothing else.  When every such row is filed under the path of
    its key with a readable entry file (as set leaves it), the count returned
    is the number of own keys that pass, the keys left are the own keys that
    do not pass, in their order, no removed key has a file any more, the
    other entry files are untouched and every other namespace lists the keys
    it listed.  The pattern is taken by its test on a key, as for a regular
    expression without the g and y flags. *)
Theorem invalidatePattern_removes_the_matching_keys c test d :
  PluginCache.disabled c = false ->
  List.NoDup (JsObject.keys (CacheManifest.entries (PluginCache.getManifest d))) ->
  matchesOnFile c test d ->
  let r := PluginCache.invalidatePattern Completes c test d in
  fst r = Z.of_nat (length (List.filter test (PluginCache.keys c d))) /\
  PluginCache.keys c (snd r) =
    List.filter (fun k => negb (test k)) (PluginCache.keys c d) /\
  (forall k, In k (PluginCache.keys c d) -> test k = true ->
     PluginCache.has c k (snd r) = false) /\
  (forall p,
     ~ In p (JsObject.keys
               (selectedRows (matching c test)
                  (CacheManifest.entries (PluginCache.getManifest d)))) ->
     files (snd r) !! p = files d !! p) /\
  (forall other,
     PluginCache.namespace other <> PluginCache.namespace c ->
     PluginCache.keys other (snd r) = PluginCache.keys other d).
Proof.
  intros Hon Hnd Hfiles r.
  set (o := CacheManifest.entries (PluginCache.getManifest d)) in *.
  destruct (invalidatePattern_fold c test o [] d 0 Hon eq_refl Hnd Hfiles) as (H1 & H2 & H3).
  cbv zeta in H1, H2, H3. cbn [app] in H2.
  assert (Hr : r = fold_left
      (fun (acc : Z * Disk) (row : string * ManifestEntry.t) =>
         let '(count, d') := acc in
         let entry := snd row in
         if String.eqb (ManifestEntry.namespace entry) (PluginCache.namespace c)
            && test (ManifestEntry.key entry)
         then
           match PluginCache.invalidate Completes c (ManifestEntry.key entry) d' with
           | (true, d'') => (count + 1, d'')
           | (false, d'') => (count, d'')
           end
         else acc)
      o (0, d)).
  { subst r. unfold PluginCache.invalidatePattern. rewrite Hon. reflexivity. }
  cbv zeta in Hr. rewrite <- Hr in H1, H2, H3. clear Hr.
  assert (Hown : forall ns sel (rows : JsObject.t ManifestEntry.t),
            List.filter (inNamespace ns) (JsObject.values (List.filter (fun row => sel (snd row)) rows)) =
            List.filter (fun row => sel row && inNamespace ns row) (JsObject.values rows)).
  { intros ns sel rows. unfold JsObject.values.
    rewrite <- (filter_map_commute snd sel). apply filter_filter. }
  split; [|split; [|split; [|split]]].
  - rewrite H1, Z.add_0_l. f_equal.
    unfold PluginCache.keys. rewrite Hon. fold o.
    change (fun e : ManifestEntry.t =>
              String.eqb (ManifestEntry.namespace e) (PluginCache.namespace c))
      with (inNamespace (PluginCache.namespace c)).
    rewrite filter_map_commute, length_map, filter_filter.
    unfold selectedRows. rewrite <- (length_map snd).
    rewrite <- (filter_map_commute snd (matching c test)). reflexivity.
  - unfold PluginCache.keys. rewrite Hon, H2. fold o.
    change (fun e : ManifestEntry.t =>
              String.eqb (ManifestEntry.namespace e) (PluginCache.namespace c))
      with (inNamespace (PluginCache.namespace c)).
    unfold keptRows.
    rewrite (Hown _ (fun row => negb (matching c test row))), filter_map_commute, filter_filter.
    f_equal.
    apply filter_ext_bool. intros row. unfold matching.
    destruct (inNamespace (PluginCache.namespace c) row), (test (ManifestEntry.key row));
      reflexivity.
  - intros k Hk Htest. unfold PluginCache.keys in Hk. rewrite Hon in Hk. fold o in Hk.
    apply in_map_iff in Hk as (row & <- & Hrow). apply filter_In in Hrow as [Hrow Hns].
    apply in_map_iff in Hrow as ([p row'] & Heq & Hin). cbn [snd] in Heq. subst row'.
    assert (Hsel : matching c test row = true)
      by (unfold matching, inNamespace; now rewrite Hns, Htest).
    destruct (Hfiles p row Hin Hsel) as [Hp _].
    unfold PluginCache.has. rewrite Hon, H3, <- Hp.
    rewrite unlinkPaths_gone; [reflexivity|].
    apply (in_map fst _ (p, row)). apply selectedRows_In. now split.
  - intros p Hp. rewrite H3. now apply unlinkPaths_kept.
  - intros other Hother. unfold PluginCache.keys. rewrite H2. fold o.
    destruct (PluginCache.disabled other); [reflexivity|]. f_equal.
    change (fun e : ManifestEntry.t =>
              String.eqb (ManifestEntry.namespace e) (PluginCache.namespace other))
      with (inNamespace (PluginCache.namespace other)).
    unfold keptRows. rewrite (Hown _ (fun row => negb (matching c test row))).
    apply filter_ext_bool. intros row.
    unfold matching, inNamespace.
    destruct (String.eqb_spec (ManifestEntry.namespace row) (PluginCache.namespace other))
      as [Heq|Hne]; [|now rewrite andb_false_r].
    destruct (String.eqb_spec (ManifestEntry.namespace row) (PluginCache.namespace c));
      [congruence|reflexivity].
Qed.

Lemma invalidatePattern_removes_the_matching_keys_witness :
  let r := PluginCache.invalidatePattern Completes shopCache (String.eqb "a") twoEntriesDisk in
  PluginCache.disabled shopCache = false /\
  PluginCache.keys shopCache twoEntriesDisk = ["a"] /\
  fst r = 1 /\ PluginCache.keys shopCache (snd r) = [] /\
  PluginCache.has shopCache "a" (snd r) = false.
Proof.
  intros r.
  destruct (invalidatePattern_removes_the_matching_keys shopCache (String.eqb "a")
              twoEntriesDisk) as (H1 & H2 & H3 & _).
  - reflexivity.
  - repeat constructor; cbn; intuition discriminate.
  - intros p row [H|[H|[]]] Hsel; inversion H; subst; try discriminate Hsel.
    split; [reflexivity|]. eexists. reflexivity.
  - fold r in H1, H2, H3.
    split; [reflexivity|]. split; [reflexivity|]. split; [rewrite H1; reflexivity|].
    split; [rewrite H2; reflexivity|]. apply H3; [now left|reflexivity].
Defined.
